(** * eddy.annulus: the [ensemble] class, embedded and checked against its specification

    The Python source is [src/eddy/annulus.py].  Numbers are IEEE binary64
    values (numpy's [float64]), modelled by Rocq's primitive floats, so that
    not-a-number and the infinities behave as they do in the program.  A
    one-dimensional array is a [list float], a two-dimensional one a list of
    rows.  A method that can raise returns a [result]; the collaborators that
    live outside the repository (numpy's sort and reductions, scipy's fits and
    minimizer, celerite, emcee) are section variables. *)

From Stdlib Require Import String Ascii List ZArith Bool Lia Floats.
From Stdlib Require Uint63.
From Stdlib Require Import Sorting.Sorted Sorting.Permutation.
Import ListNotations.

Set Warnings "-inexact-float,-notation-for-abbreviation".

(* ================================================================= *)
(** ** Python exceptions and the result monad *)

Module Py.

Inductive exn : Type :=
| ValueError (msg : string)
| IndexError (msg : string)
| TypeError (msg : string)
| OverflowError (msg : string).

Inductive result (A : Type) : Type :=
| Ok (a : A)
| Raise (e : exn).
Arguments Ok {A} a.
Arguments Raise {A} e.

Definition bind {A B} (c : result A) (k : A -> result B) : result B :=
  match c with
  | Ok a => k a
  | Raise e => Raise e
  end.

Definition is_ok {A} (c : result A) : bool :=
  match c with Ok _ => true | Raise _ => false end.

End Py.
Import Py.

Notation "x <- c ;; k" := (Py.bind c (fun x => k))
  (at level 61, c at next level, right associativity).
Notation "' pat <- c ;; k" := (Py.bind c (fun x => match x with pat => k end))
  (at level 61, pat pattern, c at next level, right associativity).

(* ================================================================= *)
(** ** The numpy operations the class uses on arrays *)

Module Np.

Open Scope float_scope.

(** [np.isnan] and [np.isfinite] on one value. *)
Definition isnan (x : float) : bool := is_nan x.
Definition isfinite (x : float) : bool := is_finite x.

(** The order numpy sorts floats by: the usual one, not-a-number last. *)
Definition le (a b : float) : bool := (a <=? b) || is_nan b.

(** [a[i]] for a non-negative index. *)
Definition item {A} (a : list A) (i : nat) : result A :=
  match nth_error a i with
  | Some x => Ok x
  | None => Raise (IndexError "index out of bounds")
  end.

(** [a[idxs]] for an integer index array. *)
Fixpoint take {A} (a : list A) (idxs : list nat) : result (list A) :=
  match idxs with
  | [] => Ok []
  | i :: rest =>
      x <- item a i ;;
      xs <- take a rest ;;
      Ok (x :: xs)
  end.

(** The rows of [a] selected by a boolean array of the same length. *)
Fixpoint select {A} (a : list A) (m : list bool) : list A :=
  match a, m with
  | x :: a', b :: m' => if b then x :: select a' m' else select a' m'
  | _, _ => []
  end.

(** [a[mask]] for a boolean index array: the lengths must agree. *)
Definition mask {A} (a : list A) (m : list bool) : result (list A) :=
  if Nat.eqb (List.length a) (List.length m) then Ok (select a m)
  else Raise (IndexError "boolean index did not match indexed array").

(** [a.flatten()] of a two-dimensional array, row by row. *)
Definition flatten {A} (a : list (list A)) : list A := concat a.

(** [a[-1]]. *)
Definition last_item {A} (a : list A) : result A :=
  match rev a with
  | x :: _ => Ok x
  | [] => Raise (IndexError "index -1 is out of bounds")
  end.

(** [np.diff(a)[0]]. *)
Definition diff0 (a : list float) : result float :=
  match a with
  | x0 :: x1 :: _ => Ok (x1 - x0)
  | _ => Raise (IndexError "index 0 is out of bounds")
  end.

(** [np.any(np.isnan(a))] over a two-dimensional array. *)
Definition any_isnan (a : list (list float)) : bool :=
  existsb (existsb isnan) a.

(** [np.any(~np.isfinite(a))]: some entry is a not-a-number or an
    infinity. *)
Definition any_nonfinite (a : list (list float)) : bool :=
  existsb (existsb (fun x => negb (isfinite x))) a.

(** [np.argmax] of a one-dimensional float array: the first maximum, a
    not-a-number counting as the largest value.  [go] carries the running
    maximum [mp], its index [best] and the index [i] of the head. *)
Fixpoint argmax_go (mp : float) (best i : nat) (a : list float) : nat :=
  match a with
  | [] => best
  | x :: a' =>
      if negb (x <=? mp) then
        if isnan x then i else argmax_go x i (S i) a'
      else argmax_go mp best (S i) a'
  end.

Definition argmax (a : list float) : result nat :=
  match a with
  | [] => Raise (ValueError "attempt to get argmax of an empty sequence")
  | x :: a' => Ok (if isnan x then 0%nat else argmax_go x 0 1 a')
  end.

End Np.

(* ================================================================= *)
(** ** Python scalars: the [resample] argument, [int()] and [str.lower] *)

Module Scalar.

Open Scope float_scope.

(** [resample] is documented as a bool and used as a factor: it may be a
    Python bool, int or float. *)
Inductive resample_t : Type :=
| RBool (b : bool)
| RInt (n : Z)
| RFloat (f : float).

(** Python truth value of the argument ([not resample] is its negation):
    [False], [0] and [0.0] are false, everything else, not-a-number
    included, is true. *)
Definition truthy (r : resample_t) : bool :=
  match r with
  | RBool b => b
  | RInt n => negb (Z.eqb n 0)
  | RFloat f => negb (f =? 0)
  end.

(** A Python int as a float (exact below 2^53). *)
Definition of_int (n : Z) : float :=
  if Z.ltb n 0 then - of_uint63 (Uint63.of_Z (- n))
  else of_uint63 (Uint63.of_Z n).

(** [int(x)] of a float: truncation toward zero; it raises on not-a-number
    and on the infinities. *)
Definition int_of_float (x : float) : result Z :=
  match Prim2SF x with
  | S754_zero _ => Ok 0%Z
  | S754_finite s m e =>
      let mag := match e with
                 | Zneg k => Z.div (Zpos m) (Z.pow 2 (Zpos k))
                 | _ => Z.mul (Zpos m) (Z.pow 2 e)
                 end in
      Ok (if s then Z.opp mag else mag)
  | S754_infinity _ =>
      Raise (OverflowError "cannot convert float infinity to integer")
  | S754_nan => Raise (ValueError "cannot convert float NaN to integer")
  end.

(** [int(n * resample)] for a Python int [n]. *)
Definition int_times (n : Z) (r : resample_t) : result Z :=
  match r with
  | RBool b => Ok (if b then n else 0%Z)
  | RInt k => Ok (Z.mul n k)
  | RFloat f => int_of_float (of_int n * f)
  end.

(** [str.lower] on the ASCII letters. *)
Definition lower_ascii (c : ascii) : ascii :=
  let n := nat_of_ascii c in
  if andb (Nat.leb 65 n) (Nat.leb n 90) then ascii_of_nat (n + 32) else c.

Fixpoint lower (s : string) : string :=
  match s with
  | EmptyString => EmptyString
  | String c s' => String (lower_ascii c) (lower s')
  end.

(** [np.pi]. *)
Definition pi : float := 0x1.921fb54442d18p+1.

End Scalar.
Import Scalar.

(* ================================================================= *)
(** ** Mutable arrays and the call trace *)

(** The optimizer and the driver work on numpy arrays held by reference:
    two names can denote one array, and a write through one is seen through
    the other.  [state] is the store of those arrays, together with the
    trace of the calls made so far to [_lnlikelihood] and to the sampler. *)

Module Mem.

Definition ref : Type := nat.

Inductive event : Type :=
| EvLnLikelihood (theta : list float) (resample : resample_t)
| EvRunMCMC (p0 : list (list float)) (steps : Z).

Record state : Type := mkState {
  heap : list (list float);
  trace : list event
}.

Definition M (A : Type) : Type := state -> result A * state.

Definition ret {A} (a : A) : M A := fun s => (Ok a, s).

Definition raise {A} (e : exn) : M A := fun s => (Raise e, s).

Definition bind {A B} (c : M A) (k : A -> M B) : M B :=
  fun s => match c s with
           | (Ok a, s') => k a s'
           | (Raise e, s') => (Raise e, s')
           end.

Definition lift {A} (c : result A) : M A := fun s => (c, s).

(** A new array object. *)
Definition alloc (a : list float) : M ref :=
  fun s => (Ok (length (heap s)), mkState (heap s ++ [a]) (trace s)).

Definition read (r : ref) : M (list float) :=
  fun s => (Ok (nth r (heap s) []), s).

Fixpoint set_nth {A} (i : nat) (x : A) (l : list A) : list A :=
  match l, i with
  | [], _ => []
  | _ :: l', O => x :: l'
  | y :: l', S i' => y :: set_nth i' x l'
  end.

(** Overwrite the array object in place. *)
Definition write (r : ref) (a : list float) : M unit :=
  fun s => (Ok tt, mkState (set_nth r a (heap s)) (trace s)).

Definition log (e : event) : M unit :=
  fun s => (Ok tt, mkState (heap s) (trace s ++ [e])).

End Mem.
Import Mem.

Notation "x <~ c ;; k" := (Mem.bind c (fun x => k))
  (at level 61, c at next level, right associativity).
Notation "' pat <~ c ;; k" := (Mem.bind c (fun x => match x with pat => k end))
  (at level 61, pat pattern, c at next level, right associativity).

(** Keyword arguments handed on to [scipy.optimize.minimize]. *)
Inductive kwval : Type :=
| KStr (s : string)
| KOptions (maxiter maxfun : Z) (ftol : float)
| KOther (v : float).

Definition kwargs_t : Type := list (string * kwval).

Fixpoint kw_get (kw : kwargs_t) (k : string) : option kwval :=
  match kw with
  | [] => None
  | (k', v) :: kw' => if String.eqb k k' then Some v else kw_get kw' k
  end.

Fixpoint kw_set (kw : kwargs_t) (k : string) (v : kwval) : kwargs_t :=
  match kw with
  | [] => [(k, v)]
  | (k', v') :: kw' =>
      if String.eqb k k' then (k, v) :: kw' else (k', v') :: kw_set kw' k v
  end.

(** The fields of scipy's [OptimizeResult] that are read. *)
Record OptimizeResult : Type := mkRes {
  res_x : list float;
  res_success : bool
}.

(** [vref] as the driver accepts it. *)
Inductive vref_t : Type :=
| VNumber (v : float)
| VArray (a : list float).

(** What [get_vrot_GP] returns, by [return_all]. *)
Inductive percentiles_t : Type :=
| PAll (p : list (list float))
| PVrot (p : list float).

(* ================================================================= *)
(** ** The class [ensemble] *)

(** The attributes [__init__] sets. *)
Record ensemble : Type := Build_ensemble {
  theta : list float;
  spectra : list (list float);
  theta_deg : list float;
  spectra_flat : list float;
  velax : list float;
  channel : float;
  velax_range : float * float;
  velax_mask : list float
}.

(** [[f(x) for x in xs]] where [f] may raise. *)
Fixpoint mapM {A B} (f : A -> result B) (xs : list A) : result (list B) :=
  match xs with
  | [] => Ok []
  | x :: xs' =>
      y <- f x ;;
      ys <- mapM f xs' ;;
      Ok (y :: ys)
  end.

Section Ensemble.

Open Scope float_scope.

(** *** Collaborators from numpy, scipy and bettermoments *)

(** [np.argsort] with its default [kind]. *)
Variable np_argsort : list float -> list nat.
(** [np.sum] of one row (the reduction along the last axis). *)
Variable np_sum : list float -> float.
Variable np_cos : float -> float.
Variable np_exp : float -> float.
Variable np_power : float -> float -> float.
Variable np_degrees : float -> float.
(** [%] on floats. *)
Variable np_mod : float -> float -> float.
Variable np_percentile : list float -> list float -> list float.
Variable np_median : list float -> float.
Variable np_max : list float -> result float.
Variable np_trapz : list float -> list float -> float.
(** [scipy.stats.binned_statistic(x, values, statistic, bins, range)[:2]]:
    the statistic per bin and the bin edges. *)
Variable binned_statistic :
  list float -> list float -> string -> Z -> float * float ->
  result (list float * list float).
(** [scipy.optimize.curve_fit(f, xdata, ydata, sigma, p0)]: the optimum and
    its covariance matrix. *)
Variable curve_fit :
  (float -> list float -> float) -> list float -> list float ->
  option (list float) -> list float ->
  result (list float * list (list float)).
(** [bettermoments.methods.quadratic(spectrum, x0, dx)[0]]. *)
Variable quadratic : list float -> float -> float -> result float.

(** *** Construction *)

Definition __init__ (spectra0 : list (list float)) (theta0 velax0 : list float)
    (suppress_warnings remove_empty sort_spectra : bool) : result ensemble :=
  (* Sort the spectra. *)
  '(self_theta, self_spectra) <-
    (if sort_spectra then
       let idxs := np_argsort theta0 in
       sp <- Np.take spectra0 idxs ;;
       th <- Np.take theta0 idxs ;;
       Ok (th, sp)
     else Ok (theta0, spectra0)) ;;
  (* Remove empty pixels: the test reads the argument [spectra]. *)
  '(self_theta, self_spectra) <-
    (if remove_empty then
       let idxs := map (fun row => 0 <? np_sum row) spectra0 in
       th <- Np.mask self_theta idxs ;;
       sp <- Np.mask self_spectra idxs ;;
       Ok (th, sp)
     else Ok (self_theta, self_spectra)) ;;
  (* Easier to use variables: both read the arguments. *)
  let theta_deg := map (fun t => np_mod (np_degrees t) 360) theta0 in
  let spectra_flat := Np.flatten spectra0 in
  if Nat.ltb (length self_theta) 1
  then Raise (ValueError "No finite spectra. Check for NaNs.")
  else
    (* Velocity axis. *)
    channel <- Np.diff0 velax0 ;;
    v0 <- Np.item velax0 0 ;;
    vlast <- Np.last_item velax0 ;;
    Ok (Build_ensemble self_theta self_spectra theta_deg spectra_flat
          velax0 channel
          (v0 - 0.5 * channel, vlast + 0.5 * channel)
          (np_percentile velax0 [30; 70])).

(** *** Deprojection *)

Definition _order_spectra (self : ensemble) (vpnts : list float)
    (spnts : option (list float)) : result (list float * list float) :=
  let spnts := match spnts with
               | None => spectra_flat self
               | Some s => s
               end in
  if negb (Nat.eqb (length spnts) (length vpnts))
  then Raise (ValueError "Wrong size in 'vpnts' and 'spnts'.")
  else
    let idxs := np_argsort vpnts in
    v <- Np.take vpnts idxs ;;
    s <- Np.take spnts idxs ;;
    Ok (v, s).

(** [np.average([x_edges[1:], x_edges[:-1]], axis=0)]. *)
Definition midpoints (x_edges : list float) : list float :=
  map (fun p => (fst p + snd p) / 2) (combine (tl x_edges) (removelast x_edges)).

Definition _resample_spectra (self : ensemble) (vpnts spnts : list float)
    (resample : resample_t) : result (list float * list float) :=
  if negb (truthy resample) then Ok (vpnts, spnts)
  else
    bins <- int_times (Z.of_nat (length (velax self)) - 1) resample ;;
    '(y, x_edges) <- binned_statistic vpnts spnts "mean" bins (velax_range self) ;;
    Ok (midpoints x_edges, y).

(** [self.velax[None, :] - vrot * np.cos(self.theta)[:, None]]: one row per
    angle, one column per channel. *)
Definition shifted_axes (self : ensemble) (vrot : float) : list (list float) :=
  map (fun t => map (fun v => v - vrot * np_cos t) (velax self)) (theta self).

Definition deprojected_spectrum (self : ensemble) (vrot : float)
    (resample : resample_t) : result (list float * list float) :=
  let vpnts := shifted_axes self vrot in
  '(vpnts, spnts) <- _order_spectra self (Np.flatten vpnts) None ;;
  _resample_spectra self vpnts spnts resample.

(** *** Line profiles and Gaussian fits *)

Definition _gaussian (x x0 dV Tb : float) : float :=
  Tb * np_exp (- np_power ((x - x0) / dV) 2).

Definition _get_p0_gaussian (x y : list float) : result (list float) :=
  if negb (Nat.eqb (length x) (length y))
  then Raise (ValueError "Mismatch in array shapes.")
  else
    Tb <- np_max x ;;
    i <- Np.argmax y ;;
    x0 <- Np.item x i ;;
    let dV := np_trapz y x / Tb / PrimFloat.sqrt (2 * pi) in
    Ok [x0; dV; Tb].

(** [np.diag] of a square matrix. *)
Fixpoint diag (i : nat) (m : list (list float)) : list float :=
  match m with
  | [] => []
  | row :: m' => nth i row nan :: diag (S i) m'
  end.

(** [_fit_gaussian]: the pair [(popt, cvar)] that [return_uncertainty=True]
    returns; the default call returns [popt], its first component.  Every
    exception of the fit and of the initial guess is caught. *)
Definition _fit_gaussian (x y : list float) (dy : option (list float))
    : list float * list float :=
  match
    (p0 <- _get_p0_gaussian x y ;;
     curve_fit (fun x p => _gaussian x (nth 0 p nan) (nth 1 p nan) (nth 2 p nan))
       x y dy p0)
  with
  | Ok (popt, cvar) => (popt, diag 0 cvar)
  | Raise _ => ([nan; nan; nan], [nan; nan; nan])
  end.

Definition _get_gaussian_width (x y : list float) (fill_value : float)
    : result float :=
  dV <- Np.item (fst (_fit_gaussian x y None)) 1 ;;
  if Np.isfinite dV then Ok (abs dV) else Ok fill_value.

Definition _get_gaussian_center (x y : list float) : result float :=
  x0 <- Np.item (fst (_fit_gaussian x y None)) 0 ;;
  if Np.isfinite x0 then Ok (abs x0)
  else
    i <- Np.argmax y ;;
    Np.item x i.

Definition peak_velocities (self : ensemble) (method : string)
    : result (list float) :=
  let method := lower method in
  if String.eqb method "max" then
    idxs <- mapM Np.argmax (spectra self) ;;
    Np.take (velax self) idxs
  else if String.eqb method "quadratic" then
    mapM (fun spectrum =>
            x0 <- Np.item (velax self) 0 ;;
            quadratic spectrum x0 (channel self))
         (spectra self)
  else if String.eqb method "gaussian" then
    mapM (fun spectrum => _get_gaussian_center (velax self) spectrum)
         (spectra self)
  else Raise (ValueError "method is not 'max', 'gaussian' or 'quadratic'.").

Definition deprojected_spectrum_maximum (self : ensemble)
    (resample : resample_t) (method : string)
    : result (list float * list float) :=
  vmax <- peak_velocities self method ;;
  let med := np_median vmax in
  let vpnts := map (fun dv => map (fun v => v - dv) (velax self))
                   (map (fun v => v - med) vmax) in
  '(vpnts, spnts) <- _order_spectra self (Np.flatten vpnts) None ;;
  _resample_spectra self vpnts spnts resample.

(** *** The prior *)

Definition _lnprior (theta : list float) (vref : float) : result float :=
  match theta with
  | [vrot; noise; lnsigma; lnrho] =>
      Ok (if 0.2 <? abs (vrot - vref) / vref then neg_infinity
          else if vrot <=? 0 then neg_infinity
          else if noise <=? 0 then neg_infinity
          else if negb ((-15 <? lnsigma) && (lnsigma <? 10)) then neg_infinity
          else if negb ((0 <=? lnrho) && (lnrho <=? 10)) then neg_infinity
          else 0)
  | _ => Raise (ValueError "wrong number of values to unpack")
  end.

(** *** The Gaussian-process likelihood *)

Variable np_log : float -> float.
Variable np_std : list float -> float.
Variable np_nanmean : list float -> float.
Variable np_min : list float -> result float.
Variable np_mean : list float -> float.
(** [np.percentile(a, q, axis=0)] of a two-dimensional array. *)
Variable np_percentile_axis0 : list (list float) -> list float -> list (list float).
(** [np.random.randn(n)]: the numbers drawn by this call. *)
Variable randn : nat -> list float.
(** celerite: [GP(JitterTerm(log_sigma) + Matern32Term(log_sigma, log_rho),
    mean, fit_mean=True)], [gp.compute(x)] and
    [gp.log_likelihood(y, quiet=True)]. *)
Variable GP : Type.
Variable celerite_GP : float -> float -> float -> float -> GP.
Variable gp_compute : GP -> list float -> result GP.
Variable gp_log_likelihood : GP -> list float -> result float.
(** [scipy.optimize.minimize(fun, x0, bounds=bounds, **kwargs)]. *)
Variable minimize :
  (list float -> M float) -> list float ->
  list (option float * option float) -> kwargs_t -> M OptimizeResult.
(** [emcee.EnsembleSampler(nwalkers, ndim, lnprob).run_mcmc(p0, steps)]
    followed by [sampler.chain]: one list of steps per walker. *)
Variable run_mcmc :
  nat -> nat -> (list float -> M float) -> list (list float) -> Z ->
  M (list (list (list float))).

Definition _get_masked_spectra (self : ensemble) (theta : list float)
    (resample : resample_t) : result (list float * list float) :=
  vrot <- Np.item theta 0 ;;
  '(x, y) <- deprojected_spectrum self vrot resample ;;
  lo <- Np.item (velax_mask self) 0 ;;
  hi <- Np.item (velax_mask self) 1 ;;
  let mask := map (fun v => (lo <=? v) && (v <=? hi)) x in
  xm <- Np.mask x mask ;;
  ym <- Np.mask y mask ;;
  Ok (xm, ym).

(** [None] when [gp.compute(x)] raises. *)
Definition _build_kernel (x y theta : list float) : result (option GP) :=
  match tl theta with
  | [noise; lnsigma; lnrho] =>
      let gp := celerite_GP (np_log noise) lnsigma lnrho (np_nanmean y) in
      match gp_compute gp x with
      | Ok gp' => Ok (Some gp')
      | Raise _ => Ok None
      end
  | _ => Raise (ValueError "wrong number of values to unpack")
  end.

Definition _lnlikelihood (self : ensemble) (theta : list float)
    (resample : resample_t) : M float :=
  _ <~ log (EvLnLikelihood theta resample) ;;
  (* Deproject the data and resample if requested. *)
  '(x, y) <~ lift (_get_masked_spectra self theta resample) ;;
  (* Build the GP model and calculate the log-likelihood. *)
  gp <~ lift (_build_kernel x y theta) ;;
  match gp with
  | None => ret neg_infinity
  | Some gp =>
      ll <~ lift (gp_log_likelihood gp y) ;;
      ret (if Np.isfinite ll then ll else neg_infinity)
  end.

Definition _lnprobability (self : ensemble) (theta : list float)
    (vref : float) (resample : resample_t) : M float :=
  p <~ lift (_lnprior theta vref) ;;
  if negb (Np.isfinite p) then ret neg_infinity
  else _lnlikelihood self theta resample.

Definition _negative_lnlikelihood (self : ensemble) (theta : list float)
    (resample : resample_t) : M float :=
  ll <~ _lnlikelihood self theta resample ;;
  let nll := - ll in
  ret (if Np.isfinite nll then nll else 1e15).

(** [np.insert(hyperparams, 0, vrot)] with [vrot] the one-element array the
    minimizer passes. *)
Definition _negative_lnlikelihood_vrot (self : ensemble) (vrot : list float)
    (hyperparams : list float) (resample : resample_t) : M float :=
  let theta := vrot ++ hyperparams in
  ll <~ _lnlikelihood self theta resample ;;
  let nll := - ll in
  ret (if Np.isfinite nll then nll else 1e15).

Definition _negative_lnlikelihood_hyper (self : ensemble)
    (hyperparams : list float) (vrot : float) (resample : resample_t)
    : M float :=
  let theta := vrot :: hyperparams in
  ll <~ _lnlikelihood self theta resample ;;
  let nll := - ll in
  ret (if Np.isfinite nll then nll else 1e15).

(** *** The staged optimizer *)

(** [a[1:] = x] on the array object [r]: [x] has the length of the slice
    or is broadcast from one element. *)
Definition assign_tail (r : ref) (x : list float) : M unit :=
  a <~ read r ;;
  let n := (length a - 1)%nat in
  if Nat.eqb (length x) n then write r (firstn 1 a ++ x)
  else if Nat.eqb (length x) 1 then write r (firstn 1 a ++ repeat (hd nan x) n)
  else raise (ValueError "could not broadcast input array").

(** [a[0] = x] on the array object [r], for an array [x]. *)
Definition assign_head (r : ref) (x : list float) : M unit :=
  a <~ read r ;;
  match a, x with
  | [], _ => raise (IndexError "index 0 is out of bounds")
  | _ :: a', [v] => write r (v :: a')
  | _, _ => raise (ValueError "setting an array element with a sequence.")
  end.

Definition py_int (n : resample_t) : result Z :=
  match n with
  | RBool b => Ok (if b then 1%Z else 0%Z)
  | RInt k => Ok k
  | RFloat f => int_of_float f
  end.

(** One pass of the [for] loop; the pair is the local [p0] (a reference)
    and [nlnL]. *)
Definition optimize_iteration (self : ensemble) (resample : resample_t)
    (kwargs : kwargs_t) (st : ref * float) : M (ref * float) :=
  let '(p0, nlnL) := st in
  (* Define the bounds. *)
  p0v <~ read p0 ;;
  v0 <~ lift (Np.item p0v 0) ;;
  let bounds := [(Some (0.8 * v0), Some (1.2 * v0)); (Some 0, None);
                 (Some (-15), Some 10); (Some 0, Some 10)] in
  (* First minimize hyper parameters, holding vrot constant. *)
  res <~ minimize (fun hyper => _negative_lnlikelihood_hyper self hyper v0 resample)
           (tl p0v) (tl bounds) kwargs ;;
  '(p0, nlnL) <~
    (if res_success res then
       let p0_temp := p0 in
       _ <~ assign_tail p0_temp (res_x res) ;;
       t <~ read p0_temp ;;
       nlnL_temp <~ _negative_lnlikelihood self t resample ;;
       if nlnL_temp <? nlnL then ret (p0_temp, nlnL_temp) else ret (p0, nlnL)
     else ret (p0, nlnL)) ;;
  (* Second, minimize vrot holding the hyper parameters constant. *)
  p0v <~ read p0 ;;
  v0 <~ lift (Np.item p0v 0) ;;
  res <~ minimize (fun vrot => _negative_lnlikelihood_vrot self vrot (tl p0v) resample)
           [v0] (firstn 1 bounds) kwargs ;;
  '(p0, nlnL) <~
    (if res_success res then
       let p0_temp := p0 in
       _ <~ assign_head p0_temp (res_x res) ;;
       t <~ read p0_temp ;;
       nlnL_temp <~ _negative_lnlikelihood self t resample ;;
       if nlnL_temp <? nlnL then ret (p0_temp, nlnL_temp) else ret (p0, nlnL)
     else ret (p0, nlnL)) ;;
  (* Final minimization with everything. *)
  p0v <~ read p0 ;;
  res <~ minimize (fun th => _negative_lnlikelihood self th resample)
           p0v bounds kwargs ;;
  if res_success res then
    p0_temp <~ alloc (res_x res) ;;
    t <~ read p0_temp ;;
    nlnL_temp <~ _negative_lnlikelihood self t resample ;;
    if nlnL_temp <? nlnL then ret (p0_temp, nlnL_temp) else ret (p0, nlnL)
  else ret (p0, nlnL).

Fixpoint iterate {A} (n : nat) (f : A -> M A) (a : A) : M A :=
  match n with
  | O => ret a
  | S n' => a' <~ f a ;; iterate n' f a'
  end.

Definition _optimize_p0 (self : ensemble) (p0 : ref) (N : resample_t)
    (resample : resample_t) (kwargs : kwargs_t) : M ref :=
  let kwargs := kw_set kwargs "method"
                  (match kw_get kwargs "method" with
                   | Some v => v
                   | None => KStr "L-BFGS-B"
                   end) in
  let kwargs := kw_set kwargs "options" (KOptions 100000 100000 1e-4) in
  p0v <~ read p0 ;;
  nlnL <~ _negative_lnlikelihood self p0v resample ;;
  n <~ lift (py_int N) ;;
  st <~ iterate (Z.to_nat n) (optimize_iteration self resample kwargs) (p0, nlnL) ;;
  ret (fst st).

(** *** Starting positions and the MCMC driver *)

Definition _SHO (x A y0 : float) : float := A * np_cos x + y0.

Definition _SHOb (x A y0 dx : float) : float := A * np_cos (x + dx) + y0.

(** The value is the pair [(vrot, vlsr)] or what the fit returns in its
    place; a failing fit is caught. *)
Definition guess_parameters (self : ensemble) (fit fix_theta : bool)
    (method : string) : result (list float) :=
  vpeaks <- peak_velocities self method ;;
  mx <- np_max vpeaks ;;
  mn <- np_min vpeaks ;;
  let vrot := 0.5 * (mx - mn) in
  let vlsr := np_mean vpeaks in
  if negb fit then Ok [vrot; vlsr]
  else
    match
      (if fix_theta
       then curve_fit (fun x p => _SHO x (nth 0 p nan) (nth 1 p nan))
              (theta self) vpeaks None [vrot; vlsr]
       else curve_fit (fun x p => _SHOb x (nth 0 p nan) (nth 1 p nan) (nth 2 p nan))
              (theta self) vpeaks None [vrot; vlsr; 0])
    with
    | Ok (popt, _) => Ok popt
    | Raise _ => Ok [vrot; vlsr]
    end.

(** [a[-n:]] for a Python int [n]. *)
Definition py_lastn {A} (n : Z) (a : list A) : list A :=
  match n with
  | Z0 => a
  | Zpos _ => skipn (length a - Z.to_nat n) a
  | Zneg _ => skipn (Z.to_nat (- n)) a
  end.

Definition _guess_parameters_GP (self : ensemble) (vref : option float)
    (fit : bool) : result (list float) :=
  vref <- match vref with
          | None => g <- guess_parameters self fit true "quadratic" ;; Np.item g 0
          | Some v => Ok v
          end ;;
  ncols <- match spectra self with
           | row :: _ => Ok (length row)
           | [] => Raise (IndexError "tuple index out of range")
           end ;;
  let noise := Z.min 10 (Z.of_nat ncols / 3) in
  let left := map (firstn (Z.to_nat noise)) (spectra self) in
  let right := map (py_lastn noise) (spectra self) in
  if Z.eqb noise 0 && negb (Nat.eqb ncols 0)
  then Raise (ValueError "inhomogeneous shape")
  else
    let noise := np_std (Np.flatten left ++ Np.flatten right) in
    let ln_sig := np_log (np_std (Np.flatten (spectra self))) in
    let ln_rho := np_log 150 in
    Ok [vref; noise; ln_sig; ln_rho].

(** [a.reshape(rows, cols)] of a one-dimensional array of [rows * cols]
    entries. *)
Fixpoint reshape {A} (rows cols : nat) (a : list A) : list (list A) :=
  match rows with
  | O => []
  | S rows' => firstn cols a :: reshape rows' cols (skipn cols a)
  end.

Definition _randomize_p0 (p0 : list float) (nwalkers : nat) (scatter : float)
    : list (list float) :=
  let dp0 := reshape nwalkers (length p0) (randn (nwalkers * length p0)) in
  let base := map (fun p => if p =? 0 then 1 else p) p0 in
  let dp0 := map (fun row =>
               map (fun bd => fst bd * (1 + scatter * snd bd)) (combine base row))
               dp0 in
  map (fun row =>
         map (fun pd => if fst pd =? 0 then snd pd - 1 else snd pd) (combine p0 row))
      dp0.

(** [get_vrot_GP] up to the randomized starting positions: the walkers'
    positions and the reference velocity handed to the sampler. *)
Definition get_vrot_GP_init (self : ensemble) (vref : option vref_t)
    (p0 : option ref) (resample optimize : resample_t) (nwalkers : nat)
    (scatter : float) (kwargs : kwargs_t) : M (list (list float) * float) :=
  (* Initialize the starting positions: the warning printed when both are
     given formats [p0[0]] and [vref]. *)
  _ <~ match vref, p0 with
       | Some v, Some r =>
           p0v <~ read r ;;
           _ <~ lift (Np.item p0v 0) ;;
           match v with
           | VArray a =>
               if Nat.eqb (length a) 1 then ret tt
               else raise (TypeError "only length-1 arrays can be converted")
           | VNumber _ => ret tt
           end
       | _, _ => ret tt
       end ;;
  vref <~ lift (match vref with
                | Some (VNumber v) => Ok v
                | Some (VArray a) => Np.item a 0
                | None => g <- guess_parameters self true true "quadratic" ;;
                          Np.item g 0
                end) ;;
  p0 <~ match p0 with
        | None => a <~ lift (_guess_parameters_GP self (Some vref) true) ;; alloc a
        | Some r => ret r
        end ;;
  p0v <~ read p0 ;;
  if negb (Nat.eqb (length p0v) 4) then raise (ValueError "Incorrect length of p0.")
  else
    vref <~ lift (Np.item p0v 0) ;;
    (* Optimize if necessary. *)
    '(p0, vref) <~
      (if truthy optimize then
         p0 <~ _optimize_p0 self p0 optimize resample kwargs ;;
         p0v <~ read p0 ;;
         vref <~ lift (Np.item p0v 0) ;;
         ret (p0, vref)
       else ret (p0, vref)) ;;
    p0v <~ read p0 ;;
    ret (_randomize_p0 p0v nwalkers scatter, vref).

(** [get_vrot_GP] from the check of the starting positions on.  The two
    diagnostic plots, which return nothing, are left out. *)
Definition get_vrot_GP_sample (self : ensemble) (p0 : list (list float))
    (vref : float) (resample : resample_t) (nwalkers : nat)
    (nburnin nsteps : Z) (return_all : bool) : M percentiles_t :=
  if Np.any_isnan p0 then raise (ValueError "WARNING: NaNs in the p0 array.")
  else
    (* Set up emcee and run the sampler. *)
    _ <~ log (EvRunMCMC p0 (nburnin + nsteps)) ;;
    chain <~ run_mcmc nwalkers 4
               (fun th => _lnprobability self th vref resample)
               p0 (nburnin + nsteps) ;;
    let samples := map (py_lastn nsteps) chain in
    let samples := concat samples in
    (* Return the percentiles. *)
    let percentiles := np_percentile_axis0 samples [16; 50; 84] in
    if return_all then ret (PAll percentiles)
    else
      col <~ lift (mapM (fun row => Np.item row 0) percentiles) ;;
      ret (PVrot col).

Definition get_vrot_GP (self : ensemble) (vref : option vref_t)
    (p0 : option ref) (resample optimize : resample_t) (nwalkers : nat)
    (nburnin nsteps : Z) (scatter : float) (return_all : bool)
    (kwargs : kwargs_t) : M percentiles_t :=
  '(p0, vref) <~ get_vrot_GP_init self vref p0 resample optimize nwalkers
                   scatter kwargs ;;
  get_vrot_GP_sample self p0 vref resample nwalkers nburnin nsteps return_all.

(** *** The width of the deprojected line *)

(** [fill_value] of [_get_gaussian_width] is left at its default. *)
Definition get_deprojected_width (self : ensemble) (vrot : float)
    (resample : resample_t) : result float :=
  '(x, y) <- deprojected_spectrum self vrot resample ;;
  lo <- Np.item (velax self) 0 ;;
  hi <- Np.last_item (velax self) ;;
  let mask := map (fun v => (lo <=? v) && (v <=? hi)) x in
  xm <- Np.mask x mask ;;
  ym <- Np.mask y mask ;;
  _get_gaussian_width xm ym 1e50.

End Ensemble.

(* ================================================================= *)
(** ** What numpy documents of [np.argsort] *)

(** [idxs] sorts [a]: it lists every index once, and reading [a] through it
    gives the values in numpy's order.  Nothing is said of equal values: the
    default [kind] is not a stable sort. *)
Definition argsort_spec (a : list float) (idxs : list nat) : Prop :=
  Permutation idxs (seq 0 (length a)) /\
  StronglySorted (fun i j => Np.le (nth i a nan) (nth j a nan) = true) idxs.

(** What the specification asks of a stored angle array: each angle is at
    most every later one. *)
Definition non_decreasing (a : list float) : Prop :=
  StronglySorted (fun x y => (x <=? y)%float = true) a.

(** The same in numpy's order, where a not-a-number comes last. *)
Definition np_sorted (a : list float) : Prop :=
  StronglySorted (fun x y => Np.le x y = true) a.

(** The number of rows the constructor keeps: those whose sum is positive. *)
Definition count_positive (np_sum : list float -> float)
    (spectra0 : list (list float)) : nat :=
  length (filter (fun row => (0 <? np_sum row)%float) spectra0).

(** The number of rows whose sum is not zero, as the specification counts
    them. *)
Definition count_nonzero (np_sum : list float -> float)
    (spectra0 : list (list float)) : nat :=
  length (filter (fun row => negb (np_sum row =? 0)%float) spectra0).

(** The samples of the stored ensemble: sample [(a, c)] is the shifted
    coordinate [velax[c] - vrot * cos(theta[a])] with the intensity
    [spectra[a][c]] of the same angle and channel. *)
Definition tagged_samples (np_cos : float -> float) (self : ensemble)
    (vrot : float) : list (float * float) :=
  concat (map (fun ts =>
                 combine (map (fun v => (v - vrot * np_cos (fst ts))%float) (velax self))
                         (snd ts))
              (combine (theta self) (spectra self))).

(** The condition of the specification for a prior of 0.0. *)
Definition prior_support (vrot noise lnsigma lnrho vref : float) : bool :=
  ((abs (vrot - vref) / vref <=? 0.2) && (0 <? vrot) && (0 <? noise)
   && ((-15 <? lnsigma) && (lnsigma <? 10))
   && ((0 <=? lnrho) && (lnrho <=? 10)))%float.

(** The tests of [_lnprior], none of which may fire. *)
Definition prior_accepts (vrot noise lnsigma lnrho vref : float) : bool :=
  (negb (0.2 <? abs (vrot - vref) / vref) && negb (vrot <=? 0)
   && negb (noise <=? 0)
   && ((-15 <? lnsigma) && (lnsigma <? 10))
   && ((0 <=? lnrho) && (lnrho <=? 10)))%float.

(** [round(x)] of Python, in which the specification words the number of
    bins: the nearest integer, a tie going to the even one. *)
Definition py_round (x : float) : result Z :=
  t <- int_of_float x ;;
  let frac := abs (x - of_int t) in
  let away := if (x <? 0)%float then (t - 1)%Z else (t + 1)%Z in
  Ok (if (frac <? 0.5)%float then t
      else if (0.5 <? frac)%float then away
      else if Z.even t then t else away).

(** The size-mismatch error of [_order_spectra]. *)
Definition size_mismatch : exn := ValueError "Wrong size in 'vpnts' and 'spnts'.".

(* ================================================================= *)
(** ** Collaborators to run the model on *)

Module Run.

Open Scope float_scope.

(** numpy's comparison of two floats when sorting. *)
Definition np_lt (x y : float) : bool :=
  (x <? y) || (is_nan y && negb (is_nan x)).

(** An insertion sort of the indices that keeps equal values in their
    original order: an index goes after every index it is not smaller than. *)
Fixpoint insert_after (a : list float) (i : nat) (idxs : list nat) : list nat :=
  match idxs with
  | [] => [i]
  | j :: rest =>
      if np_lt (nth i a nan) (nth j a nan) then i :: j :: rest
      else j :: insert_after a i rest
  end.

Definition argsort_stable (a : list float) : list nat :=
  fold_left (fun acc i => insert_after a i acc) (seq 0 (length a)) [].

(** numpy's default kind, 'quicksort': the introsort of numpy's
    [npysort/quicksort.cpp] ([aquicksort]) on the index array [tosort], which
    starts as [0, 1, ..., n-1].  Ranges of more than 17 indices are
    partitioned about the median of three, shorter ones are sorted by
    insertion, and a range met after the depth limit is spent is sorted by
    [aheapsort] ([npysort/heapsort.cpp]).  Positions [pl], [i], [j], [pr]
    stand for the pointers into [tosort]; [fuel] bounds each loop by the
    size of the array.  This is the order of ties where numpy runs this
    code; a build that dispatches to a vectorized sort orders them
    otherwise. *)
Definition rd (tosort : list nat) (p : nat) : nat := nth p tosort 0%nat.

Definition key (v : list float) (tosort : list nat) (p : nat) : float :=
  nth (rd tosort p) v nan.

Definition intp_swap (tosort : list nat) (p q : nat) : list nat :=
  set_nth q (rd tosort p) (set_nth p (rd tosort q) tosort).

(** [do { ++pi; } while (less(v[*pi], vp))]. *)
Fixpoint scan_up (v : list float) (tosort : list nat) (vp : float)
    (i fuel : nat) : nat :=
  match fuel with
  | O => i
  | S fuel' =>
      let i := S i in
      if np_lt (key v tosort i) vp then scan_up v tosort vp i fuel' else i
  end.

(** [do { --pj; } while (less(vp, v[*pj]))]. *)
Fixpoint scan_down (v : list float) (tosort : list nat) (vp : float)
    (j fuel : nat) : nat :=
  match fuel with
  | O => j
  | S fuel' =>
      let j := (j - 1)%nat in
      if np_lt vp (key v tosort j) then scan_down v tosort vp j fuel' else j
  end.

(** The [for (;;)] loop of the partition: the two scans, then a swap unless
    the pointers have met. *)
Fixpoint partition_loop (v : list float) (vp : float) (tosort : list nat)
    (i j fuel : nat) : list nat * nat :=
  match fuel with
  | O => (tosort, i)
  | S fuel' =>
      let i := scan_up v tosort vp i (length tosort) in
      let j := scan_down v tosort vp j (length tosort) in
      if Nat.leb j i then (tosort, i)
      else partition_loop v vp (intp_swap tosort i j) i j fuel'
  end.

(** One partition of [pl .. pr]: the median of three goes to [pr - 1], the
    range is split about it, and it is put back at the meeting point, which
    is returned. *)
Definition partition (v : list float) (tosort : list nat) (pl pr : nat)
    : list nat * nat :=
  let pm := (pl + Nat.div2 (pr - pl))%nat in
  let tosort := if np_lt (key v tosort pm) (key v tosort pl)
                then intp_swap tosort pm pl else tosort in
  let tosort := if np_lt (key v tosort pr) (key v tosort pm)
                then intp_swap tosort pr pm else tosort in
  let tosort := if np_lt (key v tosort pm) (key v tosort pl)
                then intp_swap tosort pm pl else tosort in
  let vp := key v tosort pm in
  let tosort := intp_swap tosort pm (pr - 1) in
  let '(tosort, i) := partition_loop v vp tosort pl (pr - 1) (length tosort) in
  (intp_swap tosort i (pr - 1), i).

(** [while ((pr - pl) > SMALL_QUICKSORT)], with [SMALL_QUICKSORT] 16:
    partition, push the larger side with the depth left, go on with the
    smaller. *)
Fixpoint quick_loop (v : list float) (tosort : list nat) (pl pr : nat)
    (cdepth : Z) (stack : list (nat * nat * Z)) (fuel : nat)
    : list nat * nat * nat * list (nat * nat * Z) :=
  match fuel with
  | O => (tosort, pl, pr, stack)
  | S fuel' =>
      if Nat.ltb 16 (pr - pl) then
        let '(tosort, i) := partition v tosort pl pr in
        let cdepth := (cdepth - 1)%Z in
        if Nat.ltb (i - pl) (pr - i)
        then quick_loop v tosort pl (i - 1) cdepth ((S i, pr, cdepth) :: stack) fuel'
        else quick_loop v tosort (S i) pr cdepth ((pl, (i - 1)%nat, cdepth) :: stack) fuel'
      else (tosort, pl, pr, stack)
  end.

(** [while (pj > pl && less(vp, v[*pk]))  *pj-- = *pk--;]. *)
Fixpoint shift (v : list float) (tosort : list nat) (vp : float)
    (pl j fuel : nat) : list nat * nat :=
  match fuel with
  | O => (tosort, j)
  | S fuel' =>
      if Nat.ltb pl j && np_lt vp (key v tosort (j - 1))
      then shift v (set_nth j (rd tosort (j - 1)) tosort) vp pl (j - 1) fuel'
      else (tosort, j)
  end.

(** The insertion sort of [pl .. pr], [n] indices from [i] on left to
    insert. *)
Fixpoint insertion (v : list float) (tosort : list nat) (pl i n : nat)
    : list nat :=
  match n with
  | O => tosort
  | S n' =>
      let vi := rd tosort i in
      let '(tosort, j) := shift v tosort (nth vi v nan) pl i (length tosort) in
      insertion v (set_nth j vi tosort) pl (S i) n'
  end.

(** [aheapsort] on the [n] indices from position [base] on, which it
    numbers from 1. *)
Definition hrd (tosort : list nat) (base k : nat) : nat :=
  rd tosort (base + k - 1).

Definition hwr (tosort : list nat) (base k x : nat) : list nat :=
  set_nth (base + k - 1) x tosort.

(** [for (i, j; j <= n;) { ... }  a[i] = tmp;]. *)
Fixpoint sift (v : list float) (tosort : list nat) (base tmp i j n fuel : nat)
    : list nat :=
  match fuel with
  | O => hwr tosort base i tmp
  | S fuel' =>
      if Nat.leb j n then
        let j := if Nat.ltb j n
                    && np_lt (nth (hrd tosort base j) v nan)
                             (nth (hrd tosort base (j + 1)) v nan)
                 then (j + 1)%nat else j in
        if np_lt (nth tmp v nan) (nth (hrd tosort base j) v nan)
        then sift v (hwr tosort base i (hrd tosort base j)) base tmp j (j + j) n fuel'
        else hwr tosort base i tmp
      else hwr tosort base i tmp
  end.

(** [for (l = n >> 1; l > 0; --l)]. *)
Fixpoint heapify (v : list float) (tosort : list nat) (base n l : nat)
    : list nat :=
  match l with
  | O => tosort
  | S l' =>
      heapify v (sift v tosort base (hrd tosort base l) l (l + l) n n) base n l'
  end.

(** [for (; n > 1;)]. *)
Fixpoint extract (v : list float) (tosort : list nat) (base n fuel : nat)
    : list nat :=
  match fuel with
  | O => tosort
  | S fuel' =>
      if Nat.ltb 1 n then
        let tmp := hrd tosort base n in
        let tosort := hwr tosort base n (hrd tosort base 1) in
        let n := (n - 1)%nat in
        extract v (sift v tosort base tmp 1 2 n n) base n fuel'
      else tosort
  end.

Definition aheapsort (v : list float) (tosort : list nat) (base n : nat)
    : list nat :=
  extract v (heapify v tosort base n (Nat.div2 n)) base n n.

(** The [while (1)] loop: a range is sorted, then the next one is popped
    from the stack. *)
Fixpoint sort_loop (v : list float) (tosort : list nat) (pl pr : nat)
    (cdepth : Z) (stack : list (nat * nat * Z)) (fuel : nat) : list nat :=
  match fuel with
  | O => tosort
  | S fuel' =>
      let '(tosort, stack) :=
        if Z.ltb cdepth 0 then (aheapsort v tosort pl (pr - pl + 1), stack)
        else
          let '(tosort, pl, pr, stack) :=
            quick_loop v tosort pl pr cdepth stack (length tosort) in
          (insertion v tosort pl (S pl) (pr - pl), stack) in
      match stack with
      | [] => tosort
      | (pl, pr, cdepth) :: stack =>
          sort_loop v tosort pl pr cdepth stack fuel'
      end
  end.

(** The depth limit is twice the position of the highest set bit of the
    size. *)
Definition argsort_quicksort (v : list float) : list nat :=
  let n := length v in
  sort_loop v (seq 0 n) 0 (n - 1) (2 * Z.log2 (Z.of_nat n)) [] (S n).

(** The sum of a short row, left to right. *)
Definition sum_seq (row : list float) : float := fold_left add row 0.

(** [np.cos] at the two angles the examples use: [cos(0.0) = 1.0] and
    [cos(np.pi) = -1.0]. *)
Definition cos_0_pi (x : float) : float := if x =? 0 then 1 else -1.

(** [np.degrees] at the same two angles. *)
Definition degrees_0_pi (x : float) : float := if x =? 0 then 0 else 180.

(** [np.degrees] as numpy computes it, [x * (180 / pi)]. *)
Definition degrees (x : float) : float := x * (180 / pi).

(** [x % 360.] for [0 <= x < 360]. *)
Definition mod_small (x m : float) : float := x.

(** The 30th and 70th percentiles of the axis [[-1, 0, 1]]. *)
Definition percentile_m1_1 (a q : list float) : list float := [-0.4; 0.4].

(** A binning that is never reached in the examples. *)
Definition no_binning (x v : list float) (statistic : string) (bins : Z)
    (range : float * float) : result (list float * list float) :=
  Raise (ValueError "not used").

(** [binned_statistic] asked for the mean in one bin: the mean of the values
    whose coordinate lies in the range, between the two ends of the range.
    It is not asked for more bins in the examples. *)
Definition binning_one_bin (x v : list float) (statistic : string) (bins : Z)
    (range : float * float) : result (list float * list float) :=
  if Z.eqb bins 1 then
    let inside := filter (fun xv => (fst range <=? fst xv) && (fst xv <=? snd range))
                    (combine x v) in
    let total := fold_left (fun acc xv => acc + snd xv) inside 0 in
    Ok ([total / of_int (Z.of_nat (length inside))], [fst range; snd range])
  else Raise (ValueError "not used").

(** A line to fit: the Gaussian of center -1, width 0.5 and peak 3,
    [3 * exp(-((v + 1) / 0.5)**2)], on thirteen channels from -3 to 3. *)
Definition line_velax : list float :=
  [-3; -2.5; -2; -1.5; -1; -0.5; 0; 0.5; 1; 1.5; 2; 2.5; 3].

Definition line_m1 : list float :=
  [3.3760552415777734e-07; 0.0003702294122600387; 0.054946916666202536;
   1.103638323514327; 3; 1.103638323514327; 0.054946916666202536;
   0.0003702294122600387; 3.3760552415777734e-07; 4.166383159489206e-11;
   6.958568490730709e-16; 1.5728656990090393e-21; 4.811432671645914e-28].

Fixpoint same_array (a b : list float) : bool :=
  match a, b with
  | [], [] => true
  | x :: a', y :: b' => (x =? y) && same_array a' b'
  | _, _ => false
  end.

(** The largest entry of a non-empty array without not-a-number. *)
Definition max_seq (a : list float) : result float :=
  match a with
  | [] => Raise (ValueError "zero-size array")
  | x :: a' => Ok (fold_left (fun m y => if m <? y then y else m) a' x)
  end.

(** A trapezoidal integral that is not looked at. *)
Definition trapz_one (y x : list float) : float := 1.

(** A likelihood surface that grows with the log correlation length: the
    handle is that hyperparameter. *)
Definition gp_lnrho (lognoise lnsigma lnrho mean : float) : float := lnrho.
Definition gp_compute_ok (gp : float) (x : list float) : result float := Ok gp.
Definition gp_loglike_lnrho (gp : float) (y : list float) : result float := Ok gp.

(** A minimizer that converges at once: it clips its starting point to the
    bounds and reports success there. *)
Definition clip (b : option float * option float) (x : float) : float :=
  let x := match fst b with Some lo => if x <? lo then lo else x | None => x end in
  match snd b with Some hi => if hi <? x then hi else x | None => x end.

Definition minimize_clip (f : list float -> M float) (x0 : list float)
    (bounds : list (option float * option float)) (kwargs : kwargs_t)
    : M OptimizeResult :=
  let x := map (fun bx => clip (fst bx) (snd bx)) (combine bounds x0) in
  Mem.ret (mkRes x true).

(** Draws that are all one half. *)
Definition randn_half (n : nat) : list float := repeat 0.5 n.

(** A sampler that leaves every walker where it starts, for one step. *)
Definition mcmc_still (nwalkers ndim : nat) (lnprob : list float -> M float)
    (p0 : list (list float)) (steps : Z) : M (list (list (list float))) :=
  Mem.ret (map (fun w => [w]) p0).

(** Percentiles of samples that are all equal to the first one [x]: numpy
    interpolates between two neighbours, here [x + (x - x) * t], which is
    [x] for a number and a not-a-number for an infinity. *)
Definition percentile_const (samples : list (list float)) (q : list float)
    : list (list float) :=
  map (fun t => map (fun x => x + (x - x) * (t / 100)) (hd [] samples)) q.

(** A sampler that validates its starting positions as emcee does when it
    computes their log-probability, raising on an infinite and on a
    not-a-number component, and otherwise leaves every walker where it
    starts, for one step. *)
Definition mcmc_checked (nwalkers ndim : nat) (lnprob : list float -> M float)
    (p0 : list (list float)) (steps : Z) : M (list (list (list float))) :=
  if existsb (existsb is_infinity) p0
  then Mem.raise (ValueError "At least one parameter value was infinite")
  else if existsb (existsb is_nan) p0
  then Mem.raise (ValueError "At least one parameter value was NaN")
  else Mem.ret (map (fun w => [w]) p0).

(** A minimizer that never converges: it hands back its starting point. *)
Definition minimize_fails (f : list float -> M float) (x0 : list float)
    (bounds : list (option float * option float)) (kwargs : kwargs_t)
    : M OptimizeResult :=
  Mem.ret (mkRes x0 false).

(** A fit that raises, as [curve_fit] does on data it refuses. *)
Definition fit_fails (f : float -> list float -> float)
    (x y : list float) (sigma : option (list float)) (p0 : list float)
    : result (list float * list (list float)) :=
  Raise (ValueError "array must not contain infs or NaNs").

(** [curve_fit] on the line above: the fit recovers the Gaussian the line
    is, its center, width and peak given here by the numbers they
    approximate.  On other data it raises. *)
Definition fit_line_m1 (f : float -> list float -> float)
    (x y : list float) (sigma : option (list float)) (p0 : list float)
    : result (list float * list (list float)) :=
  if same_array x line_velax && same_array y line_m1
  then Ok ([-1; 0.5; 3], [[0; 0; 0]; [0; 0; 0]; [0; 0; 0]])
  else fit_fails f x y sigma p0.

(** A [gp.compute] that raises, as celerite does on coordinates it takes
    to be out of order. *)
Definition gp_compute_unsorted (gp : float) (x : list float) : result float :=
  Raise (ValueError "the input coordinates must be sorted").

(** The median of entries that are all equal. *)
Definition median_of_equal (a : list float) : float := hd nan a.

End Run.

(* ================================================================= *)
(** ** Facts about binary64 comparisons and sums *)

Module FloatFacts.

Open Scope float_scope.

Lemma SFcompare_antisym (a b : spec_float) :
  SFcompare b a = option_map CompOpp (SFcompare a b).
Proof.
  destruct a as [sa | sa | | sa ma ea], b as [sb | sb | | sb mb eb];
    simpl; try reflexivity;
    try (destruct sa; reflexivity); try (destruct sb; reflexivity);
    try (destruct sa, sb; reflexivity).
  destruct sa, sb; simpl; try reflexivity;
    rewrite (Z.compare_antisym ea eb);
    destruct (Z.compare ea eb); simpl; try reflexivity;
    change (PosDef.Pos.compare_cont Eq mb ma) with (Pos.compare mb ma);
    change (PosDef.Pos.compare_cont Eq ma mb) with (Pos.compare ma mb);
    rewrite (Pos.compare_antisym ma mb);
    destruct (Pos.compare ma mb); reflexivity.
Qed.

Lemma SFcompare_refl (a : spec_float) :
  a <> S754_nan -> SFcompare a a = Some Eq.
Proof.
  destruct a as [s | s | | s m e]; simpl; intros H;
    try reflexivity; try (destruct s; reflexivity); try congruence.
  destruct s; rewrite Z.compare_refl;
    change (PosDef.Pos.compare_cont Eq m m) with (Pos.compare m m);
    rewrite Pos.compare_refl; reflexivity.
Qed.

Lemma is_nan_spec (x : float) :
  is_nan x = false <-> Prim2SF x <> S754_nan.
Proof.
  unfold is_nan. rewrite eqb_spec. unfold SFeqb. split.
  - intros H E. rewrite E in H. simpl in H. discriminate.
  - intros H. rewrite (SFcompare_refl _ H). reflexivity.
Qed.

Lemma compare_some (x y : float) :
  is_nan x = false -> is_nan y = false ->
  exists c, SFcompare (Prim2SF x) (Prim2SF y) = Some c.
Proof.
  intros Hx Hy. apply is_nan_spec in Hx. apply is_nan_spec in Hy.
  destruct (Prim2SF x) as [s | s | | s m e], (Prim2SF y) as [s' | s' | | s' m' e'];
    simpl; try congruence; eauto.
Qed.

(** On numbers, "not less" is "at least". *)
Lemma negb_ltb (x y : float) :
  is_nan x = false -> is_nan y = false -> negb (x <? y) = (y <=? x).
Proof.
  intros Hx Hy. rewrite ltb_spec, leb_spec. unfold SFltb, SFleb.
  rewrite (SFcompare_antisym (Prim2SF x) (Prim2SF y)).
  destruct (compare_some x y Hx Hy) as [c ->]. destruct c; reflexivity.
Qed.

(** On numbers, "not at most" is "greater". *)
Lemma negb_leb (x y : float) :
  is_nan x = false -> is_nan y = false -> negb (x <=? y) = (y <? x).
Proof.
  intros Hx Hy. rewrite ltb_spec, leb_spec. unfold SFltb, SFleb.
  rewrite (SFcompare_antisym (Prim2SF x) (Prim2SF y)).
  destruct (compare_some x y Hx Hy) as [c ->]. destruct c; reflexivity.
Qed.

(** A finite float is a zero or a finite number of the format. *)
Lemma is_finite_spec (x : float) :
  is_finite x = true ->
  (exists s, Prim2SF x = S754_zero s) \/
  (exists s m e, Prim2SF x = S754_finite s m e).
Proof.
  unfold is_finite. intros H. apply negb_true_iff, orb_false_iff in H.
  destruct H as [Hn Hi]. apply is_nan_spec in Hn.
  unfold is_infinity in Hi. rewrite eqb_spec, abs_spec in Hi.
  destruct (Prim2SF x) as [s | s | | s m e]; eauto.
  - simpl in Hi. vm_compute in Hi. discriminate.
  - congruence.
Qed.

(** Adding a finite value to zero gives an equal value. *)
Lemma zero_plus_finite (x : float) :
  is_finite x = true -> (0 + x =? x) = true.
Proof.
  intros H. rewrite eqb_spec, add_spec.
  change (Prim2SF 0) with (S754_zero false). unfold SFeqb.
  destruct (is_finite_spec x H) as [[s ->] | [s [m [e ->]]]].
  - destruct s; reflexivity.
  - unfold SF64add. simpl SFadd. rewrite SFcompare_refl by discriminate.
    reflexivity.
Qed.

(** Adding a finite value to negative infinity leaves negative infinity. *)
Lemma neg_infinity_plus_finite (x : float) :
  is_finite x = true -> neg_infinity + x = neg_infinity.
Proof.
  intros H. apply Prim2SF_inj. rewrite add_spec.
  change (Prim2SF neg_infinity) with (S754_infinity true).
  destruct (is_finite_spec x H) as [[s ->] | [s [m [e ->]]]]; reflexivity.
Qed.

Lemma SFleb_trans (a b c : spec_float) :
  SFleb a b = true -> SFleb b c = true -> SFleb a c = true.
Proof.
  unfold SFleb.
  destruct a as [sa | sa | | sa ma ea], b as [sb | sb | | sb mb eb],
           c as [sc | sc | | sc mc ec]; simpl;
    try discriminate; try reflexivity;
    try (destruct sa; simpl; try discriminate; try reflexivity);
    try (destruct sb; simpl; try discriminate; try reflexivity);
    try (destruct sc; simpl; try discriminate; try reflexivity).
  all: change (PosDef.Pos.compare_cont Eq ma mb) with (Pos.compare ma mb);
       change (PosDef.Pos.compare_cont Eq mb mc) with (Pos.compare mb mc);
       change (PosDef.Pos.compare_cont Eq ma mc) with (Pos.compare ma mc).
  all: destruct (Z.compare_spec ea eb), (Z.compare_spec eb ec), (Z.compare_spec ea ec);
       try lia; simpl; try discriminate; try reflexivity;
       destruct (Pos.compare_spec ma mb), (Pos.compare_spec mb mc),
                (Pos.compare_spec ma mc);
       try lia; simpl; try discriminate; try reflexivity.
Qed.

Lemma leb_trans (x y z : float) :
  (x <=? y) = true -> (y <=? z) = true -> (x <=? z) = true.
Proof. rewrite !leb_spec. apply SFleb_trans. Qed.

(** Only numbers compare. *)
Lemma leb_numbers (x y : float) :
  (x <=? y) = true -> is_nan x = false /\ is_nan y = false.
Proof.
  rewrite leb_spec. unfold SFleb. intros H.
  split; apply is_nan_spec; intros E; rewrite E in H;
    [|destruct (Prim2SF x)]; simpl in H; discriminate.
Qed.

Lemma ltb_leb (x y : float) : (x <? y) = true -> (x <=? y) = true.
Proof.
  rewrite ltb_spec, leb_spec. unfold SFltb, SFleb.
  destruct (SFcompare (Prim2SF x) (Prim2SF y)) as [[| |]|]; congruence.
Qed.

(** The absolute value of a negative number is positive, and another
    number. *)
Lemma abs_of_negative (x : float) :
  (x <? 0) = true -> (0 <? abs x) = true /\ (abs x =? x) = false.
Proof.
  rewrite !ltb_spec, eqb_spec, abs_spec.
  change (Prim2SF 0) with (S754_zero false).
  destruct (Prim2SF x) as [s|s| |s m e]; try destruct s; simpl;
    try discriminate; intros _; split; reflexivity.
Qed.

End FloatFacts.

(* ================================================================= *)
(** ** The prior takes two values *)

Section Prior.

Open Scope float_scope.

(** What [_lnprior] returns on a 4-vector: 0.0 when none of its five
    rejecting tests fires and negative infinity otherwise. *)
Lemma lnprior_by_tests (vrot noise lnsigma lnrho vref : float) :
  _lnprior [vrot; noise; lnsigma; lnrho] vref
  = Ok (if prior_accepts vrot noise lnsigma lnrho vref then 0 else neg_infinity).
Proof.
  unfold _lnprior, prior_accepts.
  destruct (0.2 <? abs (vrot - vref) / vref); [reflexivity|].
  destruct (vrot <=? 0); [reflexivity|].
  destruct (noise <=? 0); [reflexivity|].
  destruct ((-15 <? lnsigma) && (lnsigma <? 10)); [|reflexivity].
  destruct ((0 <=? lnrho) && (lnrho <=? 10)); reflexivity.
Qed.

(** When the ratio, the velocity and the noise are numbers, no test fires
    exactly under the condition of the specification. *)
Lemma tests_on_numbers (vrot noise lnsigma lnrho vref : float) :
  is_nan (abs (vrot - vref) / vref) = false ->
  is_nan vrot = false -> is_nan noise = false ->
  prior_accepts vrot noise lnsigma lnrho vref
  = prior_support vrot noise lnsigma lnrho vref.
Proof.
  intros Hq Hv Hn. unfold prior_accepts, prior_support.
  rewrite (FloatFacts.negb_ltb 0.2 (abs (vrot - vref) / vref) eq_refl Hq).
  rewrite (FloatFacts.negb_leb vrot 0 Hv eq_refl).
  rewrite (FloatFacts.negb_leb noise 0 Hn eq_refl).
  reflexivity.
Qed.

(** C7: the code against the claim.  For a positive reference velocity and
    a 4-vector whose velocity, noise and ratio |vrot - vref| / vref are
    numbers, [_lnprior] returns 0.0 under the condition of the
    specification and negative infinity otherwise, as claimed.  With a
    not-a-number velocity, or a not-a-number noise, the condition of the
    specification fails and [_lnprior] returns 0.0: the three tests written
    as a rejecting comparison ([> 0.2], [<= 0.0]) let a not-a-number
    through, where the two tests written [not a < x < b], on [lnsigma] and
    [lnrho], reject it. *)
Theorem lnprior_accepts_nan_velocity :
  (forall vrot noise lnsigma lnrho vref,
      (0 <? vref) = true ->
      is_nan (abs (vrot - vref) / vref) = false ->
      is_nan vrot = false -> is_nan noise = false ->
      _lnprior [vrot; noise; lnsigma; lnrho] vref
      = Ok (if prior_support vrot noise lnsigma lnrho vref
            then 0 else neg_infinity)) /\
  prior_support nan 1 0 0 1 = false /\
  _lnprior [nan; 1; 0; 0] 1 = Ok 0 /\
  prior_support 1 nan 0 0 1 = false /\
  _lnprior [1; nan; 0; 0] 1 = Ok 0 /\
  _lnprior [1; 1; nan; 0] 1 = Ok neg_infinity /\
  _lnprior [1; 1; 0; nan] 1 = Ok neg_infinity.
Proof.
  split; [|repeat split].
  intros vrot noise lnsigma lnrho vref _ Hq Hv Hn.
  rewrite lnprior_by_tests, (tests_on_numbers _ _ _ _ _ Hq Hv Hn).
  reflexivity.
Qed.

(** The first part of the theorem at the vector (1, 1, 0, 0) with the
    reference 1, where the prior is 0.0. *)
Lemma lnprior_accepts_nan_velocity_witness :
  _lnprior [1; 1; 0; 0] 1 = Ok 0.
Proof.
  exact (proj1 lnprior_accepts_nan_velocity 1 1 0 0 1
           eq_refl eq_refl eq_refl eq_refl).
Defined.

End Prior.

(* ================================================================= *)
(** ** Facts about indexing *)

Module NpFacts.

Lemma take_map_nth {A} (d : A) (a : list A) (idxs : list nat) (l : list A) :
  Np.take a idxs = Ok l -> l = map (fun i => nth i a d) idxs.
Proof.
  revert l. induction idxs as [|i rest IH]; simpl; intros l H.
  - injection H as <-. reflexivity.
  - unfold Np.item in H. destruct (nth_error a i) as [x|] eqn:Hx; simpl in H;
      [|discriminate].
    destruct (Np.take a rest) as [xs|] eqn:Hr; simpl in H; [|discriminate].
    injection H as <-. rewrite (IH xs eq_refl).
    rewrite (nth_error_nth a i d Hx). reflexivity.
Qed.

Lemma take_length {A} (a : list A) (idxs : list nat) (l : list A) :
  Np.take a idxs = Ok l -> length l = length idxs.
Proof.
  revert l. induction idxs as [|i rest IH]; simpl; intros l H.
  - injection H as <-. reflexivity.
  - destruct (Np.item a i); simpl in H; [|discriminate].
    destruct (Np.take a rest) as [xs|]; simpl in H; [|discriminate].
    injection H as <-. simpl. rewrite (IH xs eq_refl). reflexivity.
Qed.

(** Entries taken through the same indices from two arrays are entries of
    the two arrays at one position. *)
Lemma take_combine {A B} (a : list A) (b : list B) (idxs : list nat) la lb :
  Np.take a idxs = Ok la -> Np.take b idxs = Ok lb ->
  Forall (fun p => In p (combine a b)) (combine la lb).
Proof.
  revert la lb. induction idxs as [|i rest IH]; simpl; intros la lb Ha Hb.
  - injection Ha as <-. constructor.
  - unfold Np.item in Ha, Hb.
    destruct (nth_error a i) as [x|] eqn:Hx; simpl in Ha; [|discriminate].
    destruct (nth_error b i) as [y|] eqn:Hy; simpl in Hb; [|discriminate].
    destruct (Np.take a rest) as [xs|]; simpl in Ha; [|discriminate].
    destruct (Np.take b rest) as [ys|]; simpl in Hb; [|discriminate].
    injection Ha as <-. injection Hb as <-. simpl. constructor.
    + clear IH. revert b i Hx Hy.
      induction a as [|a0 a' IHa]; intros b i Hx Hy; destruct i; simpl in Hx;
        try discriminate; destruct b as [|b0 b']; simpl in Hy; try discriminate.
      * injection Hx as <-. injection Hy as <-. left. reflexivity.
      * right. exact (IHa b' i Hx Hy).
    + exact (IH xs ys eq_refl eq_refl).
Qed.

Lemma select_length {A B} (f : B -> bool) (l : list B) (a : list A) :
  length a = length l ->
  length (Np.select a (map f l)) = length (filter f l).
Proof.
  revert a. induction l as [|y l IH]; intros [|x a] H; simpl in *;
    try reflexivity; try discriminate.
  injection H as H. destruct (f y); simpl; rewrite (IH a H); reflexivity.
Qed.

Lemma select_Forall {A} (P : A -> Prop) (a : list A) (m : list bool) :
  Forall P a -> Forall P (Np.select a m).
Proof.
  intros H. revert m. induction H as [|x a Hx Ha IH]; intros [|b m]; simpl;
    try constructor.
  destruct b; [constructor; [exact Hx | apply IH] | apply IH].
Qed.

Lemma select_sorted {A} (R : A -> A -> Prop) (a : list A) (m : list bool) :
  StronglySorted R a -> StronglySorted R (Np.select a m).
Proof.
  intros H. revert m. induction H as [|x a Ha IH Hx]; intros [|b m]; simpl;
    try constructor.
  destruct b; [constructor; [apply IH | apply select_Forall; exact Hx] | apply IH].
Qed.

Lemma select_combine {A B} (a : list A) (b : list B) (m : list bool) :
  combine (Np.select a m) (Np.select b m) = Np.select (combine a b) m.
Proof.
  revert b m. induction a as [|x a IH]; intros b m.
  - reflexivity.
  - destruct b as [|y b].
    + simpl. apply combine_nil.
    + destruct m as [|c m]; simpl; [reflexivity|].
      destruct c; simpl; rewrite IH; reflexivity.
Qed.

Lemma select_incl {A} (a : list A) (m : list bool) (x : A) :
  In x (Np.select a m) -> In x a.
Proof.
  revert m. induction a as [|y a IH]; intros [|b m]; simpl; try tauto.
  destruct b; simpl.
  - intros [H|H]; [left; exact H | right; exact (IH m H)].
  - intros H. right. exact (IH m H).
Qed.

Lemma sorted_map {A B} (R : B -> B -> Prop) (f : A -> B) (l : list A) :
  StronglySorted (fun i j => R (f i) (f j)) l -> StronglySorted R (map f l).
Proof.
  induction 1 as [|x l Hl IH Hx]; simpl; constructor.
  - exact IH.
  - apply Forall_map. exact Hx.
Qed.

Lemma mapM_length {A B} (f : A -> result B) (xs : list A) (ys : list B) :
  mapM f xs = Ok ys -> length ys = length xs.
Proof.
  revert ys. induction xs as [|x xs IH]; simpl; intros ys H.
  - injection H as <-. reflexivity.
  - destruct (f x); simpl in H; [|discriminate].
    destruct (mapM f xs) as [zs|]; simpl in H; [|discriminate].
    injection H as <-. simpl. rewrite (IH zs eq_refl). reflexivity.
Qed.

Lemma filter_length_lt {A} (f : A -> bool) (l : list A) :
  Exists (fun x => f x = false) l -> (length (filter f l) < length l)%nat.
Proof.
  induction 1 as [x l Hx | x l Hl IH]; simpl.
  - rewrite Hx. pose proof (filter_length_le f l). lia.
  - destruct (f x); simpl; lia.
Qed.

Lemma concat_length_const {A} (n : nat) (rows : list (list A)) :
  Forall (fun row => length row = n) rows ->
  length (concat rows) = (length rows * n)%nat.
Proof.
  induction 1 as [|row rows Hr _ IH]; simpl.
  - reflexivity.
  - rewrite length_app, Hr, IH. reflexivity.
Qed.

Lemma take_Forall {A} (P : A -> Prop) (a : list A) (idxs : list nat) (l : list A) :
  Np.take a idxs = Ok l -> Forall P a -> Forall P l.
Proof.
  intros H Ha. revert l H. induction idxs as [|i rest IH]; simpl; intros l H.
  - injection H as <-. constructor.
  - unfold Np.item in H. destruct (nth_error a i) as [x|] eqn:Hx; simpl in H;
      [|discriminate].
    destruct (Np.take a rest) as [xs|]; simpl in H; [|discriminate].
    injection H as <-. constructor; [|exact (IH xs eq_refl)].
    rewrite Forall_forall in Ha. exact (Ha x (nth_error_In a i Hx)).
Qed.

Lemma argmax_go_lt (mp : float) (best i : nat) (a : list float) :
  (best < i)%nat -> (Np.argmax_go mp best i a < i + length a)%nat.
Proof.
  revert mp best i. induction a as [|x a IH]; intros mp best i H; simpl.
  - lia.
  - destruct (negb (x <=? mp)%float).
    + destruct (Np.isnan x); [lia|].
      specialize (IH x i (S i) (Nat.lt_succ_diag_r i)). lia.
    + specialize (IH mp best (S i) (Nat.lt_lt_succ_r _ _ H)). lia.
Qed.

(** The index [np.argmax] returns is an index of the array. *)
Lemma argmax_lt (a : list float) (i : nat) :
  Np.argmax a = Ok i -> (i < length a)%nat.
Proof.
  destruct a as [|x a]; simpl; [discriminate|].
  intros H. injection H as <-. destruct (Np.isnan x); [lia|].
  pose proof (argmax_go_lt x 0 1 a Nat.lt_0_1). lia.
Qed.

(** Reading an array through every index once gives its values in
    another order. *)
Lemma map_nth_seq {A} (d : A) (l : list A) :
  map (fun i => nth i l d) (seq 0 (length l)) = l.
Proof.
  apply (nth_ext _ _ d d).
  - rewrite length_map, length_seq. reflexivity.
  - intros n Hn. rewrite length_map, length_seq in Hn.
    rewrite (nth_indep _ d (nth 0 l d)) by (rewrite length_map, length_seq; exact Hn).
    rewrite (map_nth (fun i => nth i l d) (seq 0 (length l)) 0%nat n).
    rewrite seq_nth by exact Hn. reflexivity.
Qed.

Lemma take_all {A} (d : A) (a : list A) (idxs : list nat) :
  Permutation idxs (seq 0 (length a)) ->
  Np.take a idxs = Ok (map (fun i => nth i a d) idxs) /\
  Permutation (map (fun i => nth i a d) idxs) a.
Proof.
  intros Hp. split.
  - assert (Hin : Forall (fun i => (i < length a)%nat) idxs).
    { apply Forall_forall. intros i Hi.
      apply (Permutation_in _ Hp), in_seq in Hi. lia. }
    clear Hp. induction Hin as [|i rest Hi _ IH]; simpl; [reflexivity|].
    unfold Np.item. destruct (nth_error a i) as [x|] eqn:Hx.
    + simpl. rewrite IH. simpl. rewrite (nth_error_nth a i d Hx). reflexivity.
    + apply nth_error_None in Hx. lia.
  - eapply perm_trans; [apply Permutation_map; exact Hp|].
    rewrite map_nth_seq. apply Permutation_refl.
Qed.

Lemma combine_app_same {A B} (l1 l2 : list A) (m1 m2 : list B) :
  length l1 = length m1 ->
  combine (l1 ++ l2) (m1 ++ m2) = combine l1 m1 ++ combine l2 m2.
Proof.
  revert m1. induction l1 as [|x l1 IH]; intros [|y m1] H; simpl in *;
    try discriminate; [reflexivity|].
  injection H as H. rewrite (IH m1 H). reflexivity.
Qed.

Lemma combine_map_nth {A B} (da : A) (db : B) (a : list A) (b : list B)
    (idxs : list nat) :
  length a = length b ->
  combine (map (fun i => nth i a da) idxs) (map (fun i => nth i b db) idxs)
  = map (fun i => nth i (combine a b) (da, db)) idxs.
Proof.
  intros H. induction idxs as [|i rest IH]; simpl; [reflexivity|].
  rewrite IH, (combine_nth a b i da db H). reflexivity.
Qed.

Lemma combine_map_pair {A B C} (f : C -> A) (g : C -> B) (l : list C) :
  combine (map f l) (map g l) = map (fun i => (f i, g i)) l.
Proof.
  induction l as [|i l IH]; simpl; [reflexivity|]. rewrite IH. reflexivity.
Qed.

End NpFacts.

(* ================================================================= *)
(** ** The stable index sort meets what numpy documents of [np.argsort] *)

Module SortFacts.

Lemma le_trans (x y z : float) :
  Np.le x y = true -> Np.le y z = true -> Np.le x z = true.
Proof.
  unfold Np.le. intros Hxy Hyz.
  destruct (is_nan z); [apply orb_true_r|].
  rewrite orb_false_r in *.
  destruct (FloatFacts.leb_numbers _ _ Hyz) as [Hy _].
  rewrite Hy, orb_false_r in Hxy.
  exact (FloatFacts.leb_trans _ _ _ Hxy Hyz).
Qed.

Lemma lt_le (x y : float) : Run.np_lt x y = true -> Np.le x y = true.
Proof.
  unfold Run.np_lt, Np.le. intros H. apply orb_true_iff in H.
  destruct H as [H|H].
  - rewrite (FloatFacts.ltb_leb _ _ H). reflexivity.
  - apply andb_true_iff in H. destruct H as [-> _]. apply orb_true_r.
Qed.

Lemma not_lt_le (x y : float) : Run.np_lt x y = false -> Np.le y x = true.
Proof.
  unfold Run.np_lt, Np.le. intros H. apply orb_false_iff in H.
  destruct H as [Hlt Hn].
  destruct (is_nan x) eqn:Hx; [apply orb_true_r|].
  rewrite andb_true_r in Hn.
  rewrite <- (FloatFacts.negb_ltb x y Hx Hn), Hlt. reflexivity.
Qed.

Section Sorts.

Variable a : list float.

Let R (i j : nat) : Prop := Np.le (nth i a nan) (nth j a nan) = true.

Lemma insert_after_perm (i : nat) (idxs : list nat) :
  Permutation (Run.insert_after a i idxs) (i :: idxs).
Proof.
  induction idxs as [|j rest IH]; simpl.
  - apply Permutation_refl.
  - destruct (Run.np_lt (nth i a nan) (nth j a nan)).
    + apply Permutation_refl.
    + eapply perm_trans; [apply perm_skip; exact IH | apply perm_swap].
Qed.

Lemma insert_after_sorted (i : nat) (idxs : list nat) :
  StronglySorted R idxs -> StronglySorted R (Run.insert_after a i idxs).
Proof.
  induction 1 as [|j rest Hs IH Hj]; simpl.
  - repeat constructor.
  - destruct (Run.np_lt (nth i a nan) (nth j a nan)) eqn:Hlt.
    + apply lt_le in Hlt. constructor; [constructor; assumption|].
      constructor; [exact Hlt|].
      eapply Forall_impl; [|exact Hj]. intros k Hk. exact (le_trans _ _ _ Hlt Hk).
    + apply not_lt_le in Hlt. constructor; [exact IH|].
      apply (Permutation_Forall (Permutation_sym (insert_after_perm i rest))).
      constructor; assumption.
Qed.

(** Inserting the indices one by one, by a rule that keeps the list a
    sorted permutation, sorts them. *)
Lemma fold_insert (ins : list float -> nat -> list nat -> list nat) :
  (forall i idxs, Permutation (ins a i idxs) (i :: idxs)) ->
  (forall i idxs, StronglySorted R idxs -> StronglySorted R (ins a i idxs)) ->
  forall todo acc,
    StronglySorted R acc ->
    Permutation (fold_left (fun acc i => ins a i acc) todo acc) (todo ++ acc) /\
    StronglySorted R (fold_left (fun acc i => ins a i acc) todo acc).
Proof.
  intros Hperm Hsort. induction todo as [|i todo IH]; intros acc Hacc; simpl.
  - split; [apply Permutation_refl | exact Hacc].
  - destruct (IH (ins a i acc) (Hsort i acc Hacc)) as [Hp Hs]. split; [|exact Hs].
    eapply perm_trans; [exact Hp|].
    eapply perm_trans; [apply Permutation_app_head; apply Hperm|].
    apply Permutation_sym, Permutation_middle.
Qed.

Lemma argsort_stable_spec : argsort_spec a (Run.argsort_stable a).
Proof.
  destruct (fold_insert Run.insert_after insert_after_perm insert_after_sorted
              (seq 0 (length a)) [] (SSorted_nil R)) as [Hp Hs].
  rewrite app_nil_r in Hp. split; assumption.
Qed.

End Sorts.

End SortFacts.

(* ================================================================= *)
(** ** The constructor *)

Section Construction.

Open Scope float_scope.

Variable np_argsort : list float -> list nat.
Variable np_sum : list float -> float.
Variable np_degrees : float -> float.
Variable np_mod : float -> float -> float.
Variable np_percentile : list float -> list float -> list float.

Local Notation init :=
  (__init__ np_argsort np_sum np_degrees np_mod np_percentile).

(** The row test of the constructor, on the rows of the argument. *)
Local Notation keep sp0 := (map (fun row => 0 <? np_sum row) sp0).

(** What a successful construction stored, stage by stage: [th1] and [sp1]
    are the angles and spectra after the sorting stage. *)
Lemma init_inv sp0 th0 vx sw re so e :
  init sp0 th0 vx sw re so = Ok e ->
  exists th1 sp1,
    (if so then Np.take sp0 (np_argsort th0) = Ok sp1 /\
                Np.take th0 (np_argsort th0) = Ok th1
     else th1 = th0 /\ sp1 = sp0) /\
    (if re then length th1 = length sp0 /\ length sp1 = length sp0 /\
                theta e = Np.select th1 (keep sp0) /\
                spectra e = Np.select sp1 (keep sp0)
     else theta e = th1 /\ spectra e = sp1) /\
    spectra_flat e = Np.flatten sp0 /\ velax e = vx /\
    (1 <= length (theta e))%nat /\ (2 <= length vx)%nat.
Proof.
  unfold __init__. intros H.
  set (stage1 := if so then _ else _) in H.
  destruct stage1 as [[th1 sp1]|] eqn:H1; simpl in H; [|discriminate].
  set (stage2 := if re then _ else _) in H.
  destruct stage2 as [[th2 sp2]|] eqn:H2; simpl in H; [|discriminate].
  destruct (Nat.ltb (length th2) 1) eqn:Hlen; [discriminate|].
  apply Nat.ltb_ge in Hlen.
  destruct vx as [|v0 [|v1 vx']]; simpl in H; try discriminate.
  destruct (Np.last_item (v0 :: v1 :: vx')); simpl in H; [|discriminate].
  injection H as <-. simpl.
  exists th1, sp1. repeat split; try assumption; try (simpl; lia).
  - subst stage1. destruct so.
    + destruct (Np.take sp0 (np_argsort th0)) as [sp|]; simpl in H1; [|discriminate].
      destruct (Np.take th0 (np_argsort th0)) as [th|]; simpl in H1; [|discriminate].
      injection H1 as <- <-. split; reflexivity.
    + injection H1 as <- <-. split; reflexivity.
  - subst stage2. destruct re.
    + unfold Np.mask in H2. rewrite !length_map in H2.
      destruct (Nat.eqb (length th1) (length sp0)) eqn:E1; simpl in H2; [|discriminate].
      destruct (Nat.eqb (length sp1) (length sp0)) eqn:E2; simpl in H2; [|discriminate].
      apply Nat.eqb_eq in E1. apply Nat.eqb_eq in E2.
      injection H2 as <- <-. repeat split; assumption.
    + injection H2 as <- <-. split; reflexivity.
Qed.

(** With the sort on and [np.argsort] doing what numpy documents, the
    stored angles are in numpy's order. *)
Lemma stored_theta_sorted sp0 th0 vx sw re e :
  init sp0 th0 vx sw re true = Ok e ->
  argsort_spec th0 (np_argsort th0) ->
  np_sorted (theta e).
Proof.
  intros H [_ Hs]. destruct (init_inv _ _ _ _ _ _ _ H) as (th1 & sp1 & [_ Ht] & H2 & _).
  rewrite (NpFacts.take_map_nth nan _ _ _ Ht) in H2.
  assert (Hs1 : np_sorted (map (fun i => nth i th0 nan) (np_argsort th0))).
  { apply NpFacts.sorted_map. exact Hs. }
  destruct re.
  - destruct H2 as (_ & _ & -> & _). apply NpFacts.select_sorted. exact Hs1.
  - destruct H2 as [-> _]. exact Hs1.
Qed.

(** Without a not-a-number, numpy's order is the usual one. *)
Lemma np_sorted_non_decreasing (a : list float) :
  np_sorted a -> Forall (fun t => is_nan t = false) a -> non_decreasing a.
Proof.
  unfold np_sorted, non_decreasing.
  induction 1 as [|x l Hl IH Hx]; intros Hn; constructor.
  - apply IH. inversion Hn; assumption.
  - inversion Hn as [|? ? _ Hn']; subst.
    rewrite Forall_forall in *. intros y Hy.
    specialize (Hx y Hy). unfold Np.le in Hx. rewrite (Hn' y Hy) in Hx.
    rewrite orb_false_r in Hx. exact Hx.
Qed.

(** Every stored entry, an angle with its spectrum, is an entry of the
    input. *)
Lemma stored_entries_from_input sp0 th0 vx sw re so e :
  init sp0 th0 vx sw re so = Ok e ->
  Forall (fun p => In p (combine th0 sp0)) (combine (theta e) (spectra e)).
Proof.
  intros H. destruct (init_inv _ _ _ _ _ _ _ H) as (th1 & sp1 & H1 & H2 & _).
  assert (Hin : Forall (fun p => In p (combine th0 sp0)) (combine th1 sp1)).
  { destruct so.
    - destruct H1 as [Hs Ht]. exact (NpFacts.take_combine _ _ _ _ _ Ht Hs).
    - destruct H1 as [-> ->]. apply Forall_forall. auto. }
  destruct re.
  - destruct H2 as (_ & _ & -> & ->). rewrite NpFacts.select_combine.
    apply NpFacts.select_Forall. exact Hin.
  - destruct H2 as [-> ->]. exact Hin.
Qed.

(** C9, as amended.  For every input the constructor accepts with its
    default options, and [np.argsort] doing what numpy documents: the stored
    angles are in numpy's sort order, which is non-decreasing order when
    no stored angle is a not-a-number; there are as many stored angles as
    stored spectra; and that number is the number of rows of the input whose
    sum is greater than 0.0. *)
Theorem stored_angles_sorted_and_counted sp0 th0 vx e :
  init sp0 th0 vx true true true = Ok e ->
  argsort_spec th0 (np_argsort th0) ->
  np_sorted (theta e) /\
  (Forall (fun t => is_nan t = false) (theta e) -> non_decreasing (theta e)) /\
  length (theta e) = length (spectra e) /\
  length (theta e) = count_positive np_sum sp0.
Proof.
  intros H Hspec.
  pose proof (stored_theta_sorted _ _ _ _ _ _ H Hspec) as Hs.
  destruct (init_inv _ _ _ _ _ _ _ H) as (th1 & sp1 & _ & (L1 & L2 & Ht & Hsp) & _).
  repeat split.
  - exact Hs.
  - apply np_sorted_non_decreasing. exact Hs.
  - rewrite Ht, Hsp, !NpFacts.select_length by assumption. reflexivity.
  - rewrite Ht, NpFacts.select_length by assumption. reflexivity.
Qed.


End Construction.

(* ================================================================= *)
(** ** Deprojection of a constructed ensemble *)

Section Deprojection.

Open Scope float_scope.

Variable np_argsort : list float -> list nat.
Variable np_sum : list float -> float.
Variable np_cos : float -> float.
Variable np_exp : float -> float.
Variable np_power : float -> float -> float.
Variable np_degrees : float -> float.
Variable np_mod : float -> float -> float.
Variable np_percentile : list float -> list float -> list float.
Variable np_median : list float -> float.
Variable np_max : list float -> result float.
Variable np_trapz : list float -> list float -> float.
Variable binned_statistic :
  list float -> list float -> string -> Z -> float * float ->
  result (list float * list float).
Variable curve_fit :
  (float -> list float -> float) -> list float -> list float ->
  option (list float) -> list float ->
  result (list float * list (list float)).
Variable quadratic : list float -> float -> float -> result float.

Local Notation init :=
  (__init__ np_argsort np_sum np_degrees np_mod np_percentile).
Local Notation deproj :=
  (deprojected_spectrum np_argsort np_cos binned_statistic).
Local Notation peaks :=
  (peak_velocities np_exp np_power np_max np_trapz curve_fit quadratic).
Local Notation deproj_max :=
  (deprojected_spectrum_maximum np_argsort np_exp np_power np_median np_max
     np_trapz binned_statistic curve_fit quadratic).

Lemma order_size_mismatch (e : ensemble) (vpnts : list float) :
  length (spectra_flat e) <> length vpnts ->
  _order_spectra np_argsort e vpnts None = Raise size_mismatch.
Proof.
  intros H. unfold _order_spectra. apply Nat.eqb_neq in H. rewrite H.
  reflexivity.
Qed.

(** One shifted coordinate per stored angle and channel. *)
Lemma shifted_axes_size (e : ensemble) (vrot : float) :
  length (Np.flatten (shifted_axes np_cos e vrot))
  = (length (theta e) * length (velax e))%nat.
Proof.
  unfold Np.flatten, shifted_axes.
  rewrite (NpFacts.concat_length_const (length (velax e))).
  - rewrite length_map. reflexivity.
  - apply Forall_map, Forall_forall. intros t _. apply length_map.
Qed.

(** One peak velocity per stored spectrum. *)
Lemma peak_velocities_size (e : ensemble) (method : string) vmax :
  peaks e method = Ok vmax -> length vmax = length (spectra e).
Proof.
  unfold peak_velocities.
  destruct (String.eqb (lower method) "max").
  - destruct (mapM Np.argmax (spectra e)) as [idxs|] eqn:Hm; simpl; [|discriminate].
    intros H. rewrite (NpFacts.take_length _ _ _ H).
    exact (NpFacts.mapM_length _ _ _ Hm).
  - destruct (String.eqb (lower method) "quadratic").
    + apply NpFacts.mapM_length.
    + destruct (String.eqb (lower method) "gaussian").
      * apply NpFacts.mapM_length.
      * discriminate.
Qed.

(** Flattening the coordinates and the intensities row by row pairs each
    coordinate with the intensity of its own row and column. *)
Lemma combine_flat_rows (f : float -> list float) (n : nat)
    (th : list float) (sp : list (list float)) :
  (forall t, length (f t) = n) ->
  Forall (fun row => length row = n) sp ->
  combine (concat (map f th)) (concat sp)
  = concat (map (fun ts => combine (f (fst ts)) (snd ts)) (combine th sp)).
Proof.
  intros Hf Hsp. revert th. induction Hsp as [|row sp Hrow _ IH]; intros th.
  - destruct th; simpl; [reflexivity|]. rewrite combine_nil. reflexivity.
  - destruct th as [|t th]; simpl; [reflexivity|].
    rewrite NpFacts.combine_app_same by (rewrite Hf, Hrow; reflexivity).
    rewrite IH. reflexivity.
Qed.

(** What [deprojected_spectrum] is written for: when the cached flat
    intensities are those of the stored spectra, the merged cloud is made
    of the samples of the stored ensemble, each coordinate with the
    intensity of its own angle and channel. *)
Lemma merged_cloud_of_stored_flat (e : ensemble) (vrot : float) :
  spectra_flat e = Np.flatten (spectra e) ->
  length (theta e) = length (spectra e) ->
  Forall (fun row => length row = length (velax e)) (spectra e) ->
  argsort_spec (Np.flatten (shifted_axes np_cos e vrot))
    (np_argsort (Np.flatten (shifted_axes np_cos e vrot))) ->
  exists x y,
    deproj e vrot (RBool false) = Ok (x, y) /\
    Permutation (combine x y) (tagged_samples np_cos e vrot).
Proof.
  intros Hflat Hts Hrect [Hperm _].
  set (vp := Np.flatten (shifted_axes np_cos e vrot)) in *.
  set (idxs := np_argsort vp) in *.
  assert (Hlen : length (spectra_flat e) = length vp).
  { subst vp. rewrite shifted_axes_size, Hflat. unfold Np.flatten.
    rewrite (NpFacts.concat_length_const (length (velax e))) by exact Hrect.
    rewrite Hts. reflexivity. }
  destruct (NpFacts.take_all nan vp idxs Hperm) as [Hv _].
  assert (Hperm' : Permutation idxs (seq 0 (length (spectra_flat e))))
    by (rewrite Hlen; exact Hperm).
  destruct (NpFacts.take_all nan (spectra_flat e) idxs Hperm') as [Hs _].
  exists (map (fun i => nth i vp nan) idxs),
         (map (fun i => nth i (spectra_flat e) nan) idxs).
  split.
  - unfold deprojected_spectrum, _order_spectra. fold vp. fold idxs.
    rewrite Hlen, Nat.eqb_refl. simpl negb. cbv iota.
    rewrite Hv. simpl Py.bind. rewrite Hs. reflexivity.
  - rewrite (NpFacts.combine_map_nth nan nan vp (spectra_flat e) idxs (eq_sym Hlen)).
    assert (Hc : Permutation idxs (seq 0 (length (combine vp (spectra_flat e))))).
    { rewrite length_combine, Hlen, Nat.min_id. exact Hperm. }
    destruct (NpFacts.take_all (nan, nan) (combine vp (spectra_flat e)) idxs Hc)
      as [_ Hp].
    eapply perm_trans; [exact Hp|].
    subst vp. rewrite Hflat. unfold Np.flatten, shifted_axes, tagged_samples.
    rewrite (combine_flat_rows
               (fun t => map (fun v => v - vrot * np_cos t) (velax e))
               (length (velax e)) (theta e) (spectra e)
               (fun t => length_map _ _) Hrect).
    apply Permutation_refl.
Qed.

(** On rows as long as the velocity axis, the method 'max' finds a peak
    velocity for every stored spectrum. *)
Lemma peak_velocities_max (e : ensemble) (method : string) :
  lower method = "max"%string ->
  (1 <= length (velax e))%nat ->
  Forall (fun row => length row = length (velax e)) (spectra e) ->
  exists vmax, peaks e method = Ok vmax.
Proof.
  intros Hm Hc Hrect. unfold peak_velocities. rewrite Hm. simpl String.eqb. cbv iota.
  assert (Hidx : exists idxs,
             mapM Np.argmax (spectra e) = Ok idxs /\
             Forall (fun i => (i < length (velax e))%nat) idxs).
  { induction Hrect as [|row rows Hrow _ IH]; simpl.
    - exists []. split; [reflexivity | constructor].
    - destruct IH as (idxs & -> & Hi).
      destruct (Np.argmax row) as [i|] eqn:Ha.
      + exists (i :: idxs). split; [reflexivity|]. constructor; [|exact Hi].
        rewrite <- Hrow. exact (NpFacts.argmax_lt _ _ Ha).
      + destruct row; simpl in *; [lia | discriminate]. }
  destruct Hidx as (idxs & -> & Hi). simpl Py.bind.
  clear Hrect. induction Hi as [|i rest Hlt _ IH]; simpl.
  - eexists. reflexivity.
  - destruct IH as [vmax ->]. unfold Np.item.
    destruct (nth_error (velax e) i) eqn:Hx.
    + eexists. reflexivity.
    + apply nth_error_None in Hx. lia.
Qed.

(** The rows the constructor stores are rows of its input. *)
Lemma stored_rows_from_input (P : list float -> Prop) sp0 th0 vx sw re so e :
  init sp0 th0 vx sw re so = Ok e -> Forall P sp0 -> Forall P (spectra e).
Proof.
  intros H Hp.
  destruct (init_inv _ _ _ _ _ _ _ _ _ _ _ _ H) as (th1 & sp1 & H1 & H2 & _).
  assert (Hp1 : Forall P sp1).
  { destruct so.
    - destruct H1 as [Hs _]. exact (NpFacts.take_Forall P _ _ _ Hs Hp).
    - destruct H1 as [_ ->]. exact Hp. }
  destruct re.
  - destruct H2 as (_ & _ & _ & ->). apply NpFacts.select_Forall. exact Hp1.
  - destruct H2 as [_ ->]. exact Hp1.
Qed.

(** The sizes behind the mismatch: the cached flat intensities have one
    entry per input row and channel, the ensemble keeps fewer rows. *)
Lemma removed_row_sizes sp0 th0 vx sw so e :
  init sp0 th0 vx sw true so = Ok e ->
  Forall (fun row => length row = length vx) sp0 ->
  Exists (fun row => (0 <? np_sum row) = false) sp0 ->
  length (spectra_flat e) = (length sp0 * length vx)%nat /\
  length (theta e) = length (spectra e) /\
  (length (theta e) < length sp0)%nat /\
  velax e = vx /\ (2 <= length vx)%nat.
Proof.
  intros H Hrect Hrem.
  destruct (init_inv _ _ _ _ _ _ _ _ _ _ _ _ H)
    as (th1 & sp1 & _ & (L1 & L2 & Ht & Hsp) & Hflat & Hvx & _ & Hc).
  repeat split; try assumption.
  - rewrite Hflat. apply NpFacts.concat_length_const. exact Hrect.
  - rewrite Ht, Hsp, !NpFacts.select_length by assumption. reflexivity.
  - rewrite Ht, NpFacts.select_length by assumption.
    apply NpFacts.filter_length_lt. exact Hrem.
Qed.

(** C2, as amended.  When the constructor, with [remove_empty] on, is given
    a rectangular array on the channels of the velocity axis and one of its
    rows has a sum that is not positive, every call of
    [deprojected_spectrum] raises the size-mismatch error of
    [_order_spectra], and no call of [deprojected_spectrum_maximum]
    returns: it raises the error of [peak_velocities] when that raises,
    and the size-mismatch error whenever the peak velocities are computed,
    as they always are with the method 'max'. *)
Theorem removed_spectrum_breaks_deprojection sp0 th0 vx sw so e :
  init sp0 th0 vx sw true so = Ok e ->
  Forall (fun row => length row = length vx) sp0 ->
  Exists (fun row => (0 <? np_sum row) = false) sp0 ->
  (forall vrot resample, deproj e vrot resample = Raise size_mismatch) /\
  (forall resample method,
      deproj_max e resample method
      = match peaks e method with
        | Ok _ => Raise size_mismatch
        | Raise err => Raise err
        end) /\
  (forall resample method,
      lower method = "max"%string ->
      deproj_max e resample method = Raise size_mismatch).
Proof.
  intros H Hrect Hrem.
  destruct (removed_row_sizes _ _ _ _ _ _ H Hrect Hrem)
    as (Hflat & Hts & Hlt & Hvx & Hc).
  assert (Hmax : forall resample method,
             deproj_max e resample method
             = match peaks e method with
               | Ok _ => Raise size_mismatch
               | Raise err => Raise err
               end).
  { intros resample method. unfold deprojected_spectrum_maximum.
    destruct (peaks e method) as [vmax|err] eqn:Hp; [|reflexivity].
    simpl Py.bind.
    rewrite order_size_mismatch; [reflexivity|].
    unfold Np.flatten.
    rewrite (NpFacts.concat_length_const (length (velax e))).
    + rewrite !length_map, (peak_velocities_size _ _ _ Hp), <- Hts, Hflat, Hvx. nia.
    + apply Forall_map, Forall_forall. intros t _. apply length_map. }
  split; [|split; [exact Hmax|]].
  - intros vrot resample. unfold deprojected_spectrum.
    rewrite order_size_mismatch; [reflexivity|].
    rewrite shifted_axes_size, Hflat, Hvx. nia.
  - intros resample method Hm.
    destruct (peak_velocities_max e method Hm) as [vmax Hp].
    + rewrite Hvx. lia.
    + rewrite Hvx. exact (stored_rows_from_input _ _ _ _ _ _ _ _ H Hrect).
    + rewrite Hmax, Hp. reflexivity.
Qed.

(** The padded range the constructor stores: half a channel beyond the
    first and the last velocity, a channel being the first difference. *)
Lemma init_velax_range sp0 th0 vx sw re so e :
  init sp0 th0 vx sw re so = Ok e ->
  exists v0 v1 rest,
    vx = v0 :: v1 :: rest /\
    channel e = v1 - v0 /\
    velax_range e
    = (v0 - 0.5 * (v1 - v0), last vx nan + 0.5 * (v1 - v0)).
Proof.
  unfold __init__. intros H.
  set (stage1 := if so then _ else _) in H.
  destruct stage1 as [[th1 sp1]|]; simpl in H; [|discriminate].
  set (stage2 := if re then _ else _) in H.
  destruct stage2 as [[th2 sp2]|]; simpl in H; [|discriminate].
  destruct (Nat.ltb (length th2) 1); [discriminate|].
  destruct vx as [|v0 [|v1 rest]]; simpl in H; try discriminate.
  exists v0, v1, rest. split; [reflexivity|].
  unfold Np.last_item in H.
  pose proof (rev_involutive (v0 :: v1 :: rest)) as Hrev.
  destruct (rev (v0 :: v1 :: rest)) as [|vl tl'] eqn:Hr; simpl in H; [discriminate|].
  injection H as <-. simpl channel. simpl velax_range. split; [reflexivity|].
  rewrite <- Hrev. simpl rev. rewrite last_last. reflexivity.
Qed.

Lemma midpoints_cons (a b : float) (l : list float) :
  midpoints (a :: b :: l) = (b + a) / 2 :: midpoints (b :: l).
Proof. reflexivity. Qed.

Lemma midpoints_length (edges : list float) :
  length (midpoints edges) = (length edges - 1)%nat.
Proof.
  induction edges as [|a [|b l] IH]; try reflexivity.
  rewrite midpoints_cons. simpl length in *. rewrite IH. lia.
Qed.

Lemma midpoints_nth (edges : list float) (i : nat) :
  (S i < length edges)%nat ->
  nth i (midpoints edges) nan = (nth (S i) edges nan + nth i edges nan) / 2.
Proof.
  revert i. induction edges as [|a [|b l] IH]; intros i Hi; simpl in Hi; try lia.
  rewrite midpoints_cons. destruct i as [|i]; [reflexivity|].
  change (nth (S i) (?x :: ?m) nan) with (nth i m nan).
  rewrite IH by (simpl; lia). reflexivity.
Qed.

(** C6, as amended.  For every merged cloud and every truthy resample factor
    [r], resampling asks [binned_statistic] for the mean over
    [int((N_channels - 1) * r)] bins, the product truncated toward zero and
    not rounded, on the half-channel-padded range
    [(velax[0] - channel/2, velax[-1] + channel/2)], and returns the per-bin
    means it gets with the midpoints of the bin edges it gets as the new
    coordinate axis. *)
Theorem resample_bins_and_midpoints sp0 th0 vx sw re so e vpnts spnts r bins y edges :
  init sp0 th0 vx sw re so = Ok e ->
  truthy r = true ->
  int_times (Z.of_nat (length vx) - 1) r = Ok bins ->
  binned_statistic vpnts spnts "mean" bins (velax_range e) = Ok (y, edges) ->
  _resample_spectra binned_statistic e vpnts spnts r = Ok (midpoints edges, y) /\
  (exists v0 v1 rest,
      vx = v0 :: v1 :: rest /\
      velax_range e = (v0 - 0.5 * (v1 - v0), last vx nan + 0.5 * (v1 - v0))) /\
  length (midpoints edges) = (length edges - 1)%nat /\
  (forall i, (S i < length edges)%nat ->
      nth i (midpoints edges) nan = (nth (S i) edges nan + nth i edges nan) / 2).
Proof.
  intros H Hr Hbins Hstat.
  destruct (init_inv _ _ _ _ _ _ _ _ _ _ _ _ H) as (_ & _ & _ & _ & _ & Hvx & _).
  destruct (init_velax_range _ _ _ _ _ _ _ H) as (v0 & v1 & rest & Hx & _ & Hrange).
  repeat split.
  - unfold _resample_spectra. rewrite Hr, Hvx, Hbins. simpl. rewrite Hstat.
    reflexivity.
  - exists v0, v1, rest. split; assumption.
  - apply midpoints_length.
  - apply midpoints_nth.
Qed.

End Deprojection.

(* ================================================================= *)
(** ** The constructor and the deprojection on concrete ensembles *)

Section Cases.

Open Scope float_scope.

Local Notation init :=
  (__init__ Run.argsort_stable Run.sum_seq Run.degrees_0_pi Run.mod_small
     Run.percentile_m1_1).

(** C1: the code at two spectra given in descending order of angle.  The
    constructor stores them sorted, the spectrum of angle 0 first, while
    [spectra_flat] keeps the order of the input: in the merged cloud the
    coordinates of angle 0 carry the intensities 1, 2, 3 of the spectrum of
    angle pi, where the samples of the stored ensemble have 4, 5, 6: the
    first point of the cloud, (-11, 1), is no sample of the ensemble. *)
Theorem merged_cloud_mispairs_intensities :
  exists e,
    init [[1; 2; 3]; [4; 5; 6]] [pi; 0] [-1; 0; 1] true true true = Ok e /\
    theta e = [0; pi] /\
    spectra e = [[4; 5; 6]; [1; 2; 3]] /\
    deprojected_spectrum Run.argsort_stable Run.cos_0_pi Run.no_binning
      e 10 (RBool false)
    = Ok ([-11; -10; -9; 9; 10; 11], [1; 2; 3; 4; 5; 6]) /\
    tagged_samples Run.cos_0_pi e 10
    = [(-11, 4); (-10, 5); (-9, 6); (9, 1); (10, 2); (11, 3)] /\
    ~ In (-11, 1) (tagged_samples Run.cos_0_pi e 10).
Proof.
  eexists. split; [reflexivity|]. repeat split.
  simpl. intros H.
  repeat (destruct H as [H|H];
          [apply (f_equal (fun p => (fst p + snd p =? -10))) in H;
           vm_compute in H; discriminate|]).
  exact H.
Qed.

(** The theorem of C2 at an input whose first row sums to -1: the row is
    dropped and both deprojections raise the size-mismatch error. *)
Lemma removed_spectrum_breaks_deprojection_witness :
  exists e,
    init [[-1; 0; 0]; [1; 2; 1]] [0; pi] [-1; 0; 1] true true true = Ok e /\
    length (theta e) = 1%nat /\
    (forall vrot resample,
        deprojected_spectrum Run.argsort_stable Run.cos_0_pi Run.no_binning
          e vrot resample = Raise size_mismatch) /\
    deprojected_spectrum_maximum Run.argsort_stable (fun x => x) (fun x _ => x)
      (fun a => hd 0 a) Run.max_seq Run.trapz_one Run.no_binning
      Run.fit_fails (fun _ _ _ => Ok 0) e (RBool false) "max"
    = Raise size_mismatch.
Proof.
  eexists. split; [reflexivity|]. split; [reflexivity|].
  assert (Hrect : Forall (fun row : list float => length row = length [-1; 0; 1])
                    [[-1; 0; 0]; [1; 2; 1]]) by (repeat constructor).
  assert (Hrem : Exists (fun row => (0 <? Run.sum_seq row) = false)
                   [[-1; 0; 0]; [1; 2; 1]]) by (apply Exists_cons_hd; reflexivity).
  pose proof (removed_spectrum_breaks_deprojection
                Run.argsort_stable Run.sum_seq Run.cos_0_pi (fun x => x)
                (fun x _ => x) Run.degrees_0_pi Run.mod_small
                Run.percentile_m1_1 (fun a => hd 0 a) Run.max_seq Run.trapz_one
                Run.no_binning Run.fit_fails (fun _ _ _ => Ok 0)
                [[-1; 0; 0]; [1; 2; 1]] [0; pi] [-1; 0; 1] true true _
                eq_refl Hrect Hrem) as (Hd & _ & Hm).
  split.
  - exact Hd.
  - exact (Hm (RBool false) "max"%string eq_refl).
Defined.

(** C2, as stated, fails: on the same ensemble, from which a row was
    removed, [deprojected_spectrum_maximum] called with a name that is no
    method raises the method error of [peak_velocities], which runs
    before [_order_spectra], and not the size-mismatch error. *)
Lemma unknown_method_raises_first :
  exists e,
    init [[-1; 0; 0]; [1; 2; 1]] [0; pi] [-1; 0; 1] true true true = Ok e /\
    length (theta e) = 1%nat /\
    deprojected_spectrum_maximum Run.argsort_stable (fun x => x) (fun x _ => x)
      (fun a => hd 0 a) Run.max_seq Run.trapz_one Run.no_binning
      Run.fit_fails (fun _ _ _ => Ok 0) e (RBool false) "nope"
    = Raise (ValueError "method is not 'max', 'gaussian' or 'quadratic'.").
Proof.
  eexists. split; [reflexivity|]. split; reflexivity.
Qed.

(** The theorem of C9 at an all-zero spectrum followed by one of sum 4: one
    angle and one spectrum are stored, as many as rows of positive sum. *)
Lemma stored_angles_sorted_and_counted_witness :
  exists e,
    init [[0; 0; 0]; [1; 2; 1]] [0; pi] [-1; 0; 1] true true true = Ok e /\
    non_decreasing (theta e) /\
    length (theta e) = length (spectra e) /\
    length (theta e) = count_positive Run.sum_seq [[0; 0; 0]; [1; 2; 1]] /\
    length (theta e) = 1%nat.
Proof.
  eexists. split; [reflexivity|].
  pose proof (stored_angles_sorted_and_counted
                Run.argsort_stable Run.sum_seq Run.degrees_0_pi Run.mod_small
                Run.percentile_m1_1 [[0; 0; 0]; [1; 2; 1]] [0; pi] [-1; 0; 1] _
                eq_refl (SortFacts.argsort_stable_spec [0; pi])) as (_ & Hnd & Hl & Hc).
  split; [|split; [exact Hl | split; [exact Hc | reflexivity]]].
  apply Hnd. repeat constructor.
Defined.

(** C9, as stated, fails: a row whose sum is -1 has a non-zero sum and is
    not kept.  Two rows have a non-zero sum, one angle is stored. *)
Lemma negative_sum_row_not_kept :
  exists e,
    init [[-1; 0; 0]; [1; 2; 1]] [0; pi] [-1; 0; 1] true true true = Ok e /\
    length (theta e) = 1%nat /\
    length (spectra e) = 1%nat /\
    count_nonzero Run.sum_seq [[-1; 0; 0]; [1; 2; 1]] = 2%nat.
Proof.
  eexists. split; [reflexivity|]. repeat split.
Qed.



(** The theorem of C6 on three channels with the factor 0.9: one bin, whose
    mean is 2 and whose midpoint is 0. *)
Lemma resample_bins_and_midpoints_witness :
  exists e,
    init [[1; 2; 1]] [0] [-1; 0; 1] true true true = Ok e /\
    _resample_spectra Run.binning_one_bin e [-1; 0; 1] [1; 2; 3] (RFloat 0.9)
    = Ok ([0], [2]).
Proof.
  eexists. split; [reflexivity|].
  exact (proj1 (resample_bins_and_midpoints
                  Run.argsort_stable Run.sum_seq Run.degrees_0_pi Run.mod_small
                  Run.percentile_m1_1 Run.binning_one_bin
                  [[1; 2; 1]] [0] [-1; 0; 1] true true true _
                  [-1; 0; 1] [1; 2; 3] (RFloat 0.9) 1%Z [2] [-1.5; 1.5]
                  eq_refl eq_refl eq_refl eq_refl)).
Defined.

(** C6, as stated, fails: on three channels with the factor 0.9 the product
    is 1.8, which rounds to 2, and the binning is asked for one bin: the
    resampled spectrum has one point, not two. *)
Lemma bins_truncated_not_rounded :
  truthy (RFloat 0.9) = true /\
  py_round (of_int (3 - 1) * 0.9) = Ok 2%Z /\
  int_times (3 - 1) (RFloat 0.9) = Ok 1%Z /\
  exists e,
    init [[1; 2; 1]] [0] [-1; 0; 1] true true true = Ok e /\
    _resample_spectra Run.binning_one_bin e [-1; 0; 1] [1; 2; 3] (RFloat 0.9)
    = Ok ([0], [2]).
Proof.
  repeat split. eexists. split; reflexivity.
Qed.

End Cases.

(* ================================================================= *)
(** ** Peak velocities from a Gaussian fit *)

Section Fits.

Open Scope float_scope.

Variable np_exp : float -> float.
Variable np_power : float -> float -> float.
Variable np_max : list float -> result float.
Variable np_trapz : list float -> list float -> float.
Variable curve_fit :
  (float -> list float -> float) -> list float -> list float ->
  option (list float) -> list float ->
  result (list float * list (list float)).

Local Notation fit := (_fit_gaussian np_exp np_power np_max np_trapz curve_fit).
Local Notation center :=
  (_get_gaussian_center np_exp np_power np_max np_trapz curve_fit).

(** A fit with a finite center [x0] yields [abs x0]. *)
Lemma gaussian_center_of_finite_fit (x y : list float) (x0 : float) rest :
  fst (fit x y None) = x0 :: rest ->
  Np.isfinite x0 = true ->
  center x y = Ok (abs x0).
Proof.
  intros Hf Hx. unfold _get_gaussian_center. rewrite Hf. simpl. rewrite Hx.
  reflexivity.
Qed.

(** A fit that raises yields the velocity of the largest sample. *)
Lemma gaussian_center_of_failed_fit (x y : list float) (p0 : list float) e :
  _get_p0_gaussian np_max np_trapz x y = Ok p0 ->
  curve_fit (fun x p => _gaussian np_exp np_power x (nth 0 p nan) (nth 1 p nan) (nth 2 p nan))
    x y None p0 = Raise e ->
  center x y = (i <- Np.argmax y ;; Np.item x i).
Proof.
  intros Hp Hc. unfold _get_gaussian_center, _fit_gaussian.
  rewrite Hp. simpl. rewrite Hc. reflexivity.
Qed.

(** C5: the code against the claim.  Whenever the Gaussian fit of a
    spectrum converges to a finite center [x0] below zero,
    [_get_gaussian_center] returns [abs x0], a positive number and not the
    fitted center, and so does [peak_velocities] with the method
    'gaussian' for that spectrum. *)
Theorem gaussian_center_loses_sign (x y p0 : list float) (x0 : float)
    (rest : list float) (cvar : list (list float)) :
  _get_p0_gaussian np_max np_trapz x y = Ok p0 ->
  curve_fit (fun x p => _gaussian np_exp np_power x (nth 0 p nan) (nth 1 p nan)
                          (nth 2 p nan))
    x y None p0 = Ok (x0 :: rest, cvar) ->
  Np.isfinite x0 = true ->
  (x0 <? 0) = true ->
  _get_gaussian_center np_exp np_power np_max np_trapz curve_fit x y
  = Ok (abs x0) /\
  (0 <? abs x0) = true /\
  (abs x0 =? x0) = false /\
  (forall e quadratic,
      velax e = x -> spectra e = [y] ->
      peak_velocities np_exp np_power np_max np_trapz curve_fit quadratic
        e "gaussian" = Ok [abs x0]).
Proof.
  intros Hp Hc Hfin Hneg.
  assert (Hcenter : center x y = Ok (abs x0)).
  { apply (gaussian_center_of_finite_fit x y x0 rest); [|exact Hfin].
    unfold _fit_gaussian. rewrite Hp. cbn [Py.bind]. rewrite Hc. reflexivity. }
  destruct (FloatFacts.abs_of_negative x0 Hneg) as [Hpos Hne].
  split; [exact Hcenter|]. split; [exact Hpos|]. split; [exact Hne|].
  intros e quadratic Hv Hs. unfold peak_velocities.
  replace (lower "gaussian") with "gaussian"%string by reflexivity.
  simpl String.eqb. cbv iota. rewrite Hv, Hs. cbn [mapM].
  rewrite Hcenter. reflexivity.
Qed.

End Fits.

(** C5 on the line that is the Gaussian of center -1, width 0.5 and peak 3:
    the largest sample is at the velocity -1, the fit converges to that
    center, and the center returned is positive. *)
Lemma gaussian_center_loses_sign_witness :
  (i <- Np.argmax Run.line_m1 ;; Np.item Run.line_velax i) = Ok (-1)%float /\
  exists c,
    _get_gaussian_center (fun x => x) (fun x _ => x) Run.max_seq Run.trapz_one
      Run.fit_line_m1 Run.line_velax Run.line_m1 = Ok c /\
    (0 <? c)%float = true.
Proof.
  split; [reflexivity|].
  destruct (gaussian_center_loses_sign
              (fun x => x) (fun x _ => x) Run.max_seq Run.trapz_one
              Run.fit_line_m1 Run.line_velax Run.line_m1 _ (-1)%float
              [0.5; 3]%float _ eq_refl eq_refl eq_refl eq_refl)
    as (Hc & Hpos & _).
  eexists. split; [exact Hc | exact Hpos].
Defined.

(* ================================================================= *)
(** ** The log-probability and the driver *)

Section Posterior.

Open Scope float_scope.

Variable np_argsort : list float -> list nat.
Variable np_cos : float -> float.
Variable binned_statistic :
  list float -> list float -> string -> Z -> float * float ->
  result (list float * list float).
Variable np_log : float -> float.
Variable np_nanmean : list float -> float.
Variable np_percentile_axis0 : list (list float) -> list float -> list (list float).
Variable GP : Type.
Variable celerite_GP : float -> float -> float -> float -> GP.
Variable gp_compute : GP -> list float -> result GP.
Variable gp_log_likelihood : GP -> list float -> result float.
Variable run_mcmc :
  nat -> nat -> (list float -> M float) -> list (list float) -> Z ->
  M (list (list (list float))).

Local Notation lnlike :=
  (_lnlikelihood np_argsort np_cos binned_statistic np_log np_nanmean GP
     celerite_GP gp_compute gp_log_likelihood).
Local Notation lnprob :=
  (_lnprobability np_argsort np_cos binned_statistic np_log np_nanmean GP
     celerite_GP gp_compute gp_log_likelihood).
Local Notation sample :=
  (get_vrot_GP_sample np_argsort np_cos binned_statistic np_log np_nanmean
     np_percentile_axis0 GP celerite_GP gp_compute gp_log_likelihood run_mcmc).

(** The prior of a 4-vector is one of two values. *)
Lemma lnprior_cases (vrot noise lnsigma lnrho vref : float) :
  _lnprior [vrot; noise; lnsigma; lnrho] vref = Ok 0 \/
  _lnprior [vrot; noise; lnsigma; lnrho] vref = Ok neg_infinity.
Proof.
  unfold _lnprior.
  destruct (0.2 <? abs (vrot - vref) / vref); [right; reflexivity|].
  destruct (vrot <=? 0); [right; reflexivity|].
  destruct (noise <=? 0); [right; reflexivity|].
  destruct (negb ((-15 <? lnsigma) && (lnsigma <? 10))); [right; reflexivity|].
  destruct (negb ((0 <=? lnrho) && (lnrho <=? 10))); [right; reflexivity|].
  left. reflexivity.
Qed.

(** A likelihood that returns, returns a finite value or negative
    infinity, after one more entry in the trace. *)
Lemma lnlikelihood_value e theta resample s ll s' :
  lnlike e theta resample s = (Ok ll, s') ->
  (ll = neg_infinity \/ is_finite ll = true) /\
  s' = mkState (heap s) (trace s ++ [EvLnLikelihood theta resample]).
Proof.
  unfold _lnlikelihood, Mem.bind, Mem.log, Mem.lift, Mem.ret.
  destruct (_get_masked_spectra np_argsort np_cos binned_statistic e theta resample)
    as [[x y]|]; [|discriminate].
  destruct (_build_kernel np_log np_nanmean GP celerite_GP gp_compute x y theta)
    as [[gp|]|]; try discriminate.
  - destruct (gp_log_likelihood gp y) as [l|]; [|discriminate].
    intros H. injection H as <- <-. split; [|reflexivity].
    unfold Np.isfinite. destruct (is_finite l) eqn:Hl; [right; exact Hl | left; reflexivity].
  - intros H. injection H as <- <-. split; [left|]; reflexivity.
Qed.

(** Every call of the likelihood, returning or raising, extends the trace. *)
Lemma lnlikelihood_traced e theta resample s :
  trace (snd (lnlike e theta resample s))
  = trace s ++ [EvLnLikelihood theta resample].
Proof.
  unfold _lnlikelihood, Mem.bind, Mem.log, Mem.lift, Mem.ret.
  destruct (_get_masked_spectra np_argsort np_cos binned_statistic e theta resample)
    as [[x y]|]; [|reflexivity].
  destruct (_build_kernel np_log np_nanmean GP celerite_GP gp_compute x y theta)
    as [[gp|]|]; try reflexivity.
  destruct (gp_log_likelihood gp y); reflexivity.
Qed.

(** C10.  For every 4-vector, reference velocity and resample setting:
    when the prior is negative infinity, [_lnprobability] returns negative
    infinity and leaves the state, the trace of likelihood calls included,
    as it found it (a call of the likelihood would have extended the
    trace); when the prior is 0.0 it is the call of [_lnlikelihood]; and
    whenever the likelihood has a value, the value returned equals the
    prior plus that likelihood. *)
Theorem lnprobability_is_prior_plus_likelihood
    e vrot noise lnsigma lnrho vref resample s :
  let theta := [vrot; noise; lnsigma; lnrho] in
  (_lnprior theta vref = Ok neg_infinity ->
   lnprob e theta vref resample s = (Ok neg_infinity, s) /\
   trace (snd (lnlike e theta resample s)) <> trace s) /\
  (_lnprior theta vref = Ok 0 ->
   lnprob e theta vref resample s = lnlike e theta resample s) /\
  (forall ll s',
      lnlike e theta resample s = (Ok ll, s') ->
      exists p r,
        _lnprior theta vref = Ok p /\
        fst (lnprob e theta vref resample s) = Ok r /\
        (p + ll =? r) = true).
Proof.
  intros theta. subst theta.
  assert (Hneg : _lnprior [vrot; noise; lnsigma; lnrho] vref = Ok neg_infinity ->
                 lnprob e [vrot; noise; lnsigma; lnrho] vref resample s
                 = (Ok neg_infinity, s)).
  { intros Hp. unfold _lnprobability, Mem.bind, Mem.lift. rewrite Hp. reflexivity. }
  assert (Htr : trace (snd (lnlike e [vrot; noise; lnsigma; lnrho] resample s))
                <> trace s).
  { rewrite lnlikelihood_traced. intros Heq.
    apply (f_equal (@length event)) in Heq. rewrite length_app in Heq.
    simpl in Heq. lia. }
  assert (Hzero : _lnprior [vrot; noise; lnsigma; lnrho] vref = Ok 0 ->
                  lnprob e [vrot; noise; lnsigma; lnrho] vref resample s
                  = lnlike e [vrot; noise; lnsigma; lnrho] resample s).
  { intros Hp. unfold _lnprobability, Mem.bind, Mem.lift. rewrite Hp. reflexivity. }
  split; [intros Hp; split; [exact (Hneg Hp) | exact Htr]|].
  split; [exact Hzero|].
  intros ll s' Hl.
  destruct (lnlikelihood_value _ _ _ _ _ _ Hl) as [Hv _].
  destruct (lnprior_cases vrot noise lnsigma lnrho vref) as [Hp|Hp].
  - exists 0, ll. split; [exact Hp|]. rewrite (Hzero Hp), Hl. split; [reflexivity|].
    destruct Hv as [->|Hf]; [reflexivity|].
    apply FloatFacts.zero_plus_finite. exact Hf.
  - exists neg_infinity, neg_infinity. split; [exact Hp|]. rewrite (Hneg Hp).
    split; [reflexivity|].
    destruct Hv as [->|Hf]; [reflexivity|].
    rewrite (FloatFacts.neg_infinity_plus_finite _ Hf). reflexivity.
Qed.

(** The check of the starting positions: a not-a-number stops the driver
    before the sampler is called, anything else goes to the sampler. *)
Lemma sample_checks_nan
    e p0 vref resample nwalkers nburnin nsteps return_all s :
  (Np.any_isnan p0 = true ->
   sample e p0 vref resample nwalkers nburnin nsteps return_all s
   = (Raise (ValueError "WARNING: NaNs in the p0 array."), s)) /\
  (Np.any_isnan p0 = false ->
   sample e p0 vref resample nwalkers nburnin nsteps return_all s
   = (chain <~ run_mcmc nwalkers 4 (fun th => lnprob e th vref resample)
                 p0 (nburnin + nsteps)%Z ;;
      let percentiles :=
        np_percentile_axis0 (concat (map (py_lastn nsteps) chain)) [16; 50; 84] in
      if return_all then Mem.ret (PAll percentiles)
      else col <~ lift (mapM (fun row => Np.item row 0) percentiles) ;;
           Mem.ret (PVrot col))
     (mkState (heap s) (trace s ++ [EvRunMCMC p0 (nburnin + nsteps)%Z]))).
Proof.
  split; intros H; unfold get_vrot_GP_sample; rewrite H; reflexivity.
Qed.

End Posterior.

Section Driver.

Open Scope float_scope.

Variable np_argsort : list float -> list nat.
Variable np_cos : float -> float.
Variable np_exp : float -> float.
Variable np_power : float -> float -> float.
Variable np_max : list float -> result float.
Variable np_trapz : list float -> list float -> float.
Variable binned_statistic :
  list float -> list float -> string -> Z -> float * float ->
  result (list float * list float).
Variable curve_fit :
  (float -> list float -> float) -> list float -> list float ->
  option (list float) -> list float ->
  result (list float * list (list float)).
Variable quadratic : list float -> float -> float -> result float.
Variable np_log : float -> float.
Variable np_std : list float -> float.
Variable np_nanmean : list float -> float.
Variable np_min : list float -> result float.
Variable np_mean : list float -> float.
Variable np_percentile_axis0 : list (list float) -> list float -> list (list float).
Variable randn : nat -> list float.
Variable GP : Type.
Variable celerite_GP : float -> float -> float -> float -> GP.
Variable gp_compute : GP -> list float -> result GP.
Variable gp_log_likelihood : GP -> list float -> result float.
Variable minimize :
  (list float -> M float) -> list float ->
  list (option float * option float) -> kwargs_t -> M OptimizeResult.
Variable run_mcmc :
  nat -> nat -> (list float -> M float) -> list (list float) -> Z ->
  M (list (list (list float))).

Local Notation positions :=
  (get_vrot_GP_init np_argsort np_cos np_exp np_power np_max np_trapz
     binned_statistic curve_fit quadratic np_log np_std np_nanmean np_min
     np_mean randn GP celerite_GP gp_compute gp_log_likelihood minimize).
Local Notation lnprob :=
  (_lnprobability np_argsort np_cos binned_statistic np_log np_nanmean GP
     celerite_GP gp_compute gp_log_likelihood).
Local Notation driver :=
  (get_vrot_GP np_argsort np_cos np_exp np_power np_max np_trapz
     binned_statistic curve_fit quadratic np_log np_std np_nanmean np_min
     np_mean np_percentile_axis0 randn GP celerite_GP gp_compute
     gp_log_likelihood minimize run_mcmc).

(** emcee computes the log-probability of the starting positions before it
    samples, and raises a [ValueError] when one of them has an infinite or
    a not-a-number component. *)
Hypothesis sampler_checks_start :
  forall nwalkers ndim lnprob p0 steps s,
    Np.any_nonfinite p0 = true ->
    exists msg s',
      run_mcmc nwalkers ndim lnprob p0 steps s = (Raise (ValueError msg), s').


End Driver.

(* ================================================================= *)
(** ** The likelihood, the optimizer and the driver on a concrete ensemble *)

Module SamplerFacts.

Lemma nonfinite_cases (x : float) :
  negb (is_finite x) = is_nan x || is_infinity x.
Proof. unfold is_finite. apply negb_involutive. Qed.

(** The validating sampler raises on positions that are not all finite. *)
Lemma mcmc_checked_validates
    (nwalkers ndim : nat) (lnprob : list float -> M float)
    (p0 : list (list float)) (steps : Z) (s : state) :
  Np.any_nonfinite p0 = true ->
  exists msg s',
    Run.mcmc_checked nwalkers ndim lnprob p0 steps s
    = (Raise (ValueError msg), s').
Proof.
  intros H. unfold Run.mcmc_checked.
  destruct (existsb (existsb is_infinity) p0) eqn:Hi.
  - eexists. eexists. reflexivity.
  - destruct (existsb (existsb is_nan) p0) eqn:Hn.
    + eexists. eexists. reflexivity.
    + exfalso. unfold Np.any_nonfinite, Np.isfinite in H.
      apply existsb_exists in H. destruct H as (row & Hrow & H).
      apply existsb_exists in H. destruct H as (x & Hx & H).
      rewrite nonfinite_cases in H. apply orb_true_iff in H.
      destruct H as [H|H].
      * assert (E : existsb (existsb is_nan) p0 = true).
        { apply existsb_exists. exists row. split; [exact Hrow|].
          apply existsb_exists. exists x. split; assumption. }
        congruence.
      * assert (E : existsb (existsb is_infinity) p0 = true).
        { apply existsb_exists. exists row. split; [exact Hrow|].
          apply existsb_exists. exists x. split; assumption. }
        congruence.
Qed.

End SamplerFacts.


Section Runs.

Open Scope float_scope.

Local Notation init :=
  (__init__ Run.argsort_stable Run.sum_seq Run.degrees_0_pi Run.mod_small
     Run.percentile_m1_1).
Local Notation lnprob :=
  (_lnprobability Run.argsort_stable Run.cos_0_pi Run.no_binning (fun x => x)
     (fun a => hd 0 a) float Run.gp_lnrho Run.gp_compute_ok Run.gp_loglike_lnrho).
Local Notation lnlike :=
  (_lnlikelihood Run.argsort_stable Run.cos_0_pi Run.no_binning (fun x => x)
     (fun a => hd 0 a) float Run.gp_lnrho Run.gp_compute_ok Run.gp_loglike_lnrho).
Local Notation nll :=
  (_negative_lnlikelihood Run.argsort_stable Run.cos_0_pi Run.no_binning
     (fun x => x) (fun a => hd 0 a) float Run.gp_lnrho Run.gp_compute_ok
     Run.gp_loglike_lnrho).
Local Notation checked_driver :=
  (get_vrot_GP Run.argsort_stable Run.cos_0_pi (fun x => x) (fun x _ => x)
     Run.max_seq Run.trapz_one Run.no_binning Run.fit_fails
     (fun _ _ _ => Ok 0) (fun x => x) (fun a => hd 0 a) (fun a => hd 0 a)
     Run.max_seq (fun a => hd 0 a) Run.percentile_const Run.randn_half float
     Run.gp_lnrho Run.gp_compute_ok Run.gp_loglike_lnrho Run.minimize_clip
     Run.mcmc_checked).

(** The theorem of C10 on one spectrum: a vector the prior rejects leaves
    the trace empty, and at a vector it accepts, where the likelihood is 5,
    the log-probability equals the prior plus 5. *)
Lemma lnprobability_is_prior_plus_likelihood_witness :
  exists e,
    init [[1; 2; 1]] [0] [-1; 0; 1] true true true = Ok e /\
    lnprob e [1; 1; 0; 11] 1 (RBool false) (mkState [] [])
    = (Ok neg_infinity, mkState [] []) /\
    fst (lnlike e [1; 1; 0; 5] (RBool false) (mkState [] [])) = Ok 5 /\
    exists p r,
      _lnprior [1; 1; 0; 5] 1 = Ok p /\
      fst (lnprob e [1; 1; 0; 5] 1 (RBool false) (mkState [] [])) = Ok r /\
      (p + 5 =? r) = true.
Proof.
  eexists. split; [reflexivity|]. split; [|split; [reflexivity|]].
  - exact (proj1 (proj1 (lnprobability_is_prior_plus_likelihood
                    Run.argsort_stable Run.cos_0_pi Run.no_binning (fun x => x)
                    (fun a => hd 0 a) float Run.gp_lnrho Run.gp_compute_ok
                    Run.gp_loglike_lnrho _ 1 1 0 11 1 (RBool false)
                    (mkState [] [])) eq_refl)).
  - refine (proj2 (proj2 (lnprobability_is_prior_plus_likelihood
                    Run.argsort_stable Run.cos_0_pi Run.no_binning (fun x => x)
                    (fun a => hd 0 a) float Run.gp_lnrho Run.gp_compute_ok
                    Run.gp_loglike_lnrho _ 1 1 0 5 1 (RBool false)
                    (mkState [] []))) 5 _ _).
    reflexivity.
Defined.

(** C3: the code at a starting vector whose last component, 12, lies
    outside the bounds [0, 10] of the optimizer, on a likelihood that grows
    with that component.  The first minimization reports success at the
    clipped vector, whose negative log-likelihood -10 is not lower than the
    current best -12: the step is rejected, yet the array [p0] itself has
    been overwritten through its alias [p0_temp].  The vector returned is
    that array, with a negative log-likelihood greater than the input's. *)
Theorem rejected_step_overwrites_p0 :
  exists e s1,
    init [[1; 2; 1]] [0] [-1; 0; 1] true true true = Ok e /\
    fst (nll e [1; 1; 0; 12] (RBool false) (mkState [[1; 1; 0; 12]] []))
    = Ok (-12) /\
    _optimize_p0 Run.argsort_stable Run.cos_0_pi Run.no_binning (fun x => x)
      (fun a => hd 0 a) float Run.gp_lnrho Run.gp_compute_ok
      Run.gp_loglike_lnrho Run.minimize_clip
      e 0%nat (RBool true) (RBool false) []
      (mkState [[1; 1; 0; 12]] []) = (Ok 0%nat, s1) /\
    nth 0 (heap s1) [] = [1; 1; 0; 10] /\
    fst (nll e [1; 1; 0; 10] (RBool false) s1) = Ok (-10) /\
    (-12 <? -10) = true.
Proof.
  eexists. eexists. split; [reflexivity|]. split; [reflexivity|].
  split; [reflexivity|]. repeat split.
Qed.


End Runs.

(* ================================================================= *)
(** ** More facts about binary64 values *)

Module FloatMore.

Open Scope float_scope.

Lemma is_nan_true (x : float) : is_nan x = true <-> Prim2SF x = S754_nan.
Proof.
  split.
  - intros H. destruct (Prim2SF x) eqn:E; try reflexivity;
      assert (Hn : is_nan x = false)
        by (apply FloatFacts.is_nan_spec; rewrite E; discriminate);
      congruence.
  - intros E. destruct (is_nan x) eqn:H; [reflexivity|].
    apply FloatFacts.is_nan_spec in H. contradiction.
Qed.

(** A product with a not-a-number is a not-a-number. *)
Lemma mul_nan_l (x y : float) : is_nan x = true -> is_nan (x * y) = true.
Proof.
  intros H. apply is_nan_true in H. apply is_nan_true.
  rewrite mul_spec, H. reflexivity.
Qed.

(** No comparison holds with a not-a-number. *)
Lemma ltb_nan_r (x y : float) : is_nan y = true -> (x <? y) = false.
Proof.
  intros H. apply is_nan_true in H. rewrite ltb_spec, H. unfold SFltb.
  destruct (Prim2SF x); reflexivity.
Qed.

Lemma ltb_nan_l (x y : float) : is_nan x = true -> (x <? y) = false.
Proof.
  intros H. apply is_nan_true in H. rewrite ltb_spec, H. reflexivity.
Qed.

Lemma leb_nan_r (x y : float) : is_nan y = true -> (x <=? y) = false.
Proof.
  intros H. apply is_nan_true in H. rewrite leb_spec, H. unfold SFleb.
  destruct (Prim2SF x); reflexivity.
Qed.

Lemma leb_nan_l (x y : float) : is_nan x = true -> (x <=? y) = false.
Proof.
  intros H. apply is_nan_true in H. rewrite leb_spec, H. reflexivity.
Qed.

Lemma eqb_nan_l (x y : float) : is_nan x = true -> (x =? y) = false.
Proof.
  intros H. apply is_nan_true in H. rewrite eqb_spec, H. reflexivity.
Qed.

(** The absolute value of a finite value is a number that is not
    negative. *)
Lemma abs_finite (x : float) :
  is_finite x = true -> is_nan (abs x) = false /\ (0 <=? abs x) = true.
Proof.
  intros H. split.
  - apply FloatFacts.is_nan_spec. rewrite abs_spec.
    destruct (FloatFacts.is_finite_spec x H) as [[s ->] | [s [m [e ->]]]];
      discriminate.
  - rewrite leb_spec, abs_spec. change (Prim2SF 0) with (S754_zero false).
    destruct (FloatFacts.is_finite_spec x H) as [[s ->] | [s [m [e ->]]]];
      reflexivity.
Qed.

(** A finite value is not a not-a-number. *)
Lemma finite_number (x : float) : is_finite x = true -> is_nan x = false.
Proof.
  unfold is_finite. intros H. apply negb_true_iff, orb_false_iff in H.
  exact (proj1 H).
Qed.

End FloatMore.

(* ================================================================= *)
(** ** Ordering a point cloud *)

Section Ordering.

Open Scope float_scope.

Variable np_argsort : list float -> list nat.

(** With arrays of one length and a sort that does what numpy documents,
    [_order_spectra] returns the coordinates in order and every point with
    the intensity it came with. *)
Lemma order_spectra_ok (e : ensemble) (vpnts : list float)
    (o : option (list float)) :
  let spnts := match o with None => spectra_flat e | Some s => s end in
  argsort_spec vpnts (np_argsort vpnts) ->
  length spnts = length vpnts ->
  exists x y,
    _order_spectra np_argsort e vpnts o = Ok (x, y) /\
    x = map (fun i => nth i vpnts nan) (np_argsort vpnts) /\
    np_sorted x /\
    Permutation (combine x y) (combine vpnts spnts) /\
    length x = length vpnts /\ length y = length vpnts.
Proof.
  intros spnts [Hperm Hsort] Hlen.
  set (idxs := np_argsort vpnts) in *.
  destruct (NpFacts.take_all nan vpnts idxs Hperm) as [Hv _].
  assert (Hperm' : Permutation idxs (seq 0 (length spnts)))
    by (rewrite Hlen; exact Hperm).
  destruct (NpFacts.take_all nan spnts idxs Hperm') as [Hs _].
  exists (map (fun i => nth i vpnts nan) idxs), (map (fun i => nth i spnts nan) idxs).
  assert (Hn : length idxs = length vpnts).
  { rewrite (Permutation_length Hperm), length_seq. reflexivity. }
  repeat split.
  - unfold _order_spectra. fold spnts. fold idxs.
    rewrite Hlen, Nat.eqb_refl. simpl negb. cbv iota.
    rewrite Hv. simpl Py.bind. rewrite Hs. reflexivity.
  - apply NpFacts.sorted_map. exact Hsort.
  - rewrite (NpFacts.combine_map_nth nan nan vpnts spnts idxs (eq_sym Hlen)).
    assert (Hc : Permutation idxs (seq 0 (length (combine vpnts spnts)))).
    { rewrite length_combine, Hlen, Nat.min_id. exact Hperm. }
    exact (proj2 (NpFacts.take_all (nan, nan) (combine vpnts spnts) idxs Hc)).
  - rewrite length_map. exact Hn.
  - rewrite length_map. exact Hn.
Qed.

(** X1.  [_order_spectra] raises its size-mismatch error exactly when the
    two arrays differ in length.  Otherwise, [np.argsort] doing what numpy
    documents, it returns arrays of that same length, the coordinates in
    ascending order, and the returned points are the points given, each
    coordinate still with its own intensity: none is lost or re-paired. *)
Theorem order_spectra_sorts_pairs (e : ensemble) (vpnts spnts : list float) :
  argsort_spec vpnts (np_argsort vpnts) ->
  (length spnts <> length vpnts ->
   _order_spectra np_argsort e vpnts (Some spnts) = Raise size_mismatch) /\
  (length spnts = length vpnts ->
   exists x y,
     _order_spectra np_argsort e vpnts (Some spnts) = Ok (x, y) /\
     np_sorted x /\
     Permutation (combine x y) (combine vpnts spnts) /\
     length x = length vpnts /\ length y = length vpnts).
Proof.
  intros Hspec. split.
  - intros H. unfold _order_spectra. apply Nat.eqb_neq in H. rewrite H. reflexivity.
  - intros H.
    destruct (order_spectra_ok e vpnts (Some spnts) Hspec H)
      as (x & y & Ho & _ & Hs & Hp & Hx & Hy).
    exists x, y. repeat split; assumption.
Qed.

End Ordering.

(** X1 on three points given out of order, for an ensemble of one spectrum
    on three channels. *)
Lemma order_spectra_sorts_pairs_witness :
  let e := Build_ensemble [0] [[1; 2; 1]] [0] [1; 2; 1] [-1; 0; 1] 1
             (-1.5, 1.5) [-0.4; 0.4] in
  _order_spectra Run.argsort_stable e [3; 1; 2] (Some [30; 10; 20])
  = Ok ([1; 2; 3], [10; 20; 30]) /\
  _order_spectra Run.argsort_stable e [3; 1; 2] (Some [30; 10])
  = Raise size_mismatch.
Proof.
  intros e.
  destruct (order_spectra_sorts_pairs Run.argsort_stable e [3; 1; 2]
              [30; 10] (SortFacts.argsort_stable_spec _)) as [Hbad _].
  destruct (order_spectra_sorts_pairs Run.argsort_stable e [3; 1; 2]
              [30; 10; 20] (SortFacts.argsort_stable_spec _)) as [_ Hok].
  destruct (Hok eq_refl) as (x & y & Ho & _).
  split; [reflexivity|]. apply Hbad. simpl. discriminate.
Defined.

(* ================================================================= *)
(** ** Input that is already in order *)

Module SortedInput.

Lemma ltb_not_leb (x y : float) :
  (x <? y)%float = true -> (y <=? x)%float = false.
Proof.
  rewrite ltb_spec, leb_spec. unfold SFltb, SFleb.
  rewrite (FloatFacts.SFcompare_antisym (Prim2SF x) (Prim2SF y)).
  destruct (SFcompare (Prim2SF x) (Prim2SF y)) as [[| |]|]; simpl; congruence.
Qed.

Lemma sorted_nth {A} (P : A -> A -> Prop) (d : A) (l : list A) :
  StronglySorted P l ->
  forall j i, (j < i < length l)%nat -> P (nth j l d) (nth i l d).
Proof.
  induction 1 as [|x l Hs IH Hx]; intros j i Hji; simpl in Hji; [lia|].
  destruct i as [|i]; [lia|]. destruct j as [|j]; simpl.
  - rewrite Forall_forall in Hx. apply Hx, nth_In. lia.
  - apply IH. lia.
Qed.

Lemma seq_sorted (s n : nat) : StronglySorted lt (seq s n).
Proof.
  revert s. induction n as [|n IH]; intros s; simpl; constructor.
  - apply IH.
  - apply Forall_forall. intros k Hk. apply in_seq in Hk. lia.
Qed.

(** Two increasing lists of the same numbers are one list. *)
Lemma sorted_lt_unique (l1 l2 : list nat) :
  StronglySorted lt l1 -> StronglySorted lt l2 -> Permutation l1 l2 -> l1 = l2.
Proof.
  intros H1. revert l2. induction H1 as [|a l1 Hs1 IH Ha]; intros l2 H2 Hp.
  - apply Permutation_nil in Hp. symmetry. exact Hp.
  - destruct H2 as [|b l2 Hs2 Hb].
    + apply Permutation_sym, Permutation_nil in Hp. discriminate.
    + assert (Hab : a = b).
      { destruct (Nat.eq_dec a b) as [E|N]; [exact E|].
        assert (Ia : In a (b :: l2)) by (apply (Permutation_in _ Hp); left; reflexivity).
        assert (Ib : In b (a :: l1))
          by (apply (Permutation_in _ (Permutation_sym Hp)); left; reflexivity).
        destruct Ia as [E|Ia]; [congruence|]. destruct Ib as [E|Ib]; [congruence|].
        rewrite Forall_forall in Ha, Hb.
        pose proof (Ha b Ib). pose proof (Hb a Ia). lia. }
      subst b. f_equal. apply IH; [exact Hs2|].
      exact (Permutation_cons_inv Hp).
Qed.

(** On strictly increasing values, the only sort of the indices is the
    identity. *)
Lemma argsort_of_increasing (a : list float) (idxs : list nat) :
  StronglySorted (fun x y => (x <? y)%float = true) a ->
  argsort_spec a idxs ->
  idxs = seq 0 (length a).
Proof.
  intros Hinc [Hperm Hsort].
  apply sorted_lt_unique; [|apply seq_sorted|exact Hperm].
  assert (Hb : Forall (fun i => (i < length a)%nat) idxs).
  { apply Forall_forall. intros i Hi.
    apply (Permutation_in _ Hperm), in_seq in Hi. lia. }
  assert (Hnd : NoDup idxs).
  { apply (Permutation_NoDup (Permutation_sym Hperm)), seq_NoDup. }
  clear Hperm. induction Hsort as [|i rest Hs IH Hi]; constructor.
  - apply IH; [inversion Hb; assumption | inversion Hnd; assumption].
  - inversion Hb as [|? ? Hbi Hbr]; subst. inversion Hnd as [|? ? Hni Hnr]; subst.
    rewrite Forall_forall in *. intros j Hj.
    destruct (Nat.lt_trichotomy i j) as [L|[E|G]]; [exact L| |].
    + subst j. contradiction.
    + exfalso. specialize (Hi j Hj). specialize (Hbr j Hj).
      pose proof (sorted_nth _ nan a Hinc j i (conj G Hbi)) as Hlt.
      simpl in Hlt. unfold Np.le in Hi.
      rewrite (ltb_not_leb _ _ Hlt) in Hi.
      destruct (FloatFacts.leb_numbers _ _ (FloatFacts.ltb_leb _ _ Hlt)) as [Hn _].
      rewrite Hn in Hi. discriminate.
Qed.

Lemma select_all {A B} (f : B -> bool) (l : list B) (a : list A) :
  length a = length l -> Forall (fun y => f y = true) l ->
  Np.select a (map f l) = a.
Proof.
  intros Hlen Hall. revert a Hlen.
  induction Hall as [|y l Hy _ IH]; intros [|x a] Hlen; simpl in *;
    try reflexivity; try discriminate.
  injection Hlen as Hlen. rewrite Hy, (IH a Hlen). reflexivity.
Qed.

Lemma take_seq {A} (a : list A) : Np.take a (seq 0 (length a)) = Ok a.
Proof.
  destruct a as [|d a']; [reflexivity|].
  destruct (NpFacts.take_all d (d :: a') (seq 0 (length (d :: a')))
              (Permutation_refl _)) as [H _].
  rewrite H, NpFacts.map_nth_seq. reflexivity.
Qed.

End SortedInput.

(* ================================================================= *)
(** ** The constructor and the merged cloud on well-formed input *)

Section WellFormed.

Open Scope float_scope.

Variable np_argsort : list float -> list nat.
Variable np_sum : list float -> float.
Variable np_cos : float -> float.
Variable np_degrees : float -> float.
Variable np_mod : float -> float -> float.
Variable np_percentile : list float -> list float -> list float.
Variable binned_statistic :
  list float -> list float -> string -> Z -> float * float ->
  result (list float * list float).

Local Notation init :=
  (__init__ np_argsort np_sum np_degrees np_mod np_percentile).
Local Notation deproj :=
  (deprojected_spectrum np_argsort np_cos binned_statistic).

(** The merged cloud of an ensemble whose cached flat intensities are those
    of its stored spectra. *)
Lemma cloud_of_flat (e : ensemble) (vrot : float) :
  spectra_flat e = Np.flatten (spectra e) ->
  length (theta e) = length (spectra e) ->
  Forall (fun row => length row = length (velax e)) (spectra e) ->
  (forall a, argsort_spec a (np_argsort a)) ->
  exists x y,
    deproj e vrot (RBool false) = Ok (x, y) /\
    np_sorted x /\
    Permutation (combine x y) (tagged_samples np_cos e vrot) /\
    length x = (length (spectra e) * length (velax e))%nat /\
    length y = length x.
Proof.
  intros Hflat Hts Hrect Hspec.
  set (vp := Np.flatten (shifted_axes np_cos e vrot)).
  assert (Hvp : length vp = (length (spectra e) * length (velax e))%nat).
  { subst vp. rewrite (shifted_axes_size np_cos e vrot), Hts. reflexivity. }
  assert (Hlen : length (spectra_flat e) = length vp).
  { rewrite Hvp, Hflat. unfold Np.flatten.
    apply NpFacts.concat_length_const. exact Hrect. }
  destruct (order_spectra_ok np_argsort e vp None (Hspec vp) Hlen)
    as (x & y & Ho & _ & Hs & Hp & Hx & Hy).
  exists x, y. repeat split.
  - unfold deprojected_spectrum. fold vp. rewrite Ho. reflexivity.
  - exact Hs.
  - eapply perm_trans; [exact Hp|].
    subst vp. rewrite Hflat. unfold Np.flatten, shifted_axes, tagged_samples.
    rewrite (combine_flat_rows
               (fun t => map (fun v => v - vrot * np_cos t) (velax e))
               (length (velax e)) (theta e) (spectra e)
               (fun t => length_map _ _) Hrect).
    apply Permutation_refl.
  - rewrite Hx. exact Hvp.
  - rewrite Hx, Hy. reflexivity.
Qed.

(** On angles in strictly increasing order and rows of positive sum, the
    default constructor stores its input as it is. *)
Lemma init_stores_input sp0 th0 vx sw e :
  init sp0 th0 vx sw true true = Ok e ->
  argsort_spec th0 (np_argsort th0) ->
  StronglySorted (fun a b => (a <? b) = true) th0 ->
  Forall (fun row => (0 <? np_sum row) = true) sp0 ->
  theta e = th0 /\ spectra e = sp0 /\ length th0 = length sp0.
Proof.
  intros H Hspec Hinc Hpos.
  destruct (init_inv _ _ _ _ _ _ _ _ _ _ _ _ H)
    as (th1 & sp1 & [Hs Ht] & (L1 & L2 & Hte & Hse) & _).
  rewrite (SortedInput.argsort_of_increasing th0 _ Hinc Hspec) in Hs, Ht.
  rewrite SortedInput.take_seq in Ht. injection Ht as <-.
  rewrite L1 in Hs. rewrite SortedInput.take_seq in Hs. injection Hs as <-.
  rewrite Hte, Hse.
  rewrite (SortedInput.select_all _ sp0 th0 L1 Hpos).
  rewrite (SortedInput.select_all _ sp0 sp0 eq_refl Hpos).
  repeat split. exact L1.
Qed.

(** X2.  Built with [remove_empty] and [sort_spectra] off from as many
    angles as spectra, each spectrum on the channels of the velocity axis,
    the ensemble deprojects without error at every velocity: the merged
    cloud has one point per angle and channel, its coordinates ascend, and
    its points are the samples of the ensemble, each shifted coordinate with
    the intensity of its own angle and channel. *)
Theorem plain_ensemble_deprojects sp0 th0 vx sw e vrot :
  init sp0 th0 vx sw false false = Ok e ->
  (forall a, argsort_spec a (np_argsort a)) ->
  length th0 = length sp0 ->
  Forall (fun row => length row = length vx) sp0 ->
  exists x y,
    deproj e vrot (RBool false) = Ok (x, y) /\
    np_sorted x /\
    Permutation (combine x y) (tagged_samples np_cos e vrot) /\
    length x = (length sp0 * length vx)%nat /\
    length y = length x.
Proof.
  intros H Hspec Hlen Hrect.
  destruct (init_inv _ _ _ _ _ _ _ _ _ _ _ _ H)
    as (th1 & sp1 & [-> ->] & [Ht Hs] & Hflat & Hvx & _).
  rewrite <- Hs, <- Hvx.
  apply cloud_of_flat.
  - rewrite Hflat, Hs. reflexivity.
  - rewrite Ht, Hs. exact Hlen.
  - rewrite Hs, Hvx. exact Hrect.
  - exact Hspec.
Qed.

(** X3.  With the default options, on angles given in strictly increasing
    order with spectra of positive sum on the channels of the velocity
    axis, the constructor stores the angles and the spectra as given, and
    the ensemble deprojects without error at every velocity: the merged
    cloud has one point per angle and channel, its coordinates ascend, and
    its points are the samples of the stored ensemble. *)
Theorem sorted_positive_input_deprojects sp0 th0 vx sw e vrot :
  init sp0 th0 vx sw true true = Ok e ->
  (forall a, argsort_spec a (np_argsort a)) ->
  StronglySorted (fun a b => (a <? b) = true) th0 ->
  Forall (fun row => (0 <? np_sum row) = true) sp0 ->
  Forall (fun row => length row = length vx) sp0 ->
  theta e = th0 /\ spectra e = sp0 /\
  exists x y,
    deproj e vrot (RBool false) = Ok (x, y) /\
    np_sorted x /\
    Permutation (combine x y) (tagged_samples np_cos e vrot) /\
    length x = (length sp0 * length vx)%nat /\
    length y = length x.
Proof.
  intros H Hspec Hinc Hpos Hrect.
  destruct (init_stores_input _ _ _ _ _ H (Hspec th0) Hinc Hpos) as (Ht & Hs & Hlen).
  destruct (init_inv _ _ _ _ _ _ _ _ _ _ _ _ H)
    as (_ & _ & _ & _ & Hflat & Hvx & _).
  split; [exact Ht|]. split; [exact Hs|].
  rewrite <- Hs, <- Hvx.
  apply cloud_of_flat.
  - rewrite Hflat, Hs. reflexivity.
  - rewrite Ht, Hs. exact Hlen.
  - rewrite Hs, Hvx. exact Hrect.
  - exact Hspec.
Qed.

End WellFormed.

(** X2 on two spectra given in descending order of angle and kept so. *)
Lemma plain_ensemble_deprojects_witness :
  exists e x y,
    __init__ Run.argsort_stable Run.sum_seq Run.degrees_0_pi Run.mod_small
      Run.percentile_m1_1 [[1; 2; 3]; [4; 5; 6]] [pi; 0] [-1; 0; 1]
      true false false = Ok e /\
    deprojected_spectrum Run.argsort_stable Run.cos_0_pi Run.no_binning
      e 10 (RBool false) = Ok (x, y) /\
    np_sorted x /\
    Permutation (combine x y) (tagged_samples Run.cos_0_pi e 10) /\
    length x = 6%nat.
Proof.
  eexists.
  assert (Hrect : Forall (fun row : list float => length row = length [-1; 0; 1]%float)
                    [[1; 2; 3]; [4; 5; 6]]%float) by (repeat constructor).
  destruct (plain_ensemble_deprojects
              Run.argsort_stable Run.sum_seq Run.cos_0_pi Run.degrees_0_pi
              Run.mod_small Run.percentile_m1_1 Run.no_binning
              [[1; 2; 3]; [4; 5; 6]]%float [pi; 0]%float [-1; 0; 1]%float true _ 10%float
              eq_refl SortFacts.argsort_stable_spec eq_refl Hrect)
    as (x & y & Hd & Hs & Hp & Hx & _).
  exists x, y. repeat split; assumption.
Defined.

(** X3 on two spectra given in ascending order of angle. *)
Lemma sorted_positive_input_deprojects_witness :
  exists e x y,
    __init__ Run.argsort_stable Run.sum_seq Run.degrees_0_pi Run.mod_small
      Run.percentile_m1_1 [[1; 2; 3]; [4; 5; 6]] [0; pi] [-1; 0; 1]
      true true true = Ok e /\
    spectra e = [[1; 2; 3]; [4; 5; 6]]%float /\
    deprojected_spectrum Run.argsort_stable Run.cos_0_pi Run.no_binning
      e 10 (RBool false) = Ok (x, y) /\
    Permutation (combine x y) (tagged_samples Run.cos_0_pi e 10).
Proof.
  eexists.
  assert (Hrect : Forall (fun row : list float => length row = length [-1; 0; 1]%float)
                    [[1; 2; 3]; [4; 5; 6]]%float) by (repeat constructor).
  assert (Hpos : Forall (fun row => (0 <? Run.sum_seq row)%float = true)
                   [[1; 2; 3]; [4; 5; 6]]%float) by (repeat constructor).
  assert (Hinc : StronglySorted (fun a b => (a <? b)%float = true) [0; pi]%float)
    by (repeat constructor).
  destruct (sorted_positive_input_deprojects
              Run.argsort_stable Run.sum_seq Run.cos_0_pi Run.degrees_0_pi
              Run.mod_small Run.percentile_m1_1 Run.no_binning
              [[1; 2; 3]; [4; 5; 6]]%float [0; pi]%float [-1; 0; 1]%float true _ 10%float
              eq_refl SortFacts.argsort_stable_spec Hinc Hpos Hrect)
    as (_ & Hsp & x & y & Hd & _ & Hp & _).
  exists x, y. repeat split; assumption.
Defined.

(* ================================================================= *)
(** ** What the constructor refuses and what it keeps *)

Module KeepFacts.

Lemma select_none {A B} (f : B -> bool) (l : list B) (a : list A) :
  Forall (fun y => f y = false) l -> Np.select a (map f l) = [].
Proof.
  intros Hall. revert a. induction Hall as [|y l Hy _ IH]; intros [|x a]; simpl;
    try reflexivity.
  rewrite Hy. apply IH.
Qed.

(** Selecting the entries by a test of their second component is
    filtering them. *)
Lemma select_pairs {A B} (f : B -> bool) (a : list A) (b : list B) :
  length a = length b ->
  combine (Np.select a (map f b)) (Np.select b (map f b))
  = filter (fun p => f (snd p)) (combine a b).
Proof.
  revert b. induction a as [|x a IH]; intros [|y b] H; simpl in *;
    try reflexivity; try discriminate.
  injection H as H. destruct (f y); simpl; rewrite (IH b H); reflexivity.
Qed.

End KeepFacts.

Section Refusals.

Open Scope float_scope.

Variable np_argsort : list float -> list nat.
Variable np_sum : list float -> float.
Variable np_degrees : float -> float.
Variable np_mod : float -> float -> float.
Variable np_percentile : list float -> list float -> list float.

Local Notation init :=
  (__init__ np_argsort np_sum np_degrees np_mod np_percentile).

(** X4.  With [remove_empty] on, as many angles as spectra and no spectrum
    whose sum is greater than 0.0 (all zero, negative, or holding a
    not-a-number; an empty input too), the constructor raises its "No finite
    spectra" error, whatever the velocity axis. *)
Theorem no_positive_row_refused sp0 th0 vx sw so :
  (so = true -> argsort_spec th0 (np_argsort th0)) ->
  length th0 = length sp0 ->
  Forall (fun row => (0 <? np_sum row) = false) sp0 ->
  init sp0 th0 vx sw true so
  = Raise (ValueError "No finite spectra. Check for NaNs.").
Proof.
  intros Hspec Hlen Hnone. unfold __init__.
  assert (H1 : exists th1 sp1,
             (if so
              then sp <- Np.take sp0 (np_argsort th0) ;;
                   th <- Np.take th0 (np_argsort th0) ;; Ok (th, sp)
              else Ok (th0, sp0)) = Ok (th1, sp1) /\
             length th1 = length sp0 /\ length sp1 = length sp0).
  { destruct so.
    - destruct (Hspec eq_refl) as [Hperm _].
      assert (Hperm' : Permutation (np_argsort th0) (seq 0 (length sp0)))
        by (rewrite <- Hlen; exact Hperm).
      destruct (NpFacts.take_all nan th0 _ Hperm) as [Ht _].
      destruct (NpFacts.take_all [] sp0 _ Hperm') as [Hs _].
      eexists. eexists. rewrite Hs, Ht. simpl. split; [reflexivity|].
      rewrite !length_map, (Permutation_length Hperm), length_seq. split; auto.
    - exists th0, sp0. repeat split. exact Hlen. }
  destruct H1 as (th1 & sp1 & -> & L1 & L2). simpl Py.bind.
  unfold Np.mask. rewrite !length_map, L1, L2, Nat.eqb_refl. simpl Py.bind.
  rewrite (KeepFacts.select_none _ sp0 th1 Hnone). reflexivity.
Qed.

(** X5.  An ensemble the constructor returns has at least one angle and a
    velocity axis of at least two channels, stored as given; its channel
    width is the first difference of the axis and its range reaches half a
    channel beyond the first and the last velocity.  On an axis of fewer
    than two channels the constructor returns nothing. *)
Theorem constructed_ensemble_shape sp0 th0 vx sw re so e :
  __init__ np_argsort np_sum np_degrees np_mod np_percentile sp0 th0 vx sw re so
  = Ok e ->
  (1 <= length (theta e))%nat /\
  (2 <= length vx)%nat /\
  velax e = vx /\
  channel e = nth 1 vx nan - nth 0 vx nan /\
  velax_range e
  = (nth 0 vx nan - 0.5 * channel e, last vx nan + 0.5 * channel e) /\
  (re = true -> length (theta e) = length (spectra e)).
Proof.
  intros H.
  destruct (init_inv _ _ _ _ _ _ _ _ _ _ _ _ H)
    as (th1 & sp1 & _ & H2 & _ & Hvx & Hn & Hc).
  destruct (init_velax_range _ _ _ _ _ _ _ _ _ _ _ _ H)
    as (v0 & v1 & rest & Hx & Hch & Hr).
  repeat split; try assumption.
  - rewrite Hch, Hx. reflexivity.
  - rewrite Hr, Hch, Hx. reflexivity.
  - intros ->. destruct H2 as (L1 & L2 & -> & ->).
    rewrite !NpFacts.select_length by assumption. reflexivity.
Qed.

(** X6.  With [remove_empty] on and [sort_spectra] off, the stored entries
    are the entries of the input whose spectrum has a sum greater than 0.0,
    in the order given, each angle with its own spectrum: every stored
    spectrum has a positive sum. *)
Theorem unsorted_keeps_positive_rows sp0 th0 vx sw e :
  __init__ np_argsort np_sum np_degrees np_mod np_percentile sp0 th0 vx sw true false
  = Ok e ->
  combine (theta e) (spectra e)
  = filter (fun p => 0 <? np_sum (snd p)) (combine th0 sp0) /\
  spectra e = filter (fun row => 0 <? np_sum row) sp0 /\
  Forall (fun row => (0 <? np_sum row) = true) (spectra e).
Proof.
  intros H.
  destruct (init_inv _ _ _ _ _ _ _ _ _ _ _ _ H)
    as (th1 & sp1 & [-> ->] & (L1 & _ & Ht & Hs) & _).
  assert (Hsel : forall l : list (list float),
             Np.select l (map (fun row => 0 <? np_sum row) l)
             = filter (fun row => 0 <? np_sum row) l).
  { induction l as [|row l IH]; simpl; [reflexivity|].
    destruct (0 <? np_sum row); rewrite IH; reflexivity. }
  repeat split.
  - rewrite Ht, Hs.
    exact (KeepFacts.select_pairs (fun row => 0 <? np_sum row) th0 sp0 L1).
  - rewrite Hs. apply Hsel.
  - rewrite Hs, Hsel. apply Forall_forall. intros row Hr.
    apply filter_In in Hr. exact (proj2 Hr).
Qed.

End Refusals.

(** X4 on an all-zero row and a row of sum -1. *)
Lemma no_positive_row_refused_witness :
  __init__ Run.argsort_stable Run.sum_seq Run.degrees_0_pi Run.mod_small
    Run.percentile_m1_1 [[0; 0; 0]; [-1; 0; 0]] [0; pi] [-1; 0; 1]
    true true true
  = Raise (ValueError "No finite spectra. Check for NaNs.").
Proof.
  apply no_positive_row_refused.
  - intros _. apply SortFacts.argsort_stable_spec.
  - reflexivity.
  - repeat constructor.
Defined.

(** X5 on one spectrum on three channels. *)
Lemma constructed_ensemble_shape_witness :
  exists e,
    __init__ Run.argsort_stable Run.sum_seq Run.degrees_0_pi Run.mod_small
      Run.percentile_m1_1 [[1; 2; 1]] [0] [-1; 0; 1] true true true = Ok e /\
    channel e = 1%float /\ velax_range e = (-1.5, 1.5)%float.
Proof.
  eexists. split; [reflexivity|].
  destruct (constructed_ensemble_shape
              Run.argsort_stable Run.sum_seq Run.degrees_0_pi Run.mod_small
              Run.percentile_m1_1 [[1; 2; 1]]%float [0]%float [-1; 0; 1]%float
              true true true _ eq_refl) as (_ & _ & _ & Hc & Hr & _).
  split; [exact Hc | exact Hr].
Defined.

(** X6 on a row of sum -1 followed by a row of sum 4. *)
Lemma unsorted_keeps_positive_rows_witness :
  exists e,
    __init__ Run.argsort_stable Run.sum_seq Run.degrees_0_pi Run.mod_small
      Run.percentile_m1_1 [[-1; 0; 0]; [1; 2; 1]] [pi; 0] [-1; 0; 1]
      true true false = Ok e /\
    combine (theta e) (spectra e) = [(0, [1; 2; 1])]%float.
Proof.
  eexists. split; [reflexivity|].
  exact (proj1 (unsorted_keeps_positive_rows
                  Run.argsort_stable Run.sum_seq Run.degrees_0_pi Run.mod_small
                  Run.percentile_m1_1 [[-1; 0; 0]; [1; 2; 1]]%float [pi; 0]%float
                  [-1; 0; 1]%float true _ eq_refl)).
Defined.

(* ================================================================= *)
(** ** Peak velocities by method *)

Module MethodFacts.

Lemma lower_ascii_twice (c : ascii) :
  lower_ascii (lower_ascii c) = lower_ascii c.
Proof. destruct c as [[] [] [] [] [] [] [] []]; reflexivity. Qed.

Lemma lower_twice (s : string) : lower (lower s) = lower s.
Proof.
  induction s as [|c s IH]; simpl; [reflexivity|].
  rewrite lower_ascii_twice, IH. reflexivity.
Qed.

End MethodFacts.

Section Peaks.

Open Scope float_scope.

Variable np_exp : float -> float.
Variable np_power : float -> float -> float.
Variable np_max : list float -> result float.
Variable np_trapz : list float -> list float -> float.
Variable curve_fit :
  (float -> list float -> float) -> list float -> list float ->
  option (list float) -> list float ->
  result (list float * list (list float)).
Variable quadratic : list float -> float -> float -> result float.

Local Notation peaks :=
  (peak_velocities np_exp np_power np_max np_trapz curve_fit quadratic).

(** X7.  The method name of [peak_velocities] is read without regard to
    case, and a name that is none of 'max', 'quadratic' and 'gaussian'
    raises the method error, on every ensemble. *)
Theorem peak_velocities_method_name (e : ensemble) (method : string) :
  peaks e method = peaks e (lower method) /\
  (lower method <> "max"%string -> lower method <> "quadratic"%string ->
   lower method <> "gaussian"%string ->
   peaks e method
   = Raise (ValueError "method is not 'max', 'gaussian' or 'quadratic'.")).
Proof.
  split.
  - unfold peak_velocities. rewrite MethodFacts.lower_twice. reflexivity.
  - intros H1 H2 H3. unfold peak_velocities.
    apply String.eqb_neq in H1, H2, H3. rewrite H1, H2, H3. reflexivity.
Qed.

(** X8.  With the method 'max' and spectra on the channels of the velocity
    axis, [peak_velocities] returns one velocity per stored spectrum: the
    channel velocity at the index [np.argmax] gives for that spectrum. *)
Theorem peak_velocities_max_channels (e : ensemble) (method : string) :
  lower method = "max"%string ->
  (1 <= length (velax e))%nat ->
  Forall (fun row => length row = length (velax e)) (spectra e) ->
  exists vmax,
    peaks e method = Ok vmax /\
    Forall2 (fun row v => exists i, Np.argmax row = Ok i /\
                                    nth_error (velax e) i = Some v)
            (spectra e) vmax.
Proof.
  intros Hm Hc Hrect. unfold peak_velocities. rewrite Hm. simpl String.eqb. cbv iota.
  induction Hrect as [|row rows Hrow _ IH]; simpl.
  - exists []. split; [reflexivity | constructor].
  - destruct IH as (vmax & Hv & Hf).
    destruct (Np.argmax row) as [i|] eqn:Ha;
      [|destruct row; simpl in *; [lia | discriminate]].
    pose proof (NpFacts.argmax_lt _ _ Ha) as Hi. rewrite Hrow in Hi.
    destruct (mapM Np.argmax rows) as [idxs|]; simpl in Hv; [|discriminate].
    simpl. unfold Np.item at 1.
    destruct (nth_error (velax e) i) as [v|] eqn:Hx;
      [|apply nth_error_None in Hx; lia].
    simpl. rewrite Hv. simpl. exists (v :: vmax). split; [reflexivity|].
    constructor; [|exact Hf]. exists i. split; [exact Ha | exact Hx].
Qed.

End Peaks.

(** X7 on an upper-case name and on a name that is no method. *)
Lemma peak_velocities_method_name_witness :
  let e := Build_ensemble [0] [[1; 2; 1]] [0] [1; 2; 1] [-1; 0; 1] 1
             (-1.5, 1.5) [-0.4; 0.4] in
  peak_velocities (fun x => x) (fun x _ => x) Run.max_seq Run.trapz_one
    Run.fit_fails (fun _ _ _ => Ok 0%float) e "MAX" = Ok [0%float] /\
  peak_velocities (fun x => x) (fun x _ => x) Run.max_seq Run.trapz_one
    Run.fit_fails (fun _ _ _ => Ok 0%float) e "median"
  = Raise (ValueError "method is not 'max', 'gaussian' or 'quadratic'.").
Proof.
  intros e.
  destruct (peak_velocities_method_name (fun x => x) (fun x _ => x) Run.max_seq
              Run.trapz_one Run.fit_fails (fun _ _ _ => Ok 0%float) e "MAX")
    as [Hcase _].
  destruct (peak_velocities_method_name (fun x => x) (fun x _ => x) Run.max_seq
              Run.trapz_one Run.fit_fails (fun _ _ _ => Ok 0%float) e "median")
    as [_ Hbad].
  split.
  - rewrite Hcase. reflexivity.
  - apply Hbad; discriminate.
Defined.

(** X8 on one spectrum whose largest sample is in the middle channel. *)
Lemma peak_velocities_max_channels_witness :
  let e := Build_ensemble [0] [[1; 2; 1]] [0] [1; 2; 1] [-1; 0; 1] 1
             (-1.5, 1.5) [-0.4; 0.4] in
  exists vmax,
    peak_velocities (fun x => x) (fun x _ => x) Run.max_seq Run.trapz_one
      Run.fit_fails (fun _ _ _ => Ok 0%float) e "max" = Ok vmax /\
    Forall2 (fun row v => exists i, Np.argmax row = Ok i /\
                                    nth_error (velax e) i = Some v)
            (spectra e) vmax.
Proof.
  intros e.
  apply peak_velocities_max_channels.
  - reflexivity.
  - simpl. lia.
  - repeat constructor.
Defined.

(* ================================================================= *)
(** ** The width of a Gaussian fit *)

Section Widths.

Open Scope float_scope.

Variable np_exp : float -> float.
Variable np_power : float -> float -> float.
Variable np_max : list float -> result float.
Variable np_trapz : list float -> list float -> float.
Variable curve_fit :
  (float -> list float -> float) -> list float -> list float ->
  option (list float) -> list float ->
  result (list float * list (list float)).

(** X9.  [_get_gaussian_width] returns its fill value, without raising,
    when the two arrays differ in size and when the fit raises; and
    whatever it returns is the fill value or a number that is not
    negative, never a not-a-number the fit produced. *)
Theorem gaussian_width_or_fill (x y : list float) (fill : float) :
  (length x <> length y ->
   _get_gaussian_width np_exp np_power np_max np_trapz curve_fit x y fill = Ok fill) /\
  ((forall f p0, exists err, curve_fit f x y None p0 = Raise err) ->
   _get_gaussian_width np_exp np_power np_max np_trapz curve_fit x y fill = Ok fill) /\
  (forall w,
      _get_gaussian_width np_exp np_power np_max np_trapz curve_fit x y fill = Ok w ->
      w = fill \/ (is_nan w = false /\ (0 <=? w) = true)).
Proof.
  repeat split.
  - intros H. unfold _get_gaussian_width, _fit_gaussian, _get_p0_gaussian.
    apply Nat.eqb_neq in H. rewrite H. reflexivity.
  - intros H. unfold _get_gaussian_width, _fit_gaussian.
    destruct (_get_p0_gaussian np_max np_trapz x y) as [p0|]; [|reflexivity].
    simpl Py.bind.
    destruct (H (fun x p => _gaussian np_exp np_power x (nth 0 p nan) (nth 1 p nan)
                              (nth 2 p nan)) p0) as [err ->].
    reflexivity.
  - intros w. unfold _get_gaussian_width.
    destruct (Np.item (fst (_fit_gaussian np_exp np_power np_max np_trapz curve_fit
                              x y None)) 1) as [dV|]; simpl; [|discriminate].
    unfold Np.isfinite. destruct (is_finite dV) eqn:Hf; intros H; injection H as <-.
    + right. exact (FloatMore.abs_finite dV Hf).
    + left. reflexivity.
Qed.

End Widths.

(** X9 on arrays of different sizes and on a fit that raises. *)
Lemma gaussian_width_or_fill_witness :
  _get_gaussian_width (fun x => x) (fun x _ => x) Run.max_seq Run.trapz_one
    Run.fit_fails [-1; 0; 1] [3; 1] 1e50 = Ok 1e50%float /\
  _get_gaussian_width (fun x => x) (fun x _ => x) Run.max_seq Run.trapz_one
    Run.fit_fails [-1; 0; 1] [3; 1; 0] 1e50 = Ok 1e50%float.
Proof.
  split.
  - apply (proj1 (gaussian_width_or_fill (fun x => x) (fun x _ => x) Run.max_seq
                    Run.trapz_one Run.fit_fails [-1; 0; 1]%float [3; 1]%float
                    1e50%float)).
    simpl. discriminate.
  - apply (proj1 (proj2 (gaussian_width_or_fill (fun x => x) (fun x _ => x)
                           Run.max_seq Run.trapz_one Run.fit_fails
                           [-1; 0; 1]%float [3; 1; 0]%float 1e50%float))).
    intros f p0. eexists. reflexivity.
Defined.

(* ================================================================= *)
(** ** The negative log-likelihood *)

Module OppFacts.

Open Scope float_scope.

Lemma is_finite_intro (x : float) :
  (exists s, Prim2SF x = S754_zero s) \/
  (exists s m e, Prim2SF x = S754_finite s m e) ->
  is_finite x = true.
Proof.
  intros H. unfold is_finite. apply negb_true_iff, orb_false_iff. split.
  - apply FloatFacts.is_nan_spec.
    destruct H as [[s ->] | [s [m [e ->]]]]; discriminate.
  - unfold is_infinity. rewrite eqb_spec, abs_spec.
    change (Prim2SF infinity) with (S754_infinity false).
    destruct H as [[s ->] | [s [m [e ->]]]]; reflexivity.
Qed.

(** The opposite of a finite value is finite. *)
Lemma opp_finite (x : float) : is_finite x = true -> is_finite (- x) = true.
Proof.
  intros H. apply is_finite_intro. rewrite opp_spec.
  destruct (FloatFacts.is_finite_spec x H) as [[s ->] | [s [m [e ->]]]]; simpl.
  - left. eauto.
  - right. eauto.
Qed.

End OppFacts.

Section Likelihood.

Open Scope float_scope.

Variable np_argsort : list float -> list nat.
Variable np_cos : float -> float.
Variable binned_statistic :
  list float -> list float -> string -> Z -> float * float ->
  result (list float * list float).
Variable np_log : float -> float.
Variable np_nanmean : list float -> float.
Variable GP : Type.
Variable celerite_GP : float -> float -> float -> float -> GP.
Variable gp_compute : GP -> list float -> result GP.
Variable gp_log_likelihood : GP -> list float -> result float.

Local Notation lnlike :=
  (_lnlikelihood np_argsort np_cos binned_statistic np_log np_nanmean GP
     celerite_GP gp_compute gp_log_likelihood).
Local Notation nll :=
  (_negative_lnlikelihood np_argsort np_cos binned_statistic np_log np_nanmean
     GP celerite_GP gp_compute gp_log_likelihood).

(** The value of the negative log-likelihood, from that of the
    likelihood. *)
Lemma nll_of_lnlike e theta resample s :
  nll e theta resample s
  = match lnlike e theta resample s with
    | (Ok ll, s') => (Ok (if is_finite (- ll) then - ll else 1e15), s')
    | (Raise err, s') => (Raise err, s')
    end.
Proof.
  unfold _negative_lnlikelihood, Mem.bind at 1.
  destruct (lnlike e theta resample s) as [[ll|err] s']; reflexivity.
Qed.

(** The likelihood is finite or negative infinity (stated anew for the
    wrappers). *)
Lemma lnlike_range e theta resample s ll s' :
  lnlike e theta resample s = (Ok ll, s') ->
  ll = neg_infinity \/ is_finite ll = true.
Proof.
  unfold _lnlikelihood, Mem.bind, Mem.log, Mem.lift, Mem.ret.
  destruct (_get_masked_spectra np_argsort np_cos binned_statistic e theta resample)
    as [[x y]|]; [|discriminate].
  destruct (_build_kernel np_log np_nanmean GP celerite_GP gp_compute x y theta)
    as [[gp|]|]; try discriminate.
  - destruct (gp_log_likelihood gp y) as [l|]; [|discriminate].
    intros H. injection H as <- _.
    unfold Np.isfinite. destruct (is_finite l) eqn:Hl; [right; exact Hl | left; reflexivity].
  - intros H. injection H as <- _. left. reflexivity.
Qed.

(** X10.  The three negative log-likelihood functions are one function of
    the recombined vector: the hyperparameter objective at [hyper] with
    [vrot] held, and the velocity objective at the one-element array
    [[vrot]] with [hyper] held, are the full objective at [vrot :: hyper].
    Whenever it returns, the value is finite: the sentinel 1e15 when the
    likelihood is negative infinity, the opposite of the likelihood
    otherwise. *)
Theorem negative_lnlikelihood_finite e vrot hyper resample s :
  _negative_lnlikelihood_hyper np_argsort np_cos binned_statistic np_log
    np_nanmean GP celerite_GP gp_compute gp_log_likelihood
    e hyper vrot resample s
  = nll e (vrot :: hyper) resample s /\
  _negative_lnlikelihood_vrot np_argsort np_cos binned_statistic np_log
    np_nanmean GP celerite_GP gp_compute gp_log_likelihood
    e [vrot] hyper resample s
  = nll e (vrot :: hyper) resample s /\
  (forall v s',
      nll e (vrot :: hyper) resample s = (Ok v, s') ->
      is_finite v = true /\
      exists ll,
        lnlike e (vrot :: hyper) resample s = (Ok ll, s') /\
        ((ll = neg_infinity /\ v = 1e15) \/ (is_finite ll = true /\ v = - ll))).
Proof.
  split; [reflexivity|]. split; [reflexivity|].
  intros v s'. rewrite nll_of_lnlike.
  destruct (lnlike e (vrot :: hyper) resample s) as [[ll|err] s1] eqn:Hl;
    [|discriminate].
  intros H. injection H as <- <-.
  destruct (lnlike_range _ _ _ _ _ _ Hl) as [->|Hf].
  - split; [reflexivity|]. exists neg_infinity. split; [reflexivity|].
    left. split; reflexivity.
  - rewrite (OppFacts.opp_finite ll Hf). split; [exact (OppFacts.opp_finite ll Hf)|].
    exists ll. split; [reflexivity|]. right. split; [exact Hf | reflexivity].
Qed.

End Likelihood.

(** X10 on one spectrum, at a vector of likelihood 5. *)
Lemma negative_lnlikelihood_finite_witness :
  let e := Build_ensemble [0] [[1; 2; 1]] [0] [1; 2; 1] [-1; 0; 1] 1
             (-1.5, 1.5) [-0.4; 0.4] in
  exists s',
    _negative_lnlikelihood Run.argsort_stable Run.cos_0_pi Run.no_binning
      (fun x => x) (fun a => hd 0%float a) float Run.gp_lnrho Run.gp_compute_ok
      Run.gp_loglike_lnrho e [1; 1; 0; 5] (RBool false) (mkState [] [])
    = (Ok (-5)%float, s') /\
    is_finite (-5) = true.
Proof.
  intros e. eexists.
  destruct (negative_lnlikelihood_finite
              Run.argsort_stable Run.cos_0_pi Run.no_binning (fun x => x)
              (fun a => hd 0%float a) float Run.gp_lnrho Run.gp_compute_ok
              Run.gp_loglike_lnrho e 1%float [1; 0; 5]%float (RBool false)
              (mkState [] [])) as (_ & _ & Hv).
  split; [reflexivity|].
  exact (proj1 (Hv (-5)%float _ eq_refl)).
Defined.

(* ================================================================= *)
(** ** The optimizer when no minimization converges *)

Section Unconverged.

Open Scope float_scope.

Variable np_argsort : list float -> list nat.
Variable np_cos : float -> float.
Variable binned_statistic :
  list float -> list float -> string -> Z -> float * float ->
  result (list float * list float).
Variable np_log : float -> float.
Variable np_nanmean : list float -> float.
Variable GP : Type.
Variable celerite_GP : float -> float -> float -> float -> GP.
Variable gp_compute : GP -> list float -> result GP.
Variable gp_log_likelihood : GP -> list float -> result float.
Variable minimize :
  (list float -> M float) -> list float ->
  list (option float * option float) -> kwargs_t -> M OptimizeResult.

Local Notation nll :=
  (_negative_lnlikelihood np_argsort np_cos binned_statistic np_log np_nanmean
     GP celerite_GP gp_compute gp_log_likelihood).
Local Notation iteration :=
  (optimize_iteration np_argsort np_cos binned_statistic np_log np_nanmean
     GP celerite_GP gp_compute gp_log_likelihood minimize).

(** The minimizer reports failure on every call and writes to no array. *)
Hypothesis never_converges :
  forall f x0 bounds kwargs s,
  exists r s',
    minimize f x0 bounds kwargs s = (Ok r, s') /\
    res_success r = false /\ heap s' = heap s.

(** A likelihood call leaves the arrays alone. *)
Lemma nll_keeps_heap e theta resample s :
  heap (snd (nll e theta resample s)) = heap s.
Proof.
  unfold _negative_lnlikelihood, _lnlikelihood, Mem.bind, Mem.log, Mem.lift,
    Mem.ret.
  destruct (_get_masked_spectra np_argsort np_cos binned_statistic e theta resample)
    as [[x y]|]; [|reflexivity].
  destruct (_build_kernel np_log np_nanmean GP celerite_GP gp_compute x y theta)
    as [[gp|]|]; try reflexivity.
  destruct (gp_log_likelihood gp y); reflexivity.
Qed.

(** A likelihood that returns was given a vector with a first entry. *)
Lemma nll_ok_nonempty e theta resample s v s' :
  nll e theta resample s = (Ok v, s') -> theta <> [].
Proof.
  intros H ->. unfold _negative_lnlikelihood, _lnlikelihood, Mem.bind, Mem.log,
    Mem.lift in H. simpl in H. discriminate.
Qed.

Lemma iteration_unconverged e resample kwargs (p0 : ref) (nlnL : float) s :
  nth p0 (heap s) [] <> [] ->
  exists s',
    iteration e resample kwargs (p0, nlnL) s = (Ok (p0, nlnL), s') /\
    heap s' = heap s.
Proof.
  intros Hne. pose proof never_converges as Hfail.
  unfold optimize_iteration, Mem.bind, Mem.read, Mem.lift, Mem.ret.
  destruct (nth p0 (heap s) []) as [|v0 rest] eqn:Hp; [contradiction|].
  change (Np.item (v0 :: rest) 0) with (Ok v0). cbv iota.
  match goal with |- context [minimize ?f ?x ?b ?k ?st] =>
    destruct (Hfail f x b k st) as (r1 & s1 & -> & -> & H1) end.
  rewrite H1, Hp.
  change (Np.item (v0 :: rest) 0) with (Ok v0). cbv iota.
  match goal with |- context [minimize ?f ?x ?b ?k ?st] =>
    destruct (Hfail f x b k st) as (r2 & s2 & -> & -> & H2) end.
  rewrite H2, H1, Hp.
  match goal with |- context [minimize ?f ?x ?b ?k ?st] =>
    destruct (Hfail f x b k st) as (r3 & s3 & -> & -> & H3) end.
  exists s3. split; [reflexivity|]. rewrite H3, H2, H1. reflexivity.
Qed.

Lemma iterate_unconverged e resample kwargs (p0 : ref) (nlnL : float) n s :
  nth p0 (heap s) [] <> [] ->
  exists s',
    iterate n (iteration e resample kwargs) (p0, nlnL) s = (Ok (p0, nlnL), s') /\
    heap s' = heap s.
Proof.
  revert s. induction n as [|n IH]; intros s Hne; cbn [iterate].
  - exists s. split; reflexivity.
  - destruct (iteration_unconverged e resample kwargs p0 nlnL s Hne)
      as (s1 & H1 & Hh1).
    unfold Mem.bind. rewrite H1.
    destruct (IH s1) as (s2 & H2 & Hh2); [rewrite Hh1; exact Hne|].
    exists s2. split; [exact H2 | rewrite Hh2; exact Hh1].
Qed.

(** X11.  When no minimization reports success, [_optimize_p0] returns the
    array it was given, with its contents as they were, after any number of
    iterations, zero included (as the docstring has it: if the minimizer
    does not converge, p0 is not updated). *)
Theorem unconverged_optimizer_returns_input e (p0 : ref) N resample kwargs s v s0 n :
  nll e (nth p0 (heap s) []) resample s = (Ok v, s0) ->
  py_int N = Ok n ->
  exists s',
    _optimize_p0 np_argsort np_cos binned_statistic np_log np_nanmean GP
      celerite_GP gp_compute gp_log_likelihood minimize
      e p0 N resample kwargs s = (Ok p0, s') /\
    heap s' = heap s.
Proof.
  intros Hnll Hn.
  pose proof (nll_ok_nonempty _ _ _ _ _ _ Hnll) as Hne.
  pose proof (nll_keeps_heap e (nth p0 (heap s) []) resample s) as Hh0.
  rewrite Hnll in Hh0. simpl in Hh0.
  unfold _optimize_p0, Mem.bind at 1, Mem.read.
  unfold Mem.bind at 1. rewrite Hnll.
  unfold Mem.bind at 1, Mem.lift. rewrite Hn.
  match goal with |- context [iterate _ (iteration _ _ ?k) _] => set (kw := k) end.
  destruct (iterate_unconverged e resample kw p0 v (Z.to_nat n) s0)
    as (s' & Hit & Hh); [rewrite Hh0; exact Hne|].
  exists s'. split; [|rewrite Hh; exact Hh0].
  unfold Mem.bind, Mem.ret. rewrite Hit. reflexivity.
Qed.

End Unconverged.

(** X11 on three iterations with a minimizer that never converges. *)
Lemma unconverged_optimizer_returns_input_witness :
  let e := Build_ensemble [0] [[1; 2; 1]] [0] [1; 2; 1] [-1; 0; 1] 1
             (-1.5, 1.5) [-0.4; 0.4] in
  exists s',
    _optimize_p0 Run.argsort_stable Run.cos_0_pi Run.no_binning (fun x => x)
      (fun a => hd 0%float a) float Run.gp_lnrho Run.gp_compute_ok
      Run.gp_loglike_lnrho Run.minimize_fails
      e 0%nat (RInt 3) (RBool false) [] (mkState [[1; 1; 0; 5]] [])
    = (Ok 0%nat, s') /\
    heap s' = [[1; 1; 0; 5]]%float.
Proof.
  intros e.
  refine (unconverged_optimizer_returns_input
            Run.argsort_stable Run.cos_0_pi Run.no_binning (fun x => x)
            (fun a => hd 0%float a) float Run.gp_lnrho Run.gp_compute_ok
            Run.gp_loglike_lnrho Run.minimize_fails _
            e 0%nat (RInt 3) (RBool false) [] (mkState [[1; 1; 0; 5]%float] [])
            (-5)%float _ 3%Z _ eq_refl).
  - intros f x0 bounds kwargs s. eexists. eexists.
    split; [reflexivity|]. split; reflexivity.
  - reflexivity.
Defined.

(* ================================================================= *)
(** ** The jittered starting positions *)

Module JitterFacts.

Lemma reshape_shape {A} (rows cols : nat) (a : list A) :
  length a = (rows * cols)%nat ->
  length (reshape rows cols a) = rows /\
  Forall (fun row => length row = cols) (reshape rows cols a).
Proof.
  revert a. induction rows as [|rows IH]; intros a H; simpl.
  - split; [reflexivity | constructor].
  - destruct (IH (skipn cols a)) as [Hl Hf].
    + rewrite length_skipn. simpl in H. lia.
    + split; [rewrite Hl; reflexivity|].
      constructor; [|exact Hf]. rewrite length_firstn. simpl in H. lia.
Qed.

End JitterFacts.

Section Jitter.

Open Scope float_scope.

Variable randn : nat -> list float.

(** [np.random.randn(n)] returns [n] numbers. *)
Hypothesis randn_size : forall n, length (randn n) = n.

(** X12.  [_randomize_p0] returns one row per walker, each with one entry
    per parameter. *)
Theorem randomize_p0_shape (p0 : list float) (nwalkers : nat) (scatter : float) :
  length (_randomize_p0 randn p0 nwalkers scatter) = nwalkers /\
  Forall (fun row => length row = length p0)
         (_randomize_p0 randn p0 nwalkers scatter).
Proof.
  unfold _randomize_p0.
  destruct (JitterFacts.reshape_shape nwalkers (length p0)
              (randn (nwalkers * length p0)) (randn_size _)) as [Hl Hf].
  split.
  - rewrite !length_map. exact Hl.
  - apply Forall_map, Forall_map.
    eapply Forall_impl; [|exact Hf]. intros row Hrow. simpl.
    rewrite length_map, length_combine, length_map, length_combine, length_map, Hrow.
    lia.
Qed.

(** A not-a-number parameter is a not-a-number in the row of a walker. *)
Lemma jitter_keeps_nan (p0 row : list float) (scatter : float) :
  length row = length p0 ->
  existsb is_nan p0 = true ->
  existsb Np.isnan
    (map (fun pd => if fst pd =? 0 then snd pd - 1 else snd pd)
       (combine p0
          (map (fun bd => fst bd * (1 + scatter * snd bd))
             (combine (map (fun p => if p =? 0 then 1 else p) p0) row))))
  = true.
Proof.
  revert row. induction p0 as [|p p0 IH]; intros [|d row] Hlen Hn; simpl in *;
    try discriminate.
  injection Hlen as Hlen. apply orb_true_iff in Hn. apply orb_true_iff.
  destruct Hn as [Hp|Hn].
  - left. rewrite (FloatMore.eqb_nan_l p 0 Hp).
    unfold Np.isnan. apply FloatMore.mul_nan_l. exact Hp.
  - right. exact (IH row Hlen Hn).
Qed.

(** A not-a-number anywhere in the starting vector is a not-a-number in
    the jittered positions of the first walker, whatever numbers are
    drawn. *)
Lemma nan_parameter_reaches_walkers (p0 : list float) (nwalkers : nat)
    (scatter : float) :
  (1 <= nwalkers)%nat ->
  existsb is_nan p0 = true ->
  Np.any_isnan (_randomize_p0 randn p0 nwalkers scatter) = true.
Proof.
  intros Hw Hn. unfold _randomize_p0, Np.any_isnan.
  destruct nwalkers as [|n]; [lia|].
  cbn [reshape map existsb]. apply orb_true_iff. left.
  apply jitter_keeps_nan; [|exact Hn].
  rewrite length_firstn, randn_size. simpl. lia.
Qed.

End Jitter.

(** X12 on two walkers and four parameters. *)
Lemma randomize_p0_shape_witness :
  length (_randomize_p0 Run.randn_half [1; 1; 0; 0] 2 1e-3) = 2%nat /\
  Forall (fun row => length row = 4%nat)
         (_randomize_p0 Run.randn_half [1; 1; 0; 0] 2 1e-3).
Proof.
  apply (randomize_p0_shape Run.randn_half).
  intros n. apply repeat_length.
Defined.

(* ================================================================= *)
(** ** The driver on a starting vector with a not-a-number *)

Section NanStart.

Open Scope float_scope.

Variable np_argsort : list float -> list nat.
Variable np_cos : float -> float.
Variable np_exp : float -> float.
Variable np_power : float -> float -> float.
Variable np_max : list float -> result float.
Variable np_trapz : list float -> list float -> float.
Variable binned_statistic :
  list float -> list float -> string -> Z -> float * float ->
  result (list float * list float).
Variable curve_fit :
  (float -> list float -> float) -> list float -> list float ->
  option (list float) -> list float ->
  result (list float * list (list float)).
Variable quadratic : list float -> float -> float -> result float.
Variable np_log : float -> float.
Variable np_std : list float -> float.
Variable np_nanmean : list float -> float.
Variable np_min : list float -> result float.
Variable np_mean : list float -> float.
Variable np_percentile_axis0 : list (list float) -> list float -> list (list float).
Variable randn : nat -> list float.
Variable GP : Type.
Variable celerite_GP : float -> float -> float -> float -> GP.
Variable gp_compute : GP -> list float -> result GP.
Variable gp_log_likelihood : GP -> list float -> result float.
Variable minimize :
  (list float -> M float) -> list float ->
  list (option float * option float) -> kwargs_t -> M OptimizeResult.
Variable run_mcmc :
  nat -> nat -> (list float -> M float) -> list (list float) -> Z ->
  M (list (list (list float))).

(** [np.random.randn(n)] returns [n] numbers. *)
Hypothesis randn_size : forall n, length (randn n) = n.

(** X13.  Called with a reference velocity, without optimization and with
    a starting vector of four entries one of which is a not-a-number,
    [get_vrot_GP] raises its "NaNs in the p0 array" error, whatever numbers
    are drawn for the jitter: no likelihood is evaluated, the sampler is
    not run and no array is written. *)
Theorem nan_start_refused e v (r : ref) resample optimize nwalkers nburnin
    nsteps scatter return_all kwargs s a b c d :
  nth r (heap s) [] = [a; b; c; d] ->
  existsb is_nan [a; b; c; d] = true ->
  (1 <= nwalkers)%nat ->
  truthy optimize = false ->
  get_vrot_GP np_argsort np_cos np_exp np_power np_max np_trapz
    binned_statistic curve_fit quadratic np_log np_std np_nanmean np_min
    np_mean np_percentile_axis0 randn GP celerite_GP gp_compute
    gp_log_likelihood minimize run_mcmc
    e (Some (VNumber v)) (Some r) resample optimize nwalkers nburnin nsteps
    scatter return_all kwargs s
  = (Raise (ValueError "WARNING: NaNs in the p0 array."), s).
Proof.
  intros Hp Hn Hw Ho.
  pose proof (nan_parameter_reaches_walkers randn randn_size [a; b; c; d]
                nwalkers scatter Hw Hn) as Hany.
  unfold get_vrot_GP, get_vrot_GP_init, get_vrot_GP_sample.
  unfold Mem.bind, Mem.read, Mem.lift, Mem.ret, Mem.raise.
  do 3 (rewrite ?Hp, ?Ho; cbn -[_randomize_p0 Np.any_isnan]).
  rewrite ?Hp, Hany. reflexivity.
Qed.

End NanStart.

(** X13 on a vector whose noise is a not-a-number. *)
Lemma nan_start_refused_witness :
  let e := Build_ensemble [0] [[1; 2; 1]] [0] [1; 2; 1] [-1; 0; 1] 1
             (-1.5, 1.5) [-0.4; 0.4] in
  get_vrot_GP Run.argsort_stable Run.cos_0_pi (fun x => x) (fun x _ => x)
    Run.max_seq Run.trapz_one Run.no_binning Run.fit_fails
    (fun _ _ _ => Ok 0%float) (fun x => x) (fun a => hd 0%float a)
    (fun a => hd 0%float a) Run.max_seq (fun a => hd 0%float a)
    Run.percentile_const Run.randn_half float Run.gp_lnrho Run.gp_compute_ok
    Run.gp_loglike_lnrho Run.minimize_clip Run.mcmc_still
    e (Some (VNumber 1)) (Some 0%nat) (RBool false) (RBool false) 2%nat
    300%Z 300%Z 1e-3 false [] (mkState [[1; nan; 0; 0]] [])
  = (Raise (ValueError "WARNING: NaNs in the p0 array."),
     mkState [[1; nan; 0; 0]] []).
Proof.
  intros e.
  apply (nan_start_refused) with (a := 1) (b := nan) (c := 0) (d := 0).
  - intros n. apply repeat_length.
  - reflexivity.
  - reflexivity.
  - lia.
  - reflexivity.
Defined.

(* ================================================================= *)
(** ** The velocity window of the likelihood *)

Module WindowFacts.

Lemma select_filter {A} (f : A -> bool) (a : list A) :
  Np.select a (map f a) = filter f a.
Proof.
  induction a as [|x a IH]; simpl; [reflexivity|].
  destruct (f x); rewrite IH; reflexivity.
Qed.

(** Selecting two arrays by a test of the first is filtering the pairs. *)
Lemma select_by_first {A B} (f : A -> bool) (a : list A) (b : list B) :
  length a = length b ->
  combine (Np.select a (map f a)) (Np.select b (map f a))
  = filter (fun p => f (fst p)) (combine a b).
Proof.
  revert b. induction a as [|x a IH]; intros [|y b] H; simpl in *;
    try reflexivity; try discriminate.
  injection H as H. destruct (f x); simpl; rewrite (IH b H); reflexivity.
Qed.

Lemma select_same_length {A B} (a : list A) (b : list B) (m : list bool) :
  length a = length b -> length (Np.select a m) = length (Np.select b m).
Proof.
  revert b m. induction a as [|x a IH]; intros [|y b] [|c m] H; simpl in *;
    try reflexivity; try discriminate.
  injection H as H. destruct c; simpl; rewrite (IH b m H); reflexivity.
Qed.

End WindowFacts.

Section Window.

Open Scope float_scope.

Variable np_argsort : list float -> list nat.
Variable np_cos : float -> float.
Variable binned_statistic :
  list float -> list float -> string -> Z -> float * float ->
  result (list float * list float).

(** X14.  What [_get_masked_spectra] returns is the deprojected spectrum at
    [theta[0]] cut to the window of [velax_mask]: the deprojected arrays
    had one length, the points returned are the deprojected points whose
    coordinate lies between the two ends of the window, ends included, in
    the order they had and each with its own intensity; a point whose
    coordinate is a not-a-number is dropped, and coordinates in order stay
    in order. *)
Theorem masked_spectra_window e theta resample xm ym :
  _get_masked_spectra np_argsort np_cos binned_statistic e theta resample
  = Ok (xm, ym) ->
  exists vrot x y lo hi,
    nth_error theta 0 = Some vrot /\
    deprojected_spectrum np_argsort np_cos binned_statistic e vrot resample
    = Ok (x, y) /\
    nth_error (velax_mask e) 0 = Some lo /\
    nth_error (velax_mask e) 1 = Some hi /\
    length x = length y /\
    combine xm ym
    = filter (fun p => (lo <=? fst p) && (fst p <=? hi)) (combine x y) /\
    length xm = length ym /\
    Forall (fun v => (lo <=? v) = true /\ (v <=? hi) = true /\ is_nan v = false) xm /\
    (np_sorted x -> np_sorted xm).
Proof.
  intros H. unfold _get_masked_spectra, Np.item in H.
  destruct (nth_error theta 0) as [vrot|] eqn:Hv; cbn [Py.bind] in H;
    [|discriminate].
  destruct (deprojected_spectrum np_argsort np_cos binned_statistic e vrot resample)
    as [[x y]|] eqn:Hd; cbn [Py.bind] in H; [|discriminate].
  destruct (nth_error (velax_mask e) 0) as [lo|] eqn:Hlo; cbn [Py.bind] in H;
    [|discriminate].
  destruct (nth_error (velax_mask e) 1) as [hi|] eqn:Hhi; cbn [Py.bind] in H;
    [|discriminate].
  unfold Np.mask in H. rewrite !length_map, Nat.eqb_refl in H. cbn [Py.bind] in H.
  destruct (Nat.eqb (length y) (length x)) eqn:Hl; cbn [Py.bind] in H;
    [|discriminate].
  apply Nat.eqb_eq in Hl. injection H as <- <-.
  exists vrot, x, y, lo, hi.
  split; [reflexivity|]. split; [exact Hd|]. split; [reflexivity|].
  split; [reflexivity|]. split; [symmetry; exact Hl|].
  split; [apply (WindowFacts.select_by_first (fun v => (lo <=? v) && (v <=? hi)));
          symmetry; exact Hl|].
  split; [apply WindowFacts.select_same_length; symmetry; exact Hl|].
  split.
  - rewrite (WindowFacts.select_filter (fun v => (lo <=? v) && (v <=? hi))).
    apply Forall_forall. intros v Hin. apply filter_In in Hin.
    destruct Hin as [_ Hin]. apply andb_prop in Hin. destruct Hin as [H1 H2].
    split; [exact H1|]. split; [exact H2|].
    destruct (is_nan v) eqn:Hn; [|reflexivity].
    rewrite (FloatMore.leb_nan_l v hi Hn) in H2. discriminate.
  - apply NpFacts.select_sorted.
Qed.

End Window.

(** X14 on one spectrum shifted by one channel: of the three deprojected
    points, the one at velocity 0 is inside the window. *)
Lemma masked_spectra_window_witness :
  let e := Build_ensemble [0] [[1; 2; 1]] [0] [1; 2; 1] [-1; 0; 1] 1
             (-1.5, 1.5) [-0.4; 0.4] in
  exists vrot x y lo hi,
    nth_error [1; 1; 0; 5] 0 = Some vrot /\
    deprojected_spectrum Run.argsort_stable Run.cos_0_pi Run.no_binning
      e vrot (RBool false) = Ok (x, y) /\
    nth_error (velax_mask e) 0 = Some lo /\
    nth_error (velax_mask e) 1 = Some hi /\
    length x = length y /\
    combine [0] [1]
    = filter (fun p => (lo <=? fst p) && (fst p <=? hi)) (combine x y) /\
    length [0] = length [1] /\
    Forall (fun v => (lo <=? v) = true /\ (v <=? hi) = true /\ is_nan v = false) [0] /\
    (np_sorted x -> np_sorted [0]).
Proof.
  intros e.
  apply (masked_spectra_window Run.argsort_stable Run.cos_0_pi Run.no_binning
           e [1; 1; 0; 5] (RBool false) [0] [1]).
  reflexivity.
Defined.

(* ================================================================= *)
(** ** An exception of the deprojection *)

Section Propagation.

Open Scope float_scope.

Variable np_argsort : list float -> list nat.
Variable np_cos : float -> float.
Variable np_exp : float -> float.
Variable np_power : float -> float -> float.
Variable np_max : list float -> result float.
Variable np_trapz : list float -> list float -> float.
Variable binned_statistic :
  list float -> list float -> string -> Z -> float * float ->
  result (list float * list float).
Variable curve_fit :
  (float -> list float -> float) -> list float -> list float ->
  option (list float) -> list float ->
  result (list float * list (list float)).
Variable np_log : float -> float.
Variable np_nanmean : list float -> float.
Variable GP : Type.
Variable celerite_GP : float -> float -> float -> float -> GP.
Variable gp_compute : GP -> list float -> result GP.
Variable gp_log_likelihood : GP -> list float -> result float.

(** X15.  No function between the deprojection and the sampler catches an
    exception: when [deprojected_spectrum] raises at a velocity, so do, with
    the same exception, [_get_masked_spectra], [_lnlikelihood],
    [_negative_lnlikelihood] and (where the prior is finite)
    [_lnprobability] at every parameter vector that starts with that
    velocity, and [get_deprojected_width] at that velocity, whatever its
    Gaussian fit would return. *)
Theorem deprojection_error_propagates e vrot rest resample err s :
  deprojected_spectrum np_argsort np_cos binned_statistic e vrot resample
  = Raise err ->
  let logged :=
    mkState (heap s) (trace s ++ [EvLnLikelihood (vrot :: rest) resample]) in
  _get_masked_spectra np_argsort np_cos binned_statistic e (vrot :: rest) resample
  = Raise err /\
  _lnlikelihood np_argsort np_cos binned_statistic np_log np_nanmean GP
    celerite_GP gp_compute gp_log_likelihood e (vrot :: rest) resample s
  = (Raise err, logged) /\
  _negative_lnlikelihood np_argsort np_cos binned_statistic np_log np_nanmean
    GP celerite_GP gp_compute gp_log_likelihood e (vrot :: rest) resample s
  = (Raise err, logged) /\
  (forall vref p,
      _lnprior (vrot :: rest) vref = Ok p -> is_finite p = true ->
      _lnprobability np_argsort np_cos binned_statistic np_log np_nanmean GP
        celerite_GP gp_compute gp_log_likelihood e (vrot :: rest) vref resample s
      = (Raise err, logged)) /\
  get_deprojected_width np_argsort np_cos np_exp np_power np_max np_trapz
    binned_statistic curve_fit e vrot resample
  = Raise err.
Proof.
  intros Hd logged.
  assert (Hm : _get_masked_spectra np_argsort np_cos binned_statistic e
                 (vrot :: rest) resample = Raise err).
  { unfold _get_masked_spectra.
    change (Np.item (vrot :: rest) 0) with (Ok vrot).
    cbn [Py.bind]. rewrite Hd. reflexivity. }
  assert (Hl : _lnlikelihood np_argsort np_cos binned_statistic np_log
                 np_nanmean GP celerite_GP gp_compute gp_log_likelihood
                 e (vrot :: rest) resample s = (Raise err, logged)).
  { unfold _lnlikelihood, Mem.bind, Mem.log, Mem.lift. rewrite Hm. reflexivity. }
  split; [exact Hm|]. split; [exact Hl|]. split; [|split].
  - unfold _negative_lnlikelihood, Mem.bind. rewrite Hl. reflexivity.
  - intros vref p Hp Hf. unfold _lnprobability, Mem.bind, Mem.lift.
    rewrite Hp. unfold Np.isfinite. rewrite Hf. cbn [negb]. exact Hl.
  - unfold get_deprojected_width. rewrite Hd. reflexivity.
Qed.

End Propagation.

(** X15 on an ensemble whose cached intensities are one short of its three
    samples. *)
Lemma deprojection_error_propagates_witness :
  let e := Build_ensemble [0] [[1; 2; 1]] [0] [1; 2] [-1; 0; 1] 1
             (-1.5, 1.5) [-0.4; 0.4] in
  _negative_lnlikelihood Run.argsort_stable Run.cos_0_pi Run.no_binning
    (fun x => x) (fun a => hd 0%float a) float Run.gp_lnrho Run.gp_compute_ok
    Run.gp_loglike_lnrho e [1; 1; 0; 5] (RBool false) (mkState [] [])
  = (Raise size_mismatch,
     mkState [] [EvLnLikelihood [1; 1; 0; 5] (RBool false)]) /\
  get_deprojected_width Run.argsort_stable Run.cos_0_pi (fun x => x)
    (fun x _ => x) Run.max_seq Run.trapz_one Run.no_binning Run.fit_fails
    e 1 (RBool false)
  = Raise size_mismatch.
Proof.
  intros e.
  destruct (deprojection_error_propagates
              Run.argsort_stable Run.cos_0_pi (fun x => x) (fun x _ => x)
              Run.max_seq Run.trapz_one Run.no_binning Run.fit_fails
              (fun x => x) (fun a => hd 0%float a) float Run.gp_lnrho
              Run.gp_compute_ok Run.gp_loglike_lnrho
              e 1%float [1; 0; 5]%float (RBool false) size_mismatch
              (mkState [] []) eq_refl) as (_ & _ & Hn & _ & Hw).
  split; [exact Hn | exact Hw].
Defined.

(* ================================================================= *)
(** ** Fits that raise *)

Module MapFacts.

Lemma mapM_ext {A B} (f g : A -> result B) (l : list A) :
  (forall a, f a = g a) -> mapM f l = mapM g l.
Proof.
  intros H. induction l as [|a l IH]; simpl; [reflexivity|].
  rewrite H, IH. reflexivity.
Qed.

(** Looking every index up as it is found returns what finding all the
    indices and looking them up together returns. *)
Lemma mapM_then_take {A} (f : A -> result nat) (x : list float) (rows : list A)
    (v : list float) :
  mapM (fun r => i <- f r ;; Np.item x i) rows = Ok v <->
  (idxs <- mapM f rows ;; Np.take x idxs) = Ok v.
Proof.
  revert v. induction rows as [|r rows IH]; intros v.
  - simpl. tauto.
  - cbn [mapM].
    destruct (f r) as [i|e1]; cbn [Py.bind]; [|split; discriminate].
    destruct (mapM f rows) as [idxs|e2] eqn:Hm; cbn [Py.bind Np.take].
    + destruct (Np.item x i) as [xi|e3]; cbn [Py.bind]; [|split; discriminate].
      destruct (mapM (fun r0 => i0 <- f r0 ;; Np.item x i0) rows) as [vs|e4] eqn:Hg;
        destruct (Np.take x idxs) as [ws|e5] eqn:Ht; cbn [Py.bind].
      * specialize (IH vs). try rewrite Hm in IH. cbn [Py.bind] in IH.
        try rewrite Ht in IH. pose proof (proj1 IH eq_refl) as E.
        injection E as ->. tauto.
      * specialize (IH vs). try rewrite Hm in IH. cbn [Py.bind] in IH.
        try rewrite Ht in IH. pose proof (proj1 IH eq_refl). discriminate.
      * specialize (IH ws). try rewrite Hm in IH. cbn [Py.bind] in IH.
        try rewrite Ht in IH. pose proof (proj2 IH eq_refl). discriminate.
      * split; discriminate.
    + destruct (Np.item x i) as [xi|e3]; cbn [Py.bind]; [|split; discriminate].
      destruct (mapM (fun r0 => i0 <- f r0 ;; Np.item x i0) rows) as [vs|e4] eqn:Hg;
        cbn [Py.bind]; [|split; discriminate].
      specialize (IH vs). try rewrite Hm in IH. cbn [Py.bind] in IH.
      pose proof (proj1 IH eq_refl). discriminate.
Qed.

End MapFacts.

Section FailedFits.

Open Scope float_scope.

Variable np_cos : float -> float.
Variable np_exp : float -> float.
Variable np_power : float -> float -> float.
Variable np_max : list float -> result float.
Variable np_trapz : list float -> list float -> float.
Variable curve_fit :
  (float -> list float -> float) -> list float -> list float ->
  option (list float) -> list float ->
  result (list float * list (list float)).
Variable quadratic : list float -> float -> float -> result float.
Variable np_min : list float -> result float.
Variable np_mean : list float -> float.

(** [curve_fit] raises on every unweighted fit. *)
Hypothesis fit_raises :
  forall f x y p0, exists err, curve_fit f x y None p0 = Raise err.

(** With such a fit the Gaussian center is the velocity of the largest
    sample. *)
Lemma center_of_failing_fit (x y : list float) :
  _get_gaussian_center np_exp np_power np_max np_trapz curve_fit x y
  = (i <- Np.argmax y ;; Np.item x i).
Proof.
  unfold _get_gaussian_center, _fit_gaussian.
  destruct (_get_p0_gaussian np_max np_trapz x y) as [p0|]; cbn [Py.bind];
    [|reflexivity].
  match goal with
  | |- context [curve_fit ?f x y None p0] =>
      destruct (fit_raises f x y p0) as [err ->]
  end.
  reflexivity.
Qed.

(** X16.  When every Gaussian fit raises, [peak_velocities] with the method
    'gaussian' returns what the method 'max' returns, the channel velocity
    of the largest sample of each spectrum, and raises when 'max' does. *)
Theorem failed_fits_give_max_channels (e : ensemble) (method : string)
    (v : list float) :
  lower method = "gaussian"%string ->
  peak_velocities np_exp np_power np_max np_trapz curve_fit quadratic e method
  = Ok v <->
  peak_velocities np_exp np_power np_max np_trapz curve_fit quadratic e "max"
  = Ok v.
Proof.
  intros Hm. unfold peak_velocities. rewrite Hm.
  replace (lower "max") with "max"%string by reflexivity.
  simpl String.eqb. cbv iota.
  rewrite <- MapFacts.mapM_then_take.
  rewrite (MapFacts.mapM_ext
             (fun spectrum => _get_gaussian_center np_exp np_power np_max np_trapz
                                curve_fit (velax e) spectrum)
             (fun spectrum => i <- Np.argmax spectrum ;; Np.item (velax e) i)
             (spectra e) (center_of_failing_fit (velax e))).
  apply iff_refl.
Qed.

(** X17.  When the sinusoid fit raises, [guess_parameters] with [fit] on
    returns what it returns with [fit] off: half the spread of the peak
    velocities and their mean; an exception of [peak_velocities],
    [np.max] or [np.min], raised before the fit, is not caught. *)
Theorem failed_fit_keeps_guess (e : ensemble) (fix_theta : bool)
    (method : string) :
  guess_parameters np_cos np_exp np_power np_max np_trapz curve_fit quadratic np_min
    np_mean e true fix_theta method
  = guess_parameters np_cos np_exp np_power np_max np_trapz curve_fit quadratic np_min
      np_mean e false fix_theta method.
Proof.
  unfold guess_parameters.
  destruct (peak_velocities np_exp np_power np_max np_trapz curve_fit quadratic
              e method) as [vpeaks|]; cbn [Py.bind]; [|reflexivity].
  destruct (np_max vpeaks) as [mx|]; cbn [Py.bind]; [|reflexivity].
  destruct (np_min vpeaks) as [mn|]; cbn [Py.bind negb]; [|reflexivity].
  destruct fix_theta;
    match goal with
    | |- context [curve_fit ?f ?a ?b None ?p] =>
        destruct (fit_raises f a b p) as [err ->]
    end; reflexivity.
Qed.

End FailedFits.

(** X16 on one spectrum whose largest sample is in the middle channel. *)
Lemma failed_fits_give_max_channels_witness :
  let e := Build_ensemble [0] [[1; 2; 1]] [0] [1; 2; 1] [-1; 0; 1] 1
             (-1.5, 1.5) [-0.4; 0.4] in
  peak_velocities (fun x => x) (fun x _ => x) Run.max_seq Run.trapz_one
    Run.fit_fails (fun _ _ _ => Ok 0%float) e "Gaussian" = Ok [0%float].
Proof.
  intros e.
  apply (failed_fits_give_max_channels (fun x => x) (fun x _ => x) Run.max_seq
           Run.trapz_one Run.fit_fails (fun _ _ _ => Ok 0%float)).
  - intros f x y p0. eexists. reflexivity.
  - reflexivity.
  - reflexivity.
Defined.

(** X17 on the same spectrum: the guess is (0, 0). *)
Lemma failed_fit_keeps_guess_witness :
  let e := Build_ensemble [0] [[1; 2; 1]] [0] [1; 2; 1] [-1; 0; 1] 1
             (-1.5, 1.5) [-0.4; 0.4] in
  guess_parameters Run.cos_0_pi (fun x => x) (fun x _ => x) Run.max_seq Run.trapz_one
    Run.fit_fails (fun _ _ _ => Ok 0%float) Run.max_seq (fun a => hd 0%float a)
    e true true "max" = Ok [0; 0].
Proof.
  intros e.
  rewrite (failed_fit_keeps_guess Run.cos_0_pi (fun x => x) (fun x _ => x) Run.max_seq
             Run.trapz_one Run.fit_fails (fun _ _ _ => Ok 0%float) Run.max_seq
             (fun a => hd 0%float a)).
  - reflexivity.
  - intros f x y p0. eexists. reflexivity.
Defined.

(* ================================================================= *)
(** ** A Gaussian process that cannot be computed *)

Section ComputeFails.

Open Scope float_scope.

Variable np_argsort : list float -> list nat.
Variable np_cos : float -> float.
Variable binned_statistic :
  list float -> list float -> string -> Z -> float * float ->
  result (list float * list float).
Variable np_log : float -> float.
Variable np_nanmean : list float -> float.
Variable GP : Type.
Variable celerite_GP : float -> float -> float -> float -> GP.
Variable gp_compute : GP -> list float -> result GP.
Variable gp_log_likelihood : GP -> list float -> result float.

(** X18.  When [gp.compute] raises on the masked spectrum, nothing is
    raised further up: [_build_kernel] returns [None], the likelihood is
    negative infinity, the objective of the optimizer is the sentinel 1e15
    and the posterior is negative infinity at every reference velocity,
    whatever [gp.log_likelihood] would return. *)
Theorem failed_compute_gives_sentinel e vrot noise lnsigma lnrho resample
    x y err s :
  _get_masked_spectra np_argsort np_cos binned_statistic e
    [vrot; noise; lnsigma; lnrho] resample = Ok (x, y) ->
  gp_compute (celerite_GP (np_log noise) lnsigma lnrho (np_nanmean y)) x
  = Raise err ->
  _build_kernel np_log np_nanmean GP celerite_GP gp_compute x y
    [vrot; noise; lnsigma; lnrho] = Ok None /\
  _lnlikelihood np_argsort np_cos binned_statistic np_log np_nanmean GP
    celerite_GP gp_compute gp_log_likelihood e [vrot; noise; lnsigma; lnrho]
    resample s
  = (Ok neg_infinity,
     mkState (heap s)
       (trace s ++ [EvLnLikelihood [vrot; noise; lnsigma; lnrho] resample])) /\
  _negative_lnlikelihood np_argsort np_cos binned_statistic np_log np_nanmean
    GP celerite_GP gp_compute gp_log_likelihood e
    [vrot; noise; lnsigma; lnrho] resample s
  = (Ok 1e15,
     mkState (heap s)
       (trace s ++ [EvLnLikelihood [vrot; noise; lnsigma; lnrho] resample])) /\
  (forall vref,
      fst (_lnprobability np_argsort np_cos binned_statistic np_log np_nanmean
             GP celerite_GP gp_compute gp_log_likelihood e
             [vrot; noise; lnsigma; lnrho] vref resample s)
      = Ok neg_infinity).
Proof.
  intros Hm Hc.
  assert (Hk : _build_kernel np_log np_nanmean GP celerite_GP gp_compute x y
                 [vrot; noise; lnsigma; lnrho] = Ok None).
  { unfold _build_kernel. cbn [tl]. rewrite Hc. reflexivity. }
  assert (Hl : _lnlikelihood np_argsort np_cos binned_statistic np_log
                 np_nanmean GP celerite_GP gp_compute gp_log_likelihood e
                 [vrot; noise; lnsigma; lnrho] resample s
               = (Ok neg_infinity,
                  mkState (heap s)
                    (trace s ++
                     [EvLnLikelihood [vrot; noise; lnsigma; lnrho] resample]))).
  { unfold _lnlikelihood, Mem.bind, Mem.log, Mem.lift, Mem.ret.
    rewrite Hm, Hk. reflexivity. }
  split; [exact Hk|]. split; [exact Hl|]. split.
  - unfold _negative_lnlikelihood, Mem.bind, Mem.ret. rewrite Hl. reflexivity.
  - intros vref. unfold _lnprobability, Mem.bind, Mem.lift, Mem.ret.
    destruct (lnprior_cases vrot noise lnsigma lnrho vref) as [Hp|Hp];
      rewrite Hp.
    + change (negb (Np.isfinite 0)) with false. cbv iota. rewrite Hl. reflexivity.
    + reflexivity.
Qed.

End ComputeFails.

(** X18 on one spectrum and a [gp.compute] that raises. *)
Lemma failed_compute_gives_sentinel_witness :
  let e := Build_ensemble [0] [[1; 2; 1]] [0] [1; 2; 1] [-1; 0; 1] 1
             (-1.5, 1.5) [-0.4; 0.4] in
  _negative_lnlikelihood Run.argsort_stable Run.cos_0_pi Run.no_binning
    (fun x => x) (fun a => hd 0%float a) float Run.gp_lnrho
    Run.gp_compute_unsorted Run.gp_loglike_lnrho e [1; 1; 0; 5] (RBool false)
    (mkState [] [])
  = (Ok 1e15, mkState [] [EvLnLikelihood [1; 1; 0; 5] (RBool false)]).
Proof.
  intros e.
  destruct (failed_compute_gives_sentinel
              Run.argsort_stable Run.cos_0_pi Run.no_binning (fun x => x)
              (fun a => hd 0%float a) float Run.gp_lnrho Run.gp_compute_unsorted
              Run.gp_loglike_lnrho e 1 1 0 5 (RBool false) [0] [1]
              (ValueError "the input coordinates must be sorted")
              (mkState [] []) eq_refl eq_refl) as (_ & _ & Hn & _).
  exact Hn.
Defined.

(* ================================================================= *)
(** ** Spectra aligned on their maxima *)

Section AlignedMaxima.

Open Scope float_scope.

Variable np_argsort : list float -> list nat.
Variable np_sum : list float -> float.
Variable np_exp : float -> float.
Variable np_power : float -> float -> float.
Variable np_degrees : float -> float.
Variable np_mod : float -> float -> float.
Variable np_percentile : list float -> list float -> list float.
Variable np_median : list float -> float.
Variable np_max : list float -> result float.
Variable np_trapz : list float -> list float -> float.
Variable binned_statistic :
  list float -> list float -> string -> Z -> float * float ->
  result (list float * list float).
Variable curve_fit :
  (float -> list float -> float) -> list float -> list float ->
  option (list float) -> list float ->
  result (list float * list (list float)).
Variable quadratic : list float -> float -> float -> result float.

(** X19.  Built with [remove_empty] and [sort_spectra] off from spectra on
    the channels of the velocity axis, the ensemble aligns on its maxima
    without error with the method 'max', whatever the number of angles:
    the merged cloud has one point per spectrum and channel, its
    coordinates ascend, and its points are the samples of the spectra, the
    axis of each spectrum shifted by the distance of its peak velocity from
    the median peak velocity and each coordinate with the intensity of its
    own spectrum and channel. *)
Theorem plain_ensemble_aligns_maxima sp0 th0 vx sw e method :
  __init__ np_argsort np_sum np_degrees np_mod np_percentile
    sp0 th0 vx sw false false = Ok e ->
  (forall a, argsort_spec a (np_argsort a)) ->
  lower method = "max"%string ->
  Forall (fun row => length row = length vx) sp0 ->
  exists vmax x y,
    peak_velocities np_exp np_power np_max np_trapz curve_fit quadratic e method
    = Ok vmax /\
    deprojected_spectrum_maximum np_argsort np_exp np_power np_median np_max
      np_trapz binned_statistic curve_fit quadratic e (RBool false) method
    = Ok (x, y) /\
    np_sorted x /\
    Permutation (combine x y)
      (concat (map (fun ds => combine (map (fun v => v - fst ds) vx) (snd ds))
                   (combine (map (fun v => v - np_median vmax) vmax) sp0))) /\
    length x = (length sp0 * length vx)%nat /\
    length y = length x.
Proof.
  intros H Hspec Hm Hrect.
  destruct (init_inv _ _ _ _ _ _ _ _ _ _ _ _ H)
    as (th1 & sp1 & [-> ->] & [Ht Hs] & Hflat & Hvx & _ & Hc).
  rewrite <- Hs, <- Hvx in Hrect.
  assert (Hc' : (1 <= length (velax e))%nat) by (rewrite Hvx; lia).
  destruct (peak_velocities_max np_exp np_power np_max np_trapz curve_fit
              quadratic e method Hm Hc' Hrect) as [vmax Hv].
  pose proof (peak_velocities_size np_exp np_power np_max np_trapz curve_fit
                quadratic e method vmax Hv) as Hsz.
  set (shifts := map (fun v => v - np_median vmax) vmax).
  set (vp := Np.flatten (map (fun dv => map (fun v => v - dv) (velax e)) shifts)).
  assert (Hvp : length vp = (length (spectra e) * length (velax e))%nat).
  { subst vp. unfold Np.flatten.
    rewrite (NpFacts.concat_length_const (length (velax e))).
    - rewrite length_map. subst shifts. rewrite length_map, Hsz. reflexivity.
    - apply Forall_map, Forall_forall. intros dv _. apply length_map. }
  assert (Hlen : length (spectra_flat e) = length vp).
  { rewrite Hvp, Hflat, <- Hs. unfold Np.flatten.
    apply NpFacts.concat_length_const. exact Hrect. }
  destruct (order_spectra_ok np_argsort e vp None (Hspec vp) Hlen)
    as (x & y & Ho & _ & Hsorted & Hp & Hx & Hy).
  exists vmax, x, y. split; [exact Hv|]. split.
  { unfold deprojected_spectrum_maximum. rewrite Hv. cbn [Py.bind].
    fold shifts. fold vp. rewrite Ho. reflexivity. }
  split; [exact Hsorted|]. split.
  { eapply perm_trans; [exact Hp|].
    subst vp. rewrite Hflat, <- Hs, <- Hvx. unfold Np.flatten.
    rewrite (combine_flat_rows
               (fun dv => map (fun v => v - dv) (velax e))
               (length (velax e)) shifts (spectra e)
               (fun t => length_map _ _) Hrect).
    apply Permutation_refl. }
  split; [rewrite Hx, Hvp, Hs, Hvx; reflexivity | rewrite Hx, Hy; reflexivity].
Qed.

End AlignedMaxima.

(** X19 on two spectra that both peak in the last channel. *)
Lemma plain_ensemble_aligns_maxima_witness :
  exists e x y,
    __init__ Run.argsort_stable Run.sum_seq Run.degrees_0_pi Run.mod_small
      Run.percentile_m1_1 [[1; 2; 3]; [4; 5; 6]] [pi; 0] [-1; 0; 1]
      true false false = Ok e /\
    deprojected_spectrum_maximum Run.argsort_stable (fun x => x) (fun x _ => x)
      Run.median_of_equal Run.max_seq Run.trapz_one Run.no_binning
      Run.fit_fails (fun _ _ _ => Ok 0%float) e (RBool false) "max" = Ok (x, y) /\
    np_sorted x /\
    length x = 6%nat.
Proof.
  eexists.
  assert (Hrect : Forall (fun row : list float => length row = length [-1; 0; 1]%float)
                    [[1; 2; 3]; [4; 5; 6]]%float) by (repeat constructor).
  destruct (plain_ensemble_aligns_maxima
              Run.argsort_stable Run.sum_seq (fun x => x) (fun x _ => x)
              Run.degrees_0_pi Run.mod_small Run.percentile_m1_1
              Run.median_of_equal Run.max_seq Run.trapz_one Run.no_binning
              Run.fit_fails (fun _ _ _ => Ok 0%float)
              [[1; 2; 3]; [4; 5; 6]]%float [pi; 0]%float [-1; 0; 1]%float true _
              "max" eq_refl SortFacts.argsort_stable_spec eq_refl Hrect)
    as (vmax & x & y & _ & Hd & Hs & _ & Hx & _).
  exists x, y. repeat split; assumption.
Defined.

(* ================================================================= *)
(** ** A deprojection that leaves the velocity axis *)

Section EmptyWindow.

Open Scope float_scope.

Variable np_argsort : list float -> list nat.
Variable np_cos : float -> float.
Variable np_exp : float -> float.
Variable np_power : float -> float -> float.
Variable np_max : list float -> result float.
Variable np_trapz : list float -> list float -> float.
Variable binned_statistic :
  list float -> list float -> string -> Z -> float * float ->
  result (list float * list float).
Variable curve_fit :
  (float -> list float -> float) -> list float -> list float ->
  option (list float) -> list float ->
  result (list float * list (list float)).

(** X20.  When no point of the deprojected spectrum lies between the first
    and the last velocity of the axis, [get_deprojected_width] returns the
    fill value 1e50 of [_get_gaussian_width] and raises nothing: the
    initial guess on the empty arrays raises and [_fit_gaussian] catches
    it, whatever [curve_fit] would return. *)
Theorem empty_window_gives_fill e vrot resample x y lo hi :
  deprojected_spectrum np_argsort np_cos binned_statistic e vrot resample
  = Ok (x, y) ->
  length x = length y ->
  Np.item (velax e) 0 = Ok lo ->
  Np.last_item (velax e) = Ok hi ->
  Forall (fun v => (lo <=? v) && (v <=? hi) = false) x ->
  get_deprojected_width np_argsort np_cos np_exp np_power np_max np_trapz
    binned_statistic curve_fit e vrot resample
  = Ok 1e50.
Proof.
  intros Hd Hlen Hlo Hhi Hout. unfold get_deprojected_width.
  rewrite Hd. cbn [Py.bind]. rewrite Hlo, Hhi. cbn [Py.bind].
  unfold Np.mask. rewrite !length_map, <- Hlen, !Nat.eqb_refl. cbn [Py.bind].
  rewrite (KeepFacts.select_none _ x x Hout), (KeepFacts.select_none _ x y Hout).
  unfold _get_gaussian_width, _fit_gaussian, _get_p0_gaussian.
  cbn [length Nat.eqb negb].
  destruct (np_max []); reflexivity.
Qed.

End EmptyWindow.

(** X20 on one spectrum shifted by ten channels. *)
Lemma empty_window_gives_fill_witness :
  let e := Build_ensemble [0] [[1; 2; 1]] [0] [1; 2; 1] [-1; 0; 1] 1
             (-1.5, 1.5) [-0.4; 0.4] in
  get_deprojected_width Run.argsort_stable Run.cos_0_pi (fun x => x)
    (fun x _ => x) Run.max_seq Run.trapz_one Run.no_binning Run.fit_fails
    e 10 (RBool false)
  = Ok 1e50.
Proof.
  intros e.
  apply (empty_window_gives_fill Run.argsort_stable Run.cos_0_pi (fun x => x)
           (fun x _ => x) Run.max_seq Run.trapz_one Run.no_binning
           Run.fit_fails e 10 (RBool false) [-11; -10; -9] [1; 2; 1] (-1) 1).
  - reflexivity.
  - reflexivity.
  - reflexivity.
  - reflexivity.
  - repeat constructor.
Defined.

(* ================================================================= *)
(** ** The resampling factor at its edges *)

Module FactorFacts.

Open Scope float_scope.

Lemma mul_nan_r (x y : float) : is_nan y = true -> is_nan (x * y) = true.
Proof.
  intros H. apply FloatMore.is_nan_true in H. apply FloatMore.is_nan_true.
  rewrite mul_spec, H. unfold SF64mul, SFmul. destruct (Prim2SF x); reflexivity.
Qed.

End FactorFacts.

Section Factor.

Open Scope float_scope.

Variable binned_statistic :
  list float -> list float -> string -> Z -> float * float ->
  result (list float * list float).

(** X21.  [_resample_spectra] at the edges of its factor.  A factor Python
    takes for false ([False], [0], [0.0]) returns the two arrays as they
    are, without binning.  [True] bins as the integer 1 does, into one bin
    per channel interval.  A not-a-number factor is taken for true, and the
    conversion of the number of bins to an integer raises. *)
Theorem resample_factor_edges (e : ensemble) (vpnts spnts : list float) :
  (forall r, truthy r = false ->
     _resample_spectra binned_statistic e vpnts spnts r = Ok (vpnts, spnts)) /\
  _resample_spectra binned_statistic e vpnts spnts (RBool true)
  = _resample_spectra binned_statistic e vpnts spnts (RInt 1) /\
  (forall f, is_nan f = true ->
     _resample_spectra binned_statistic e vpnts spnts (RFloat f)
     = Raise (ValueError "cannot convert float NaN to integer")).
Proof.
  split; [|split].
  - intros r Hr. unfold _resample_spectra. rewrite Hr. reflexivity.
  - unfold _resample_spectra, int_times. cbn [truthy negb Z.eqb].
    rewrite Z.mul_1_r. reflexivity.
  - intros f Hf. unfold _resample_spectra, truthy.
    rewrite (FloatMore.eqb_nan_l f 0 Hf). cbn [negb]. unfold int_times, int_of_float.
    pose proof (FactorFacts.mul_nan_r
                  (of_int (Z.of_nat (length (velax e)) - 1)) f Hf) as Hn.
    apply FloatMore.is_nan_true in Hn. rewrite Hn. reflexivity.
Qed.

End Factor.

(** X21 on the factors 0.0 and not-a-number. *)
Lemma resample_factor_edges_witness :
  let e := Build_ensemble [0] [[1; 2; 1]] [0] [1; 2; 1] [-1; 0; 1] 1
             (-1.5, 1.5) [-0.4; 0.4] in
  _resample_spectra Run.binning_one_bin e [-1; 0; 1] [1; 2; 1] (RFloat 0)
  = Ok ([-1; 0; 1], [1; 2; 1]) /\
  _resample_spectra Run.binning_one_bin e [-1; 0; 1] [1; 2; 1] (RFloat nan)
  = Raise (ValueError "cannot convert float NaN to integer").
Proof.
  intros e.
  destruct (resample_factor_edges Run.binning_one_bin e [-1; 0; 1] [1; 2; 1])
    as (Hfalse & _ & Hnan).
  split; [apply Hfalse | apply Hnan]; reflexivity.
Defined.
